(** * script.js of the housing-price page: a shallow embedding

    The page script (app/static/script.js) reads eight numeric inputs,
    posts them to [/predict_price] and [/feature_curve], and shows a text
    result, an error message or a Chart.js line chart.

    Part I models what the script computes with: JavaScript numbers (IEEE
    binary64, the kernel's primitive floats), [parseFloat], [parseInt],
    [Number.prototype.toFixed], number-to-string conversion, JSON values and
    [JSON.stringify].  Part II models the page (the DOM elements the script
    touches and the Chart.js instances), the script's two async handlers as
    programs over that page, and the browser's event loop.  Part III states
    and proves the properties. *)

From Stdlib Require Import ZArith String Ascii List Lia DecimalString DecimalN.
From Stdlib Require Import Floats.PrimFloat Floats.SpecFloat Floats.FloatOps.
From Stdlib Require Floats.FloatAxioms DecimalFacts DecimalPos.
From stdpp Require Import base option strings list gmap.

Local Open Scope string_scope.
Local Open Scope Z_scope.
Local Set Warnings "-register-all,-inexact-float".

(** ** Strings

    A [string] holds the UTF-8 bytes of a JavaScript string. *)

Definition dquote : ascii := ascii_of_nat 34.
Definition backslash : ascii := ascii_of_nat 92.

Fixpoint str_take (n : nat) (s : string) : string :=
  match n, s with
  | S n', String c s' => String c (str_take n' s')
  | _, _ => ""
  end.

Fixpoint str_drop (n : nat) (s : string) : string :=
  match n, s with
  | S n', String _ s' => str_drop n' s'
  | _, _ => s
  end.

Definition starts_with (p s : string) : bool :=
  String.eqb (str_take (String.length p) s) p.

Fixpoint join (sep : string) (parts : list string) : string :=
  match parts with
  | [] => ""
  | [s] => s
  | s :: rest => s +:+ sep +:+ join sep rest
  end.

(** ** Numbers *)

Module Number.

(** The decimal digits of a natural number ("0" for zero). *)
Definition decimal (n : Z) : string :=
  NilZero.string_of_uint (N.to_uint (Z.to_N n)).

Fixpoint zeros (n : nat) : string :=
  match n with O => "" | S n' => String "0" (zeros n') end.

(** *** Number::toString (ECMA-262, 6.1.6.1.20, radix 10)

    A finite non-zero double is [m * 2^e].  Its shortest digits: integers
    [s] and [P] with [s * 10^P] inside the rounding interval of the double
    (the reals that round to it), [P] as large as possible, and [s] the
    candidate nearest to the double.  Everything is computed exactly, in
    units of [2^(e-2)]. *)

(** The lower end of the rounding interval, in units of [2^(e-2)]; the gap
    below a power of two is half the gap above it. *)
Definition boundary_low (m : positive) (e : Z) : Z :=
  if (Zpos m =? 2 ^ 52) && (-1074 <? e) then 4 * Zpos m - 1 else 4 * Zpos m - 2.

(** The integers [s] with [s * 10^P] in the rounding interval, as the least
    and the greatest of them, and the integer nearest to [m * 2^e / 10^P]
    (ties to even).  The interval's ends belong to it when [m] is even. *)
Definition candidates (m : positive) (e P : Z) : Z * Z * Z :=
  let a := e - 2 in
  let A := 2 ^ Z.max a 0 * 10 ^ Z.max (- P) 0 in
  let B := 10 ^ Z.max P 0 * 2 ^ Z.max (- a) 0 in
  let lo := boundary_low m e * A in
  let hi := (4 * Zpos m + 2) * A in
  let incl := Z.even (Zpos m) in
  let smin := if incl then (lo + B - 1) / B else lo / B + 1 in
  let smax := if incl then hi / B else (hi - 1) / B in
  let q := (4 * Zpos m * A) / B in
  let r := (4 * Zpos m * A) mod B in
  let near := match 2 * r ?= B with
              | Lt => q
              | Gt => q + 1
              | Eq => if Z.even q then q else q + 1
              end in
  (Z.max smin 1, smax, near).

Fixpoint shortest (fuel : nat) (m : positive) (e P : Z) : Z * Z :=
  let '(smin, smax, near) := candidates m e P in
  if smin <=? smax then (Z.max smin (Z.min smax near), P)
  else match fuel with
       | O => (0, P)
       | S fuel' => shortest fuel' m e (P - 1)
       end.

(** The digits of [s] and the position [n] of the decimal point:
    [m * 2^e] prints as [0.d1 d2 ... dk * 10^n].  The search starts above
    the decimal exponent of the double ([30103/100000] bounds [log10 2]
    from above) and needs fewer than twenty steps. *)
Definition digits_and_point (m : positive) (e : Z) : string * Z :=
  let top := (Zpos (digits2_pos m) + e + 1) * 30103 / 100000 + 2 in
  let '(s, P) := shortest 400 m e top in
  let ds := decimal s in
  (ds, P + Z.of_nat (String.length ds)).

Definition render (ds : string) (n : Z) : string :=
  let k := Z.of_nat (String.length ds) in
  if (k <=? n) && (n <=? 21) then ds +:+ zeros (Z.to_nat (n - k))
  else if (0 <? n) && (n <=? 21) then
    str_take (Z.to_nat n) ds +:+ "." +:+ str_drop (Z.to_nat n) ds
  else if (-6 <? n) && (n <=? 0) then "0." +:+ zeros (Z.to_nat (- n)) +:+ ds
  else
    let ex := n - 1 in
    let c := if ex <? 0 then "-" else "+" in
    let mant := if k =? 1 then ds else str_take 1 ds +:+ "." +:+ str_drop 1 ds in
    mant +:+ "e" +:+ c +:+ decimal (Z.abs ex).

Definition toString (x : float) : string :=
  match Prim2SF x with
  | S754_nan => "NaN"
  | S754_zero _ => "0"
  | S754_infinity s => if s then "-Infinity" else "Infinity"
  | S754_finite s m e =>
      let '(ds, n) := digits_and_point m e in
      (if s then "-" else "") +:+ render ds n
  end.

(** *** Number.prototype.toFixed (ECMA-262, 21.1.3.3)

    [f] is the number of fraction digits; the script passes 2, inside the
    range 0..100 outside which the method throws a RangeError. *)

(** The integer [n] for which [n / 10^f - m * 2^e] is as close to zero as
    possible, the larger one when there are two. *)
Definition nearest_scaled (m : positive) (e : Z) (f : nat) : Z :=
  let num := Zpos m * 10 ^ Z.of_nat f in
  if 0 <=? e then num * 2 ^ e
  else (2 * num + 2 ^ (- e)) / 2 ^ (1 - e).

Definition fixed_digits (n : Z) (f : nat) : string :=
  let m := decimal n in
  match f with
  | O => m
  | _ =>
      let k := String.length m in
      let m := if (k <=? f)%nat then zeros (f + 1 - k) +:+ m else m in
      let k := String.length m in
      str_take (k - f) m +:+ "." +:+ str_drop (k - f) m
  end.

(** [10^21 <= m * 2^e] *)
Definition at_least_1e21 (m : positive) (e : Z) : bool :=
  if 0 <=? e then 10 ^ 21 <=? Zpos m * 2 ^ e
  else 10 ^ 21 * 2 ^ (- e) <=? Zpos m.

Definition toFixed (x : float) (f : nat) : string :=
  match Prim2SF x with
  | S754_nan => "NaN"
  | S754_infinity s => if s then "-Infinity" else "Infinity"
  | S754_zero _ => fixed_digits 0 f
  | S754_finite s m e =>
      (if s then "-" else "") +:+
      (if at_least_1e21 m e then toString (abs x)
       else fixed_digits (nearest_scaled m e f) f)
  end.

(** *** Reading numbers: parseFloat, parseInt, StringToNumber *)

Definition is_digit (c : ascii) : bool :=
  let n := nat_of_ascii c in (48 <=? n)%nat && (n <=? 57)%nat.

Definition digit_value (c : ascii) : Z := Z.of_nat (nat_of_ascii c) - 48.

(** TrimString at the start: white space and line terminators (TAB, LF, VT,
    FF, CR, SP, U+00A0, U+1680, U+2000..U+200A, U+2028, U+2029, U+202F,
    U+205F, U+3000, U+FEFF), on the UTF-8 bytes. *)
Fixpoint trim_start (s : string) : string :=
  match s with
  | String c r =>
      let n := nat_of_ascii c in
      if ((9 <=? n)%nat && (n <=? 13)%nat) || (n =? 32)%nat then trim_start r
      else match n, r with
           | 194%nat, String c2 r2 =>
               if (nat_of_ascii c2 =? 160)%nat then trim_start r2 else s
           | 225%nat, String c2 (String c3 r3) =>
               if (nat_of_ascii c2 =? 154)%nat && (nat_of_ascii c3 =? 128)%nat
               then trim_start r3 else s
           | 226%nat, String c2 (String c3 r3) =>
               let n2 := nat_of_ascii c2 in
               let n3 := nat_of_ascii c3 in
               if ((n2 =? 128)%nat &&
                   (((128 <=? n3)%nat && (n3 <=? 138)%nat) || (n3 =? 168)%nat
                    || (n3 =? 169)%nat || (n3 =? 175)%nat))
                  || ((n2 =? 129)%nat && (n3 =? 159)%nat)
               then trim_start r3 else s
           | 227%nat, String c2 (String c3 r3) =>
               if (nat_of_ascii c2 =? 128)%nat && (nat_of_ascii c3 =? 128)%nat
               then trim_start r3 else s
           | 239%nat, String c2 (String c3 r3) =>
               if (nat_of_ascii c2 =? 187)%nat && (nat_of_ascii c3 =? 191)%nat
               then trim_start r3 else s
           | _, _ => s
           end
  | EmptyString => s
  end.

(** The decimal digits a string starts with: how many, the value they give
    when appended to [acc], and the rest of the string. *)
Fixpoint digits (s : string) (count : nat) (acc : Z) : nat * Z * string :=
  match s with
  | String c r =>
      if is_digit c then digits r (S count) (10 * acc + digit_value c)
      else (count, acc, s)
  | EmptyString => (count, acc, s)
  end.

Definition sign_prefix (s : string) : bool * string :=
  match s with
  | String "-" r => (true, r)
  | String "+" r => (false, r)
  | _ => (false, s)
  end.

(** ExponentPart: [e] or [E], an optional sign, one digit or more.  A
    string that does not start with one has exponent 0 and is left whole. *)
Definition exponent_part (s : string) : Z * string :=
  match s with
  | String c r =>
      if (Ascii.eqb c "e" || Ascii.eqb c "E")%bool then
        let '(neg, r') := sign_prefix r in
        let '(n, v, rest) := digits r' 0 0 in
        match n with
        | O => (0, s)
        | _ => (if neg then - v else v, rest)
        end
      else (0, s)
  | EmptyString => (0, s)
  end.

(** The longest prefix that is a StrUnsignedDecimalLiteral other than
    [Infinity]: digits [D] and a decimal exponent [X] (the literal's value
    is [D * 10^X]), and what follows the prefix. *)
Definition unsigned_decimal (s : string) : option (Z * Z * string) :=
  let '(n1, v1, r1) := digits s 0 0 in
  let '(n2, v2, r2) :=
    match r1 with
    | String "." r => digits r 0 v1
    | _ => (O, v1, r1)
    end in
  match n1, n2 with
  | O, O => None
  | _, _ =>
      let '(ex, rest) := exponent_part r2 in
      Some (v2, ex - Z.of_nat n2, rest)
  end.

Definition signed (neg : bool) (x : spec_float) : float :=
  SF2Prim (if neg then SFopp x else x).

(** The double nearest to [D * 10^X], ties to even.  Beyond [10^310] the
    result is infinite and below [10^-330] it is zero, so the powers of ten
    stay small. *)
Definition of_decimal (neg : bool) (D X : Z) : float :=
  if D =? 0 then signed neg (S754_zero false)
  else
    let nd := Z.of_nat (String.length (decimal D)) in
    if 310 <? nd + X then signed neg (S754_infinity false)
    else if nd + X <? -330 then signed neg (S754_zero false)
    else if 0 <=? X then
      signed neg (binary_normalize prec emax (D * 10 ^ X) 0 false)
    else
      signed neg (SFdiv prec emax (S754_finite false (Z.to_pos D) 0)
                                  (S754_finite false (Z.to_pos (10 ^ (- X))) 0)).

(** parseFloat (ECMA-262, 19.2.4): the value of the longest prefix of the
    trimmed string that is a StrDecimalLiteral, NaN when there is none. *)
Definition parseFloat (input : string) : float :=
  let '(neg, r) := sign_prefix (trim_start input) in
  if starts_with "Infinity" r then signed neg (S754_infinity false)
  else match unsigned_decimal r with
       | Some (D, X, _) => of_decimal neg D X
       | None => nan
       end.

(** parseInt (ECMA-262, 19.2.5) with radix 10, as the script calls it. *)
Definition parseInt (input : string) : float :=
  let '(neg, r) := sign_prefix (trim_start input) in
  let '(n, v, _) := digits r 0 0 in
  match n with
  | O => nan
  | _ => signed neg (binary_normalize prec emax v 0 false)
  end.

(** A digit of a radix up to 36. *)
Definition radix_digit (c : ascii) : option Z :=
  let n := Z.of_nat (nat_of_ascii c) in
  if (48 <=? n) && (n <=? 57) then Some (n - 48)
  else if (97 <=? n) && (n <=? 122) then Some (n - 87)
  else if (65 <=? n) && (n <=? 90) then Some (n - 55)
  else None.

Fixpoint digits_radix (radix : Z) (s : string) (count : nat) (acc : Z)
  : nat * Z * string :=
  match s with
  | String c r =>
      match radix_digit c with
      | Some d =>
          if d <? radix then digits_radix radix r (S count) (radix * acc + d)
          else (count, acc, s)
      | None => (count, acc, s)
      end
  | EmptyString => (count, acc, s)
  end.

(** The prefix of a NonDecimalIntegerLiteral: its radix and what follows. *)
Definition non_decimal_prefix (s : string) : option (Z * string) :=
  match s with
  | String "0" (String c r) =>
      if (Ascii.eqb c "b" || Ascii.eqb c "B")%bool then Some (2, r)
      else if (Ascii.eqb c "o" || Ascii.eqb c "O")%bool then Some (8, r)
      else if (Ascii.eqb c "x" || Ascii.eqb c "X")%bool then Some (16, r)
      else None
  | _ => None
  end.

Definition only_space (s : string) : bool := String.eqb (trim_start s) "".

(** StringToNumber (ECMA-262, 7.1.4.1.1): the string, white space at both
    ends apart, is a StrNumericLiteral, or is empty (then [+0]), or the
    result is NaN. *)
Definition StringToNumber (input : string) : float :=
  let t := trim_start input in
  if String.eqb t "" then zero
  else match non_decimal_prefix t with
       | Some (radix, r) =>
           let '(n, v, rest) := digits_radix radix r 0 0 in
           match n with
           | O => nan
           | _ => if only_space rest
                  then signed false (binary_normalize prec emax v 0 false)
                  else nan
           end
       | None =>
           let '(neg, r) := sign_prefix t in
           if starts_with "Infinity" r then
             if only_space (str_drop 8 r) then signed neg (S754_infinity false)
             else nan
           else match unsigned_decimal r with
                | Some (D, X, rest) =>
                    if only_space rest then of_decimal neg D X else nan
                | None => nan
                end
       end.

End Number.

(** ** Values

    The values the script handles: what [JSON.parse] returns, the object
    literals the script builds, and [undefined]. An object is the list of
    its own properties in creation order, no name twice. *)

Inductive JSVal : Type :=
| VUndefined
| VNull
| VBool (b : bool)
| VNum (x : float)
| VStr (s : string)
| VArr (items : list JSVal)
| VObj (props : list (string * JSVal)).

(** An exception value: every one the script sees is an Error object, of
    which the script reads [message]. *)
Record JSError : Type := mkError { err_name : string; err_message : string }.

Definition Error (message : string) : JSError := mkError "Error" message.
Definition TypeError (message : string) : JSError := mkError "TypeError" message.

(** The text of a TypeError is the engine's; these are V8's. *)
Definition cannot_read (of_what prop : string) : JSError :=
  TypeError ("Cannot read properties of " +:+ of_what +:+
             " (reading '" +:+ prop +:+ "')").
Definition not_a_function (what : string) : JSError :=
  TypeError (what +:+ " is not a function").

Fixpoint assoc (name : string) (props : list (string * JSVal)) : option JSVal :=
  match props with
  | [] => None
  | (k, v) :: rest => if String.eqb k name then Some v else assoc name rest
  end.

(** What the engine throws when the conversion of an object to a string or
    a number finds no method to call (V8's text). *)
Definition cannot_convert : JSError :=
  TypeError "Cannot convert object to primitive value".

(** ToString (ECMA-262, 7.1.17), as a template literal applies it.  An array
    joins its elements with commas, [undefined] and [null] as nothing.  An
    object is converted by its [toString] method, which is the one of
    [Object.prototype] unless the object has a property of that name.  The
    objects here come from [JSON.parse], and no value of a JSON text is a
    function: with a property [toString] the conversion finds nothing to
    call ([valueOf] gives the object back) and throws a TypeError. *)
Fixpoint ToString (v : JSVal) : JSError + string :=
  match v with
  | VUndefined => inr "undefined"
  | VNull => inr "null"
  | VBool b => inr (if b then "true" else "false")
  | VNum x => inr (Number.toString x)
  | VStr s => inr s
  | VArr items =>
      match (fix each (l : list JSVal) : JSError + list string :=
               match l with
               | [] => inr []
               | i :: rest =>
                   match match i with
                         | VUndefined | VNull => inr ""
                         | _ => ToString i
                         end with
                   | inl e => inl e
                   | inr s => match each rest with
                              | inl e => inl e
                              | inr parts => inr (s :: parts)
                              end
                   end
               end) items with
      | inl e => inl e
      | inr parts => inr (join "," parts)
      end
  | VObj props =>
      match assoc "toString" props with
      | Some _ => inl cannot_convert
      | None => inr "[object Object]"
      end
  end.

(** The string of an array element in the array's string. *)
Definition element_string (i : JSVal) : JSError + string :=
  match i with
  | VUndefined | VNull => inr ""
  | _ => ToString i
  end.

(** ToNumber (ECMA-262, 7.1.4), as the division operator applies it.  An
    array or an object is first made a primitive, which for the values of a
    JSON text is its string ([valueOf] gives the object back, [toString] is
    called next), and the string is read as a number. *)
Definition ToNumber (v : JSVal) : JSError + float :=
  match v with
  | VUndefined => inr nan
  | VNull => inr zero
  | VBool b => inr (if b then one else zero)
  | VNum x => inr x
  | VStr s => inr (Number.StringToNumber s)
  | VArr _ | VObj _ =>
      match ToString v with
      | inl e => inl e
      | inr s => inr (Number.StringToNumber s)
      end
  end.

(** [||] applied to a string: the empty string is the only falsy one. *)
Definition or_else (s fallback : string) : string :=
  if String.eqb s "" then fallback else s.

(** [v.name] for a property name that no built-in prototype defines (the
    script reads [predicted_price_formatted], [x_values], [prices] and
    [feature_name]): a TypeError on [undefined] and [null], [undefined]
    where the value has no such property. *)
Definition get_prop (v : JSVal) (name : string) : JSError + JSVal :=
  match v with
  | VUndefined => inl (cannot_read "undefined" name)
  | VNull => inl (cannot_read "null" name)
  | VObj props => inr (default VUndefined (assoc name props))
  | _ => inr VUndefined
  end.

(** *** JSON.stringify (ECMA-262, 25.5.2), without replacer or indentation *)

Definition hex_digit (n : nat) : ascii :=
  ascii_of_nat (if (n <? 10)%nat then 48 + n else 87 + n).

(** QuoteJSONString on one byte; bytes of a multi-byte character pass. *)
Definition json_escape (c : ascii) : string :=
  let n := nat_of_ascii c in
  let esc (t : string) := String backslash t in
  if (n =? 8)%nat then esc "b"
  else if (n =? 9)%nat then esc "t"
  else if (n =? 10)%nat then esc "n"
  else if (n =? 12)%nat then esc "f"
  else if (n =? 13)%nat then esc "r"
  else if (n =? 34)%nat then esc (String dquote "")
  else if (n =? 92)%nat then esc (String backslash "")
  else if (n <? 32)%nat then
    esc ("u00" +:+ String (hex_digit (n / 16)) (String (hex_digit (n mod 16)) ""))
  else String c "".

Fixpoint json_escape_all (s : string) : string :=
  match s with
  | EmptyString => ""
  | String c r => json_escape c +:+ json_escape_all r
  end.

Definition QuoteJSONString (s : string) : string :=
  String dquote (json_escape_all s +:+ String dquote "").

(** SerializeJSONProperty: [None] is [undefined]. A number that is not
    finite is written [null]; an array writes [null] for an element that has
    no serialization, and an object leaves such a property out. *)
Fixpoint serialize (v : JSVal) : option string :=
  match v with
  | VUndefined => None
  | VNull => Some "null"
  | VBool b => Some (if b then "true" else "false")
  | VNum x => Some (if is_finite x then Number.toString x else "null")
  | VStr s => Some (QuoteJSONString s)
  | VArr items =>
      Some ("[" +:+ join "," (List.map (fun i => default "null" (serialize i)) items)
            +:+ "]")
  | VObj props =>
      let members :=
        (fix go (ps : list (string * JSVal)) : list string :=
           match ps with
           | [] => []
           | (k, w) :: rest =>
               match serialize w with
               | Some t => (QuoteJSONString k +:+ ":" +:+ t) :: go rest
               | None => go rest
               end
           end) props in
      Some ("{" +:+ join "," members +:+ "}")
  end.

Definition JSON_stringify (v : JSVal) : option string := serialize v.

(** * Part II: the page, the script and the event loop *)

(** ** The page

    The document maps an element's id to the element; the script never adds
    or removes one.  Of an element the script reads [value] and writes
    [textContent] and [classList]. *)

Record Element : Type := mkElement {
  value : string;
  textContent : string;
  classList : list string;
}.

(** The configuration object [renderChart] passes to [new Chart]. *)
Record ChartConfig : Type := mkChartConfig {
  chart_type : string;
  labels : list string;
  dataset_label : string;
  data : list float;
  fill : bool;
  tension : float;
  responsive : bool;
  interaction_mode : string;
  interaction_intersect : bool;
  x_title_display : bool;
  x_title_text : JSVal;
  y_title_display : bool;
  y_title_text : string;
}.

(** What Chart.js was asked to do, oldest first. A chart instance is named
    by a number; it is live from its construction to its [destroy()]. *)
Inductive ChartEvent : Type :=
| Constructed (chart : nat) (config : ChartConfig)
| Destroyed (chart : nat).

Record Page : Type := mkPage {
  document : gmap string Element;
  priceChart : option nat;          (* [let priceChart = null] *)
  charts : list ChartEvent;
}.

Definition with_element (id : string) (f : Element → Element) (p : Page) : Page :=
  mkPage (alter f id (document p)) (priceChart p) (charts p).

Definition with_priceChart (slot : option nat) (p : Page) : Page :=
  mkPage (document p) slot (charts p).

Definition with_chart_event (ev : ChartEvent) (p : Page) : Page :=
  mkPage (document p) (priceChart p) (charts p ++ [ev]).

(** DOMTokenList.add and .remove. *)
Definition add_token (token : string) (el : Element) : Element :=
  mkElement (value el) (textContent el)
            (if decide (token ∈ classList el) then classList el
             else classList el ++ [token]).

Definition remove_token (token : string) (el : Element) : Element :=
  mkElement (value el) (textContent el)
            (filter (λ t, t ≠ token) (classList el)).

Definition set_text (text : string) (el : Element) : Element :=
  mkElement (value el) text (classList el).

Definition set_value (v : string) (el : Element) : Element :=
  mkElement v (textContent el) (classList el).

(** The style sheet hides an element of class [hidden]. *)
Definition is_visible (id : string) (p : Page) : bool :=
  match document p !! id with
  | Some el => bool_decide ("hidden" ∉ classList el)
  | None => false
  end.

Definition text_of (id : string) (p : Page) : option string :=
  textContent <$> document p !! id.

(** The chart instances that are live after a history of Chart.js calls. *)
Fixpoint live (history : list ChartEvent) (acc : list nat) : list nat :=
  match history with
  | [] => acc
  | Constructed c _ :: rest => live rest (acc ++ [c])
  | Destroyed c :: rest => live rest (filter (λ d, d ≠ c) acc)
  end.

Definition live_charts (p : Page) : list nat := live (charts p) [].

(** ** The network *)

Record Request : Type := mkRequest {
  url : string;
  method : string;
  headers : list (string * string);
  body : option string;
}.

(** A response: its status, and what [response.text()] and
    [response.json()] settle to (the body read and parsed, or the error the
    read or the parse ends in). *)
Record Response : Type := mkResponse {
  status : Z;
  text : JSError + string;
  json : JSError + JSVal;
}.

Definition ok (r : Response) : bool := (200 <=? status r) && (status r <=? 299).

(** ** Programs

    An async function of the script is a tree of its steps: reads and
    writes of the page, a [fetch], and the other [await]s, at which the
    function is suspended and the event loop may run other handlers. *)

Inductive prog (A : Type) : Type :=
| Ret (a : A)
| Throw (e : JSError)
| Get (k : Page → prog A)
| Put (p : Page) (k : prog A)
| Fetch (req : Request) (k : JSError + Response → prog A)
| Yield (k : prog A).

Arguments Ret {A} a.
Arguments Throw {A} e.
Arguments Get {A} k.
Arguments Put {A} p k.
Arguments Fetch {A} req k.
Arguments Yield {A} k.

Fixpoint bind {A B : Type} (m : prog A) (f : A → prog B) : prog B :=
  match m with
  | Ret a => f a
  | Throw e => Throw e
  | Get k => Get (λ p, bind (k p) f)
  | Put p k => Put p (bind k f)
  | Fetch req k => Fetch req (λ o, bind (k o) f)
  | Yield k => Yield (bind k f)
  end.

#[global] Instance prog_ret : MRet prog := @Ret.
#[global] Instance prog_bind : MBind prog := λ A B f m, bind m f.
#[global] Instance prog_fmap : FMap prog := λ A B f m, bind m (λ a, Ret (f a)).

(** [try { body } catch (err) { handler }] *)
Fixpoint try_catch {A : Type} (body : prog A) (handler : JSError → prog A) : prog A :=
  match body with
  | Ret a => Ret a
  | Throw e => handler e
  | Get k => Get (λ p, try_catch (k p) handler)
  | Put p k => Put p (try_catch k handler)
  | Fetch req k => Fetch req (λ o, try_catch (k o) handler)
  | Yield k => Yield (try_catch k handler)
  end.

Definition lift {A : Type} (r : JSError + A) : prog A :=
  match r with
  | inl e => Throw e
  | inr a => Ret a
  end.

(** [await promise], for a promise that settles to [r]. *)
Definition await {A : Type} (r : JSError + A) : prog A := Yield (lift r).

(** [await fetch(url, init)] *)
Definition fetch (req : Request) : prog Response := Fetch req lift.

Definition modify (f : Page → Page) : prog unit := Get (λ p, Put (f p) (Ret tt)).

(** [document.getElementById(id).value] *)
Definition value_of (id : string) : prog string :=
  Get (λ p, match document p !! id with
            | Some el => Ret (value el)
            | None => Throw (cannot_read "null" "value")
            end).

(** An access through a reference to the element [id], [null] when the
    document has no such element. *)
Definition on_element (id prop : string) (f : Element → Element) : prog unit :=
  Get (λ p, match document p !! id with
            | Some _ => Put (with_element id f p) (Ret tt)
            | None => Throw (cannot_read "null" prop)
            end).

Definition classList_add (id token : string) : prog unit :=
  on_element id "classList" (add_token token).

Definition classList_remove (id token : string) : prog unit :=
  on_element id "classList" (remove_token token).

Definition set_textContent (id text : string) : prog unit :=
  Get (λ p, match document p !! id with
            | Some _ => Put (with_element id (set_text text) p) (Ret tt)
            | None => Throw (TypeError "Cannot set properties of null (setting 'textContent')")
            end).

(** [document.getElementById(id).getContext("2d")] *)
Definition getContext (id : string) : prog unit :=
  Get (λ p, match document p !! id with
            | Some _ => Ret tt
            | None => Throw (cannot_read "null" "getContext")
            end).

(** [new Chart(ctx, config)]: a new live instance. *)
Definition Chart_new (config : ChartConfig) : prog nat :=
  Get (λ p, let c := length (charts p) in
            Put (with_chart_event (Constructed c config) p) (Ret c)).

(** [chart.destroy()] *)
Definition Chart_destroy (c : nat) : prog unit :=
  modify (with_chart_event (Destroyed c)).

(** ** The script (app/static/script.js) *)

(** The elements the script looks up once, when it loads. *)
Definition form : string := "housing-form".
Definition resultBox : string := "result".
Definition predictedPrice : string := "predicted-price".
Definition errorBox : string := "error".
Definition featureSelect : string := "feature_name".
Definition btnCurve : string := "btn-curve".

Definition getBaseInput : prog JSVal :=
  med_inc ← Number.parseFloat <$> value_of "med_inc";
  house_age ← Number.parseFloat <$> value_of "house_age";
  ave_rooms ← Number.parseFloat <$> value_of "ave_rooms";
  ave_bedrooms ← Number.parseFloat <$> value_of "ave_bedrooms";
  population ← Number.parseFloat <$> value_of "population";
  ave_occup ← Number.parseFloat <$> value_of "ave_occup";
  latitude ← Number.parseFloat <$> value_of "latitude";
  longitude ← Number.parseFloat <$> value_of "longitude";
  mret (VObj [("med_inc", VNum med_inc);
              ("house_age", VNum house_age);
              ("ave_rooms", VNum ave_rooms);
              ("ave_bedrooms", VNum ave_bedrooms);
              ("population", VNum population);
              ("ave_occup", VNum ave_occup);
              ("latitude", VNum latitude);
              ("longitude", VNum longitude)]).

Definition post_json (to : string) (payload : JSVal) : Request :=
  mkRequest to "POST" [("Content-Type", "application/json")]
            (JSON_stringify payload).

(** The [catch] block of both handlers. *)
Definition show_error (err : JSError) : prog unit :=
  set_textContent errorBox (err_message err);;
  classList_remove errorBox "hidden".

(** The listener of the form's [submit] event.  [event.preventDefault()]
    keeps the browser from leaving the page and changes nothing on it. *)
Definition form_submit_handler : prog unit :=
  classList_add errorBox "hidden";;
  classList_add resultBox "hidden";;
  baseInput ← getBaseInput;
  try_catch
    (response ← fetch (post_json "/predict_price" baseInput);
     (if negb (ok response) then
        text ← await (text response);
        Throw (Error (or_else text "Error en la llamada a /predict_price"))
      else mret tt);;
     json ← await (json response);
     formatted ← lift (get_prop json "predicted_price_formatted");
     shown ← lift (ToString formatted);
     set_textContent predictedPrice ("Precio estimado: " +:+ shown);;
     classList_remove resultBox "hidden")
    show_error.

(** [v.toFixed(digits)] on a value of any kind. *)
Definition call_toFixed (digits : nat) (v : JSVal) : JSError + string :=
  match v with
  | VNum x => inr (Number.toFixed x digits)
  | VUndefined => inl (cannot_read "undefined" "toFixed")
  | VNull => inl (cannot_read "null" "toFixed")
  | _ => inl (not_a_function "v.toFixed")
  end.

Fixpoint map_items {B : Type} (f : JSVal → JSError + B) (items : list JSVal)
  : JSError + list B :=
  match items with
  | [] => inr []
  | v :: rest =>
      match f v with
      | inl e => inl e
      | inr b => match map_items f rest with
                 | inl e => inl e
                 | inr bs => inr (b :: bs)
                 end
      end
  end.

(** [v.map(f)] on a value of any kind, [what] the expression [v.map]. *)
Definition call_map {B : Type} (what : string) (f : JSVal → JSError + B) (v : JSVal)
  : JSError + list B :=
  match v with
  | VArr items => map_items f items
  | VUndefined => inl (cannot_read "undefined" "map")
  | VNull => inl (cannot_read "null" "map")
  | _ => inl (not_a_function what)
  end.

(** [p / 1000] on a value of any kind. *)
Definition divide_by_1000 (p : JSVal) : JSError + float :=
  match ToNumber p with
  | inl e => inl e
  | inr x => inr (x / 1000)%float
  end.

(** The label of the data set is built, from [curveData.feature_name], when
    the configuration object is: after the old chart is destroyed. *)
Definition renderChart (curveData : JSVal) : prog unit :=
  getContext "priceChart";;
  x_values ← lift (get_prop curveData "x_values");
  labels ← lift (call_map "curveData.x_values.map" (call_toFixed 2) x_values);
  prices ← lift (get_prop curveData "prices");
  data ← lift (call_map "curveData.prices.map" divide_by_1000 prices);
  old ← Get (λ p, Ret (priceChart p));
  match old with
  | Some chart => Chart_destroy chart
  | None => mret tt
  end;;
  feature_name ← lift (get_prop curveData "feature_name");
  label ← lift (ToString feature_name);
  chart ← Chart_new
    {| chart_type := "line";
       labels := labels;
       dataset_label := "Precio (miles de $) vs " +:+ label;
       data := data;
       fill := false;
       tension := 0.2%float;
       responsive := true;
       interaction_mode := "index";
       interaction_intersect := false;
       x_title_display := true;
       x_title_text := feature_name;
       y_title_display := true;
       y_title_text := "Precio estimado (miles de $)" |};
  modify (with_priceChart (Some chart)).

(** The listener of the curve button's [click] event. *)
Definition btnCurve_click_handler : prog unit :=
  classList_add errorBox "hidden";;
  baseInput ← getBaseInput;
  minValue ← Number.parseFloat <$> value_of "min_value";
  maxValue ← Number.parseFloat <$> value_of "max_value";
  numPoints ← Number.parseInt <$> value_of "num_points";
  feature ← value_of featureSelect;
  let payload := VObj [("feature_name", VStr feature);
                       ("base", baseInput);
                       ("min_value", VNum minValue);
                       ("max_value", VNum maxValue);
                       ("num_points", VNum numPoints)] in
  try_catch
    (response ← fetch (post_json "/feature_curve" payload);
     (if negb (ok response) then
        text ← await (text response);
        Throw (Error (or_else text "Error en la llamada a /feature_curve"))
      else mret tt);;
     json ← await (json response);
     renderChart json)
    show_error.

(** ** Running a program *)

(** Where a run stands when control goes back to the event loop. *)
Inductive waiting (A : Type) : Type :=
| OnFetch (req : Request) (k : JSError + Response → prog A)
| OnYield (k : prog A).

Arguments OnFetch {A} req k.
Arguments OnYield {A} k.

Inductive outcome (A : Type) : Type :=
| Finished (a : A)
| Rejected (e : JSError)
| Suspended (w : waiting A).

Arguments Finished {A} a.
Arguments Rejected {A} e.
Arguments Suspended {A} w.

(** One turn of the event loop: the program runs to its end or to its next
    [await]. *)
Fixpoint run {A : Type} (m : prog A) (p : Page) : Page * outcome A :=
  match m with
  | Ret a => (p, Finished a)
  | Throw e => (p, Rejected e)
  | Get k => run (k p) p
  | Put p' k => run k p'
  | Fetch req k => (p, Suspended (OnFetch req k))
  | Yield k => (p, Suspended (OnYield k))
  end.

(** A whole run with nothing else running in between: the network answers
    each request as [net] says, and every [await] resumes at once. *)
Fixpoint exec {A : Type} (net : Request → JSError + Response) (m : prog A) (p : Page)
  : Page * (JSError + A) :=
  match m with
  | Ret a => (p, inr a)
  | Throw e => (p, inl e)
  | Get k => exec net (k p) p
  | Put p' k => exec net k p'
  | Fetch req k => exec net (k (net req)) p
  | Yield k => exec net k p
  end.

(** ** The event loop

    The page and the handler runs that are suspended.  The user edits a
    field, submits the form or clicks the curve button; a pending request
    settles; a suspended run resumes.  Handlers overlap: between two turns
    of one run, turns of others may come. *)

Record World : Type := mkWorld {
  page : Page;
  tasks : list (waiting unit);
}.

Inductive Event : Type :=
| UserInput (id text : string)
| SubmitForm
| ClickCurve
| Settle (i : nat) (o : JSError + Response)
| Resume (i : nat).

Definition turn (m : prog unit) (p : Page) (others : list (waiting unit)) : World :=
  let '(p', o) := run m p in
  mkWorld p' (others ++ match o with
                        | Suspended w => [w]
                        | _ => []
                        end).

Definition fire (ev : Event) (w : World) : option World :=
  match ev with
  | UserInput id text =>
      Some (mkWorld (with_element id (set_value text) (page w)) (tasks w))
  | SubmitForm => Some (turn form_submit_handler (page w) (tasks w))
  | ClickCurve => Some (turn btnCurve_click_handler (page w) (tasks w))
  | Settle i o =>
      match tasks w !! i with
      | Some (OnFetch _ k) => Some (turn (k o) (page w) (delete i (tasks w)))
      | _ => None
      end
  | Resume i =>
      match tasks w !! i with
      | Some (OnYield k) => Some (turn k (page w) (delete i (tasks w)))
      | _ => None
      end
  end.

Fixpoint fire_all (evs : list Event) (w : World) : option World :=
  match evs with
  | [] => Some w
  | ev :: rest =>
      match fire ev w with
      | Some w' => fire_all rest w'
      | None => None
      end
  end.

(** The page as the script finds it when it loads. *)
Definition loaded (elements : gmap string Element) : World :=
  mkWorld (mkPage elements None []) [].

Definition reachable (elements : gmap string Element) (w : World) : Prop :=
  ∃ evs, fire_all evs (loaded elements) = Some w.

(** ** The vocabulary of the properties *)

Definition present (id : string) (p : Page) : Prop := is_Some (document p !! id).

Definition all_present (ids : list string) (p : Page) : Prop :=
  Forall (λ id, present id p) ids.

#[global] Instance present_dec id p : Decision (present id p).
Proof. unfold present. apply _. Defined.

#[global] Instance all_present_dec ids p : Decision (all_present ids p).
Proof. unfold all_present. apply _. Defined.

Definition base_fields : list string :=
  ["med_inc"; "house_age"; "ave_rooms"; "ave_bedrooms";
   "population"; "ave_occup"; "latitude"; "longitude"].

(** The elements each handler needs (the page-side contract of the
    script), the chart canvas apart. *)
Definition submit_elements : list string :=
  [errorBox; resultBox; predictedPrice] ++ base_fields.

Definition curve_elements : list string :=
  [errorBox; featureSelect; "min_value"; "max_value"; "num_points"] ++ base_fields.

(** What the user has typed into the field [id]. *)
Definition field (id : string) (p : Page) : string :=
  from_option value "" (document p !! id).

(** The BaseInput and the CurveRequest of a page. *)
Definition base_input (p : Page) : JSVal :=
  VObj (List.map (λ id, (id, VNum (Number.parseFloat (field id p)))) base_fields).

Definition curve_request (p : Page) : JSVal :=
  VObj [("feature_name", VStr (field featureSelect p));
        ("base", base_input p);
        ("min_value", VNum (Number.parseFloat (field "min_value" p)));
        ("max_value", VNum (Number.parseFloat (field "max_value" p)));
        ("num_points", VNum (Number.parseInt (field "num_points" p)))].

Definition hide (id : string) : Page → Page := with_element id (add_token "hidden").
Definition reveal (id : string) : Page → Page := with_element id (remove_token "hidden").
Definition write (id text : string) : Page → Page := with_element id (set_text text).

(** The page after the [catch] block. *)
Definition error_shown (e : JSError) (p : Page) : Page :=
  reveal errorBox (write errorBox (err_message e) p).

Definition predict_generic : string := "Error en la llamada a /predict_price".
Definition curve_generic : string := "Error en la llamada a /feature_curve".

(** What both [try] blocks do with the answer to their request before
    they use the parsed body: the body, or the error thrown. *)
Definition parsed_body (generic : string) (o : JSError + Response) : JSError + JSVal :=
  match o with
  | inl e => inl e
  | inr r =>
      if ok r then json r
      else match text r with
           | inl e => inl e
           | inr t => inl (Error (or_else t generic))
           end
  end.

(** The text the submit handler's [try] block displays, or the error it
    throws. *)
Definition predicted_text (o : JSError + Response) : JSError + string :=
  match parsed_body predict_generic o with
  | inl e => inl e
  | inr j =>
      match get_prop j "predicted_price_formatted" with
      | inl e => inl e
      | inr v =>
          match ToString v with
          | inl e => inl e
          | inr s => inr ("Precio estimado: " +:+ s)
          end
      end
  end.

(** The failures of a request, with the error each one throws: the request
    fails in transit, the status is not a success (the body read as text,
    or not readable), or the body of a success is not JSON. *)
Inductive failure (generic : string) : JSError + Response → JSError → Prop :=
| network_failure e :
    failure generic (inl e) e
| bad_status r t :
    ok r = false → text r = inr t →
    failure generic (inr r) (Error (or_else t generic))
| unreadable_body r e :
    ok r = false → text r = inl e →
    failure generic (inr r) e
| malformed_json r e :
    ok r = true → json r = inl e →
    failure generic (inr r) e.

(** A parsed body has no usable property [name]. *)
Definition lacks (j : JSVal) (name : string) : Prop :=
  ∀ v, get_prop j name = inr v → v = VUndefined.

(** A CurveResponse: feature name [f], x-values [xs], prices [ps]. *)
Definition is_CurveResponse (j : JSVal) (f : string) (xs ps : list float) : Prop :=
  get_prop j "feature_name" = inr (VStr f) ∧
  get_prop j "x_values" = inr (VArr (VNum <$> xs)) ∧
  get_prop j "prices" = inr (VArr (VNum <$> ps)).

(** The specification's words, [exactly two decimal places]: an optional
    minus sign, one digit or more, a point, two digits. *)
Definition two_decimal_places (s : string) : bool :=
  let unsigned := match s with
                  | String "-" r => r
                  | _ => s
                  end in
  let '(n, _, rest) := Number.digits unsigned 0 0 in
  match n, rest with
  | S _, String "." (String a (String b "")) => Number.is_digit a && Number.is_digit b
  | _, _ => false
  end.

(** A finite double of magnitude below [10^21]. *)
Definition below_1e21 (x : float) : bool :=
  match Prim2SF x with
  | S754_zero _ => true
  | S754_finite _ m e => negb (Number.at_least_1e21 m e)
  | _ => false
  end.

(** A run of decimal digits. *)
Fixpoint digits_only (s : string) : bool :=
  match s with
  | EmptyString => true
  | String c r => Number.is_digit c && digits_only r
  end.

(** The value of a run of digits read after [acc]. *)
Fixpoint read_value (s : string) (acc : Z) : Z :=
  match s with
  | EmptyString => acc
  | String c r => read_value r (10 * acc + Number.digit_value c)
  end.

Definition unsigned_part (s : string) : string :=
  match s with
  | String "-" r => r
  | _ => s
  end.

Definition has_minus (s : string) : bool :=
  match s with
  | String "-" _ => true
  | _ => false
  end.

(** [n] is the integer nearest to [100 * m * 2^e], the larger one when two
    are as near. *)
Definition nearest_hundredths (m : positive) (e n : Z) : Prop :=
  if 0 <=? e then n = 100 * Zpos m * 2 ^ e
  else (2 * n - 1) * 2 ^ (- e) ≤ 200 * Zpos m < (2 * n + 1) * 2 ^ (- e).

(** The specification's words, [x formatted to exactly two decimal
    places]: [s] is a numeral with two decimal places that carries the sign
    of [x] and reads, as a decimal literal, as the hundredths nearest to
    [x]. *)
Definition formatted_to_two_decimals (x : float) (s : string) : Prop :=
  two_decimal_places s = true ∧
  match Prim2SF x with
  | S754_zero _ => s = "0.00"
  | S754_finite neg m e =>
      has_minus s = neg ∧
      ∃ n, nearest_hundredths m e n ∧
           Number.unsigned_decimal (unsigned_part s) = Some (n, -2, "")
  | _ => False
  end.

(** The specification's words, [blank or non-numeric], made precise: the
    text, leading white space apart, does not start with a number, which is
    an optional sign followed by a digit, by a point and a digit, or by
    [Infinity]. *)
Definition starts_with_number (s : string) : bool :=
  let t := Number.trim_start s in
  let u := match t with
           | String "+" r | String "-" r => r
           | _ => t
           end in
  match u with
  | String c r =>
      Number.is_digit c
      || (Ascii.eqb c "." && match r with
                             | String d _ => Number.is_digit d
                             | EmptyString => false
                             end)
      || starts_with "Infinity" u
  | EmptyString => false
  end.

(** The specification's words, [forwarded as-is]: the request body with
    every collected number written the way a number is written. *)
Definition forwarded_as_is (fields : list (string * float)) : string :=
  "{" +:+ join "," (List.map (λ kx, QuoteJSONString (fst kx) +:+ ":" +:+
                                    Number.toString (snd kx)) fields) +:+ "}".

(** What [JSON.stringify] writes for a number. *)
Definition json_number (x : float) : string :=
  if is_finite x then Number.toString x else "null".

(** The chart discipline: at no moment of the history were two instances
    live, and an instance that is live is the one in the slot.  (The slot
    may hold an instance that has been destroyed: [renderChart] stores the
    new instance last, and can throw between the two.) *)
Definition at_most_one_live (history : list ChartEvent) : Prop :=
  ∀ n, (length (live (take n history) []) ≤ 1)%nat.

Definition chart_discipline (p : Page) : Prop :=
  (live_charts p = [] ∨ live_charts p = option_list (priceChart p)) ∧
  at_most_one_live (charts p).

(** *** A rely-guarantee reading of programs

    [wp O I m p Q E]: started on page [p], the program [m] ends with a
    value [a] on a page [p'] with [Q a p'], or throws [e] on a page with
    [E e p']; whenever it is suspended it leaves a page satisfying [I], and
    it may assume [I] of the page it finds when it resumes, and [O] of the
    answer to its request. *)
Fixpoint wp {A : Type} (O : JSError + Response → Prop) (I : Page → Prop)
  (m : prog A) (p : Page)
  (Q : A → Page → Prop) (E : JSError → Page → Prop) : Prop :=
  match m with
  | Ret a => Q a p
  | Throw e => E e p
  | Get k => wp O I (k p) p Q E
  | Put p' k => wp O I k p' Q E
  | Fetch _ k => I p ∧ ∀ o p', O o → I p' → wp O I (k o) p' Q E
  | Yield k => I p ∧ ∀ p', I p' → wp O I k p' Q E
  end.

(** A suspended run keeps [I] from wherever it resumes. *)
Definition task_keeps (O : JSError + Response → Prop) (I : Page → Prop)
  (w : waiting unit) : Prop :=
  match w with
  | OnFetch _ k => ∀ o p, O o → I p → wp O I (k o) p (λ _, I) (λ _, I)
  | OnYield k => ∀ p, I p → wp O I k p (λ _, I) (λ _, I)
  end.

Definition world_keeps (O : JSError + Response → Prop) (I : Page → Prop)
  (w : World) : Prop :=
  I (page w) ∧ Forall (task_keeps O I) (tasks w).

(** The events of which [O] holds: a request settles with an answer that
    [O] allows. *)
Definition answers (O : JSError + Response → Prop) (ev : Event) : Prop :=
  match ev with
  | Settle _ o => O o
  | _ => True
  end.

(** *** What the renderer does, as functions of the parsed body *)

Definition chart_config (labels : list string) (data : list float)
  (label : string) (feature_name : JSVal) : ChartConfig :=
  {| chart_type := "line";
     labels := labels;
     dataset_label := "Precio (miles de $) vs " +:+ label;
     data := data;
     fill := false;
     tension := 0.2%float;
     responsive := true;
     interaction_mode := "index";
     interaction_intersect := false;
     x_title_display := true;
     x_title_text := feature_name;
     y_title_display := true;
     y_title_text := "Precio estimado (miles de $)" |}.

(** The labels and the data series, or the error their computation
    throws. *)
Definition chart_series (j : JSVal) : JSError + (list string * list float) :=
  match get_prop j "x_values" with
  | inl e => inl e
  | inr xv =>
      match call_map "curveData.x_values.map" (call_toFixed 2) xv with
      | inl e => inl e
      | inr labels =>
          match get_prop j "prices" with
          | inl e => inl e
          | inr pv =>
              match call_map "curveData.prices.map" divide_by_1000 pv with
              | inl e => inl e
              | inr data => inr (labels, data)
              end
          end
      end
  end.

Definition feature_of (j : JSVal) : JSVal :=
  match get_prop j "feature_name" with
  | inr v => v
  | inl _ => VUndefined
  end.

Definition destroy_old (p : Page) : Page :=
  match priceChart p with
  | Some c => with_chart_event (Destroyed c) p
  | None => p
  end.

Definition chart_drawn (config : ChartConfig) (p : Page) : Page :=
  let p1 := destroy_old p in
  let c := length (charts p1) in
  with_priceChart (Some c) (with_chart_event (Constructed c config) p1).

(** The page [renderChart] leaves, and the error it throws when it
    throws: the page is then as it was, unless it is the label that cannot
    be built, when the old chart has been destroyed. *)
Definition rendered (j : JSVal) (p : Page) : Page * (JSError + unit) :=
  match document p !! "priceChart" with
  | None => (p, inl (cannot_read "null" "getContext"))
  | Some _ =>
      match chart_series j with
      | inl e => (p, inl e)
      | inr (labels, data) =>
          match ToString (feature_of j) with
          | inl e => (destroy_old p, inl e)
          | inr label =>
              (chart_drawn (chart_config labels data label (feature_of j)) p, inr tt)
          end
      end
  end.

(** *** An example page and example responses *)

Definition example_document : gmap string Element :=
  list_to_map
    [(form, mkElement "" "" []);
     (resultBox, mkElement "" "" ["result"; "hidden"]);
     (predictedPrice, mkElement "" "" []);
     (errorBox, mkElement "" "" ["error"; "hidden"]);
     (featureSelect, mkElement "med_inc" "" []);
     (btnCurve, mkElement "" "" []);
     ("med_inc", mkElement "8.3252" "" []);
     ("house_age", mkElement "41" "" []);
     ("ave_rooms", mkElement "6.98" "" []);
     ("ave_bedrooms", mkElement "1.02" "" []);
     ("population", mkElement "322" "" []);
     ("ave_occup", mkElement "2.55" "" []);
     ("latitude", mkElement "37.88" "" []);
     ("longitude", mkElement "-122.23" "" []);
     ("min_value", mkElement "1" "" []);
     ("max_value", mkElement "10" "" []);
     ("num_points", mkElement "20" "" []);
     ("priceChart", mkElement "" "" [])].

Definition example_page : Page := mkPage example_document None [].

(** A 400 whose body is the text [bad input]. *)
Definition bad_input : Response :=
  mkResponse 400 (inr "bad input")
             (inl (mkError "SyntaxError" "Unexpected token b in JSON")).

(** A 200 whose body parses to [{predicted_price_formatted: "$250,000"}]. *)
Definition price_250k : Response :=
  mkResponse 200 (inr "")
             (inr (VObj [("predicted_price_formatted", VStr "$250,000")])).

(** A 200 whose body parses to the empty object. *)
Definition empty_object : Response := mkResponse 200 (inr "{}") (inr (VObj [])).

(** A 200 whose body parses to the curve of the specification's example. *)
Definition example_curve : JSVal :=
  VObj [("feature_name", VStr "med_inc");
        ("x_values", VArr [VNum 1; VNum 2]);
        ("prices", VArr [VNum 100000; VNum 200000])].

Definition curve_200 (j : JSVal) : Response := mkResponse 200 (inr "") (inr j).

Definition failed_to_fetch : JSError := TypeError "Failed to fetch".

(** A JSON text written with apostrophes for its double quotes. *)
Fixpoint json_text (s : string) : string :=
  match s with
  | EmptyString => ""
  | String c r => String (if Ascii.eqb c "'" then dquote else c) (json_text r)
  end.

(** The example page with the field [med_inc] left blank. *)
Definition blank_med_inc : Page := with_element "med_inc" (set_value "") example_page.

(** What [JSON.stringify] writes for the member [id] of a BaseInput, and
    for a BaseInput. *)
Definition base_member (p : Page) (id : string) : string :=
  QuoteJSONString id +:+ ":" +:+ json_number (Number.parseFloat (field id p)).

Definition base_json (p : Page) : string :=
  "{" +:+ join "," (List.map (base_member p) base_fields) +:+ "}".

(** The JSON text of a CurveRequest: five members, in this order. *)
Definition curve_json (p : Page) : string :=
  "{" +:+ join ","
    [QuoteJSONString "feature_name" +:+ ":" +:+ QuoteJSONString (field featureSelect p);
     QuoteJSONString "base" +:+ ":" +:+ base_json p;
     QuoteJSONString "min_value" +:+ ":" +:+
       json_number (Number.parseFloat (field "min_value" p));
     QuoteJSONString "max_value" +:+ ":" +:+
       json_number (Number.parseFloat (field "max_value" p));
     QuoteJSONString "num_points" +:+ ":" +:+
       json_number (Number.parseInt (field "num_points" p))]
  +:+ "}".

(** *** The vocabulary of the remaining properties *)

(** The elements without which the submit handler sends no request. *)
Definition submit_needs : list string := [errorBox; resultBox] ++ base_fields.

(** The values that [ToString] and [ToNumber] convert: every value of a
    JSON text but an object with a property named [toString] (it shadows
    the method the conversion calls, and the conversion is then a
    TypeError), and an array that holds such an object. *)
Fixpoint converts (v : JSVal) : bool :=
  match v with
  | VArr items => forallb converts items
  | VObj props => match assoc "toString" props with
                  | Some _ => false
                  | None => true
                  end
  | _ => true
  end.

(** A parsed curve whose feature name and prices convert. *)
Definition curve_converts (j : JSVal) : bool :=
  converts (feature_of j) &&
  match get_prop j "prices" with
  | inr prices => converts prices
  | inl _ => true
  end.

(** A settled response whose curve, when its body parses, converts. *)
Definition settles_converting (ev : Event) : bool :=
  match ev with
  | Settle _ (inr r) =>
      match json r with
      | inr j => curve_converts j
      | inl _ => true
      end
  | _ => true
  end.

(** What a turn of a handler may do to the element [id], [a] before and
    [b] after: the value is never written; of the class tokens only
    [hidden] comes and goes, and only on the error and result regions; the
    text changes only on the error region and the price. *)
Definition written_by_script (id : string) (a b : Element) : Prop :=
  value b = value a ∧
  filter (λ t, t ≠ "hidden") (classList b) = filter (λ t, t ≠ "hidden") (classList a) ∧
  (id ∉ [errorBox; resultBox] → classList b = classList a) ∧
  (id ∉ [errorBox; predictedPrice] → textContent b = textContent a).

Definition only_outputs_written (p p' : Page) : Prop :=
  ∀ id, match document p !! id, document p' !! id with
        | Some a, Some b => written_by_script id a b
        | None, None => True
        | _, _ => False
        end.

(** The element updates found in the script. *)
Inductive script_write : string → (Element → Element) → Prop :=
| write_hidden id :
    id ∈ [errorBox; resultBox] → script_write id (add_token "hidden")
| write_revealed id :
    id ∈ [errorBox; resultBox] → script_write id (remove_token "hidden")
| write_text id text :
    id ∈ [errorBox; predictedPrice] → script_write id (set_text text).

(** [turns R m p0 p Q E]: in a turn that found the page [p0] and has made
    it [p], the program [m] goes on so that this turn and every later turn
    of the run relate, by [R], the page the turn finds to the page it
    leaves; the run ends with [Q] or throws with [E] of the last turn's two
    pages. *)
Fixpoint turns {A : Type} (R : Page → Page → Prop) (m : prog A) (p0 p : Page)
  (Q : A → Page → Page → Prop) (E : JSError → Page → Page → Prop) : Prop :=
  match m with
  | Ret a => Q a p0 p
  | Throw e => E e p0 p
  | Get k => turns R (k p) p0 p Q E
  | Put p' k => turns R k p0 p' Q E
  | Fetch _ k => R p0 p ∧ ∀ o p', turns R (k o) p' p' Q E
  | Yield k => R p0 p ∧ ∀ p', turns R k p' p' Q E
  end.

Definition task_turns (R : Page → Page → Prop) (w : waiting unit) : Prop :=
  match w with
  | OnFetch _ k => ∀ o p, turns R (k o) p p (λ _, R) (λ _, R)
  | OnYield k => ∀ p, turns R k p p (λ _, R) (λ _, R)
  end.

(** A program that has no [fetch] left, whatever pages it finds. *)
Fixpoint sends_nothing {A : Type} (m : prog A) : Prop :=
  match m with
  | Ret _ | Throw _ => True
  | Get k => ∀ p, sends_nothing (k p)
  | Put _ k => sends_nothing k
  | Fetch _ _ => False
  | Yield k => sends_nothing k
  end.

(** The numbers that the values [items] convert to, one for one. *)
Definition numbers_of (items : list JSVal) (nums : list float) : Prop :=
  Forall2 (λ v x, ToNumber v = inr x) items nums.

(** A string that does not go on with a decimal digit. *)
Definition no_leading_digit (s : string) : bool :=
  match s with
  | String c _ => negb (Number.is_digit c)
  | EmptyString => true
  end.

(** A string that does not go on with a part of a decimal literal: a
    digit, a point or an exponent mark. *)
Definition no_number_part (s : string) : bool :=
  match s with
  | String c _ =>
      negb (Number.is_digit c || Ascii.eqb c "." || Ascii.eqb c "e" || Ascii.eqb c "E")
  | EmptyString => true
  end.

(** A numeral without a leading zero: the first character is a digit
    other than [0]. *)
Definition leading_nonzero (s : string) : Prop :=
  match s with
  | String c _ => Number.digit_value c ≠ 0
  | EmptyString => False
  end.

(** The curve button clicked three times: the first curve arrives, the
    second request fails in transit, the third answers without prices. *)
Definition curve_then_failures : list Event :=
  [ClickCurve; Settle 0 (inr (curve_200 example_curve)); Resume 0;
   ClickCurve; Settle 0 (inl failed_to_fetch);
   ClickCurve; Settle 0 (inr (curve_200 (VObj [("x_values", VArr [VNum 1])])));
   Resume 0].

(** A curve whose prices are a numeric string, a number and [null]. *)
Definition curve_of_strings : JSVal :=
  VObj [("feature_name", VStr "med_inc");
        ("x_values", VArr [VNum 1; VNum 2.5]);
        ("prices", VArr [VStr "100000"; VNum 200000; VNull])].

(** An object that has a property named [toString], and a curve whose
    feature name is that object. *)
Definition shadowed : JSVal := VObj [("toString", VNum 1)].

Definition curve_of_shadowed : JSVal :=
  VObj [("feature_name", shadowed);
        ("x_values", VArr [VNum 1; VNum 2]);
        ("prices", VArr [VNum 100000; VNum 200000])].



(** * Part III: properties *)

(** ** Programs *)

Lemma exec_bind {A B} net (m : prog A) (f : A → prog B) p :
  exec net (m ≫= f) p =
  match exec net m p with
  | (p', inr a) => exec net (f a) p'
  | (p', inl e) => (p', inl e)
  end.
Proof.
  unfold mbind, prog_bind. revert p.
  induction m as [a|e|k IH|p' k IH|req k IH|k IH]; intros p; simpl; auto.
Qed.

Lemma exec_fmap {A B} net (f : A → B) (m : prog A) p :
  exec net (f <$> m) p =
  match exec net m p with
  | (p', inr a) => (p', inr (f a))
  | (p', inl e) => (p', inl e)
  end.
Proof.
  unfold fmap, prog_fmap. revert p.
  induction m as [a|e|k IH|p' k IH|req k IH|k IH]; intros p; simpl; auto.
Qed.

Lemma exec_try_catch {A} net (m : prog A) h p :
  exec net (try_catch m h) p =
  match exec net m p with
  | (p', inr a) => (p', inr a)
  | (p', inl e) => exec net (h e) p'
  end.
Proof.
  revert p.
  induction m as [a|e|k IH|p' k IH|req k IH|k IH]; intros p; simpl; auto.
Qed.

Lemma exec_lift {A} net (r : JSError + A) p : exec net (lift r) p = (p, r).
Proof. by destruct r. Qed.

Lemma exec_fetch net req p : exec net (fetch req) p = (p, net req).
Proof. simpl. apply exec_lift. Qed.

Lemma run_bind {A B} (m : prog A) (f : A → prog B) p :
  run (m ≫= f) p =
  match run m p with
  | (p', Finished a) => run (f a) p'
  | (p', Rejected e) => (p', Rejected e)
  | (p', Suspended (OnFetch req k)) => (p', Suspended (OnFetch req (λ o, k o ≫= f)))
  | (p', Suspended (OnYield k)) => (p', Suspended (OnYield (k ≫= f)))
  end.
Proof.
  unfold mbind, prog_bind. revert p.
  induction m as [a|e|k IH|p' k IH|req k IH|k IH]; intros p; simpl; auto.
Qed.

Lemma run_fmap {A B} (f : A → B) (m : prog A) p :
  run (f <$> m) p =
  match run m p with
  | (p', Finished a) => (p', Finished (f a))
  | (p', Rejected e) => (p', Rejected e)
  | (p', Suspended (OnFetch req k)) => (p', Suspended (OnFetch req (λ o, f <$> k o)))
  | (p', Suspended (OnYield k)) => (p', Suspended (OnYield (f <$> k)))
  end.
Proof.
  unfold fmap, prog_fmap. revert p.
  induction m as [a|e|k IH|p' k IH|req k IH|k IH]; intros p; simpl; auto.
Qed.

Lemma run_lift {A} (r : JSError + A) p :
  run (lift r) p = (p, match r with inl e => Rejected e | inr a => Finished a end).
Proof. by destruct r. Qed.

Lemma exec_of_run {A} net (m : prog A) p :
  exec net m p =
  match run m p with
  | (p', Finished a) => (p', inr a)
  | (p', Rejected e) => (p', inl e)
  | (p', Suspended (OnFetch req k)) => exec net (k (net req)) p'
  | (p', Suspended (OnYield k)) => exec net k p'
  end.
Proof.
  revert p.
  induction m as [a|e|k IH|p' k IH|req k IH|k IH]; intros p; simpl; auto.
Qed.

(** ** Conversions *)

Lemma JSVal_array_ind (P : JSVal → Prop) :
  P VUndefined → P VNull → (∀ b, P (VBool b)) → (∀ x, P (VNum x)) →
  (∀ s, P (VStr s)) → (∀ items, Forall P items → P (VArr items)) →
  (∀ props, P (VObj props)) → ∀ v, P v.
Proof.
  intros Hu Hn Hb Hx Hs Ha Ho. fix IH 1.
  intros [| |b|x|s|items|props];
    [exact Hu | exact Hn | apply Hb | apply Hx | apply Hs | | apply Ho].
  apply Ha. induction items as [|i items IHl]; constructor; [apply IH | exact IHl].
Qed.

Lemma ToString_array items :
  ToString (VArr items) =
  match map_items element_string items with
  | inl e => inl e
  | inr parts => inr (join "," parts)
  end.
Proof.
  cbn [ToString].
  match goal with
  | |- match ?each items with _ => _ end = _ =>
      assert (each items = map_items element_string items) as ->; [| done]
  end.
  induction items as [|i items IH]; [done |].
  cbn [map_items]. rewrite <- IH. unfold element_string. by destruct i.
Qed.

(** [ToString] fails on the values that do not convert, and on no other;
    its error is then the TypeError of the conversion. *)
Lemma ToString_cases v :
  match ToString v with
  | inr _ => converts v = true
  | inl e => converts v = false ∧ e = cannot_convert
  end.
Proof.
  induction v as [| |b|x|s|items IH|props] using JSVal_array_ind; try done.
  - rewrite ToString_array. cbn [converts].
    induction IH as [|i items Hi _ IH]; [done |].
    cbn [map_items forallb].
    assert (match element_string i with
            | inr _ => converts i = true
            | inl e => converts i = false ∧ e = cannot_convert
            end) as Hi'.
    { unfold element_string. by destruct i. }
    destruct (element_string i) as [e|s].
    + destruct Hi' as [-> ->]. done.
    + rewrite Hi'. simpl. destruct (map_items element_string items) as [e|parts]; done.
  - simpl. by destruct (assoc "toString" props).
Qed.

Lemma ToNumber_cases v :
  match ToNumber v with
  | inr _ => converts v = true
  | inl e => converts v = false ∧ e = cannot_convert
  end.
Proof.
  pose proof (ToString_cases v) as H.
  destruct v; try done; unfold ToNumber; by destruct (ToString _).
Qed.

Lemma ToString_converts v : converts v = true → ∃ s, ToString v = inr s.
Proof.
  intros Hv. pose proof (ToString_cases v) as H.
  destruct (ToString v) as [e|s]; [| by exists s]. destruct H. congruence.
Qed.

Lemma divide_by_1000_TypeError v e : divide_by_1000 v = inl e → err_name e = "TypeError".
Proof.
  unfold divide_by_1000. pose proof (ToNumber_cases v) as H.
  destruct (ToNumber v) as [e'|x]; [| done]. intros [= <-]. by destruct H as [_ ->].
Qed.

(** ** The page *)

Lemma lookup_with_element id id' f p :
  document (with_element id f p) !! id' =
  if decide (id = id') then f <$> document p !! id else document p !! id'.
Proof. apply lookup_alter. Qed.

Lemma present_with_element id id' f p :
  present id' (with_element id f p) ↔ present id' p.
Proof.
  unfold present. rewrite lookup_with_element.
  case_decide; subst; [apply fmap_is_Some | done].
Qed.

Lemma all_present_with_element ids id f p :
  all_present ids (with_element id f p) ↔ all_present ids p.
Proof.
  unfold all_present. rewrite !Forall_forall.
  split; intros H x Hx; specialize (H x Hx);
    by apply (present_with_element id x f p).
Qed.

Lemma all_present_elem ids id p : all_present ids p → id ∈ ids → present id p.
Proof. intros H Hin. unfold all_present in H. rewrite Forall_forall in H. auto. Qed.

Lemma field_with_element id id' f p :
  (∀ el, value (f el) = value el) →
  field id' (with_element id f p) = field id' p.
Proof.
  intros Hf. unfold field. rewrite lookup_with_element.
  case_decide; subst; [| done]. by destruct (document p !! id') as [el|]; simpl.
Qed.

Lemma base_input_with_element id f p :
  (∀ el, value (f el) = value el) →
  base_input (with_element id f p) = base_input p.
Proof.
  intros Hf. unfold base_input. f_equal.
  apply map_ext. intros a. by rewrite field_with_element.
Qed.

Lemma is_visible_hide id p : is_visible id (hide id p) = false.
Proof.
  unfold is_visible, hide. rewrite lookup_with_element.
  case_decide; [| done]. destruct (document p !! id) as [el|]; simpl; [| done].
  apply bool_decide_eq_false. intros Hn. apply Hn.
  case_decide; [done |]. apply elem_of_app. right. by apply list_elem_of_singleton.
Qed.

Lemma is_visible_reveal id p : present id p → is_visible id (reveal id p) = true.
Proof.
  intros [el Hel]. unfold is_visible, reveal. rewrite lookup_with_element.
  case_decide; [| done]. rewrite Hel. simpl.
  apply bool_decide_eq_true. intros Hin.
  apply list_elem_of_filter in Hin. by destruct Hin.
Qed.

Lemma is_visible_other id id' f p :
  id ≠ id' → is_visible id' (with_element id f p) = is_visible id' p.
Proof.
  intros Hne. unfold is_visible. rewrite lookup_with_element. by case_decide.
Qed.

Lemma is_visible_write id id' text p :
  is_visible id' (write id text p) = is_visible id' p.
Proof.
  unfold is_visible, write. rewrite lookup_with_element.
  case_decide; subst; [| done]. by destruct (document p !! id').
Qed.

Lemma text_of_write id text p : present id p → text_of id (write id text p) = Some text.
Proof.
  intros [el Hel]. unfold text_of, write. rewrite lookup_with_element.
  case_decide; [| done]. by rewrite Hel.
Qed.

Lemma text_of_other id id' f p :
  id ≠ id' → text_of id' (with_element id f p) = text_of id' p.
Proof.
  intros Hne. unfold text_of. rewrite lookup_with_element. by case_decide.
Qed.

Lemma text_of_tokens id id' f p :
  (∀ el, textContent (f el) = textContent el) →
  text_of id' (with_element id f p) = text_of id' p.
Proof.
  intros Hf. unfold text_of. rewrite lookup_with_element.
  case_decide; subst; [| done]. by destruct (document p !! id') as [el|]; simpl; rewrite ?Hf.
Qed.

(** ** The steps of the script on the page *)

Lemma run_on_element id prop f p :
  present id p → run (on_element id prop f) p = (with_element id f p, Finished tt).
Proof. intros [el Hel]. simpl. by rewrite Hel. Qed.

Lemma run_set_textContent id text p :
  present id p → run (set_textContent id text) p = (write id text p, Finished tt).
Proof. intros [el Hel]. simpl. by rewrite Hel. Qed.

Lemma run_value_of id p :
  present id p → run (value_of id) p = (p, Finished (field id p)).
Proof. intros [el Hel]. unfold field. simpl. by rewrite Hel. Qed.

Lemma run_getBaseInput p :
  all_present base_fields p → run getBaseInput p = (p, Finished (base_input p)).
Proof.
  intros H. unfold getBaseInput.
  repeat (rewrite run_bind, run_fmap, run_value_of
            by (apply (all_present_elem _ _ _ H); set_solver)).
  reflexivity.
Qed.

Lemma run_show_error e p :
  present errorBox p → run (show_error e) p = (error_shown e p, Finished tt).
Proof.
  intros H. unfold show_error.
  rewrite run_bind, run_set_textContent by done.
  unfold classList_remove. rewrite run_on_element; [done |].
  by apply present_with_element.
Qed.

Lemma exec_on_element net id prop f p :
  present id p → exec net (on_element id prop f) p = (with_element id f p, inr tt).
Proof. intros H. by rewrite exec_of_run, run_on_element. Qed.

Lemma exec_set_textContent net id text p :
  present id p → exec net (set_textContent id text) p = (write id text p, inr tt).
Proof. intros H. by rewrite exec_of_run, run_set_textContent. Qed.

Lemma exec_value_of net id p :
  present id p → exec net (value_of id) p = (p, inr (field id p)).
Proof. intros H. by rewrite exec_of_run, run_value_of. Qed.

Lemma exec_getBaseInput net p :
  all_present base_fields p → exec net getBaseInput p = (p, inr (base_input p)).
Proof. intros H. by rewrite exec_of_run, run_getBaseInput. Qed.

Lemma exec_show_error net e p :
  present errorBox p → exec net (show_error e) p = (error_shown e p, inr tt).
Proof. intros H. by rewrite exec_of_run, run_show_error. Qed.

(** The status check and the parse, common to both [try] blocks. *)
Lemma exec_status_check {A} net generic (r : Response) (f : JSVal → prog A) p :
  exec net
    ((if negb (ok r) then
        text ← await (text r);
        Throw (Error (or_else text generic))
      else mret tt);;
     json ← await (json r);
     f json) p
  = match parsed_body generic (inr r) with
    | inl e => (p, inl e)
    | inr j => exec net (f j) p
    end.
Proof.
  rewrite exec_bind. simpl. destruct (ok r); simpl.
  - rewrite exec_bind. simpl. by destruct (json r).
  - rewrite exec_bind. simpl. by destruct (text r).
Qed.

Lemma all_present_submit p :
  all_present submit_elements p →
  present errorBox p ∧ present resultBox p ∧ present predictedPrice p ∧
  all_present base_fields p.
Proof.
  intros H. repeat split;
    try (apply (all_present_elem _ _ _ H); set_solver).
  unfold all_present, submit_elements in *. by apply Forall_app in H as [_ H].
Qed.

Lemma all_present_curve p :
  all_present curve_elements p →
  present errorBox p ∧ present featureSelect p ∧ present "min_value" p ∧
  present "max_value" p ∧ present "num_points" p ∧ all_present base_fields p.
Proof.
  intros H. repeat split;
    try (apply (all_present_elem _ _ _ H); set_solver).
  unfold all_present, curve_elements in *. by apply Forall_app in H as [_ H].
Qed.

Lemma value_add_token token el : value (add_token token el) = value el.
Proof. done. Qed.

(** The submit handler up to its request. *)
Lemma run_form_submit_handler p :
  all_present submit_elements p →
  ∃ k, run form_submit_handler p =
       (hide resultBox (hide errorBox p),
        Suspended (OnFetch (post_json "/predict_price" (base_input p)) k)).
Proof.
  intros (He & Hr & Hp & Hb)%all_present_submit. unfold form_submit_handler.
  unfold classList_add.
  rewrite run_bind, run_on_element by done.
  rewrite run_bind, run_on_element by (by apply present_with_element).
  rewrite run_bind, run_getBaseInput by (by do 2 apply all_present_with_element).
  rewrite !base_input_with_element by apply value_add_token.
  simpl. eauto.
Qed.

(** A whole run of the submit handler with nothing in between. *)
Lemma exec_form_submit_handler net p :
  all_present submit_elements p →
  exec net form_submit_handler p =
  (match predicted_text (net (post_json "/predict_price" (base_input p))) with
   | inr s => reveal resultBox (write predictedPrice s (hide resultBox (hide errorBox p)))
   | inl e => error_shown e (hide resultBox (hide errorBox p))
   end, inr tt).
Proof.
  intros (He & Hr & Hp & Hb)%all_present_submit. unfold form_submit_handler.
  unfold classList_add.
  rewrite exec_bind, exec_on_element by done.
  rewrite exec_bind, exec_on_element by (by apply present_with_element).
  rewrite exec_bind, exec_getBaseInput by (by do 2 apply all_present_with_element).
  rewrite !base_input_with_element by apply value_add_token.
  fold (hide errorBox p). fold (hide resultBox (hide errorBox p)).
  set (p0 := hide resultBox (hide errorBox p)).
  assert (present errorBox p0) as He0 by (by do 2 apply present_with_element).
  assert (present resultBox p0) as Hr0 by (by do 2 apply present_with_element).
  assert (present predictedPrice p0) as Hp0 by (by do 2 apply present_with_element).
  rewrite exec_try_catch, exec_bind, exec_fetch. unfold predicted_text.
  destruct (net _) as [e|r]; simpl parsed_body.
  { by rewrite exec_show_error. }
  rewrite (exec_status_check net predict_generic). simpl parsed_body.
  destruct (if ok r then _ else _) as [e|j]; [by rewrite exec_show_error |].
  rewrite exec_bind, exec_lift.
  destruct (get_prop j _) as [e|v]; [by rewrite exec_show_error |].
  rewrite exec_bind, exec_lift.
  destruct (ToString v) as [e|s]; [by rewrite exec_show_error |].
  rewrite exec_bind, exec_set_textContent by done.
  unfold classList_remove. rewrite exec_on_element; [done |].
  by apply present_with_element.
Qed.

(** ** The renderer *)

Lemma get_prop_feature j name v :
  get_prop j name = inr v → get_prop j "feature_name" = inr (feature_of j).
Proof. unfold feature_of. by destruct j. Qed.

Lemma run_renderChart j p :
  run (renderChart j) p =
  ((rendered j p).1, match (rendered j p).2 with
                     | inr _ => Finished tt
                     | inl e => Rejected e
                     end).
Proof.
  unfold renderChart, rendered, chart_series.
  rewrite run_bind.
  destruct (document p !! "priceChart") as [canvas|] eqn:Hc;
    [| by unfold getContext; simpl; rewrite Hc].
  replace (run (getContext "priceChart") p) with (p, Finished tt)
    by (by unfold getContext; simpl; rewrite Hc).
  rewrite run_bind, run_lift.
  destruct (get_prop j "x_values") as [e|xv] eqn:Hx; [done |].
  rewrite run_bind, run_lift.
  destruct (call_map _ (call_toFixed 2) xv) as [e|labels]; [done |].
  rewrite run_bind, run_lift.
  destruct (get_prop j "prices") as [e|pv]; [done |].
  rewrite run_bind, run_lift.
  destruct (call_map _ _ pv) as [e|data]; [done |].
  rewrite (get_prop_feature _ _ _ Hx).
  unfold chart_drawn, destroy_old. simpl.
  destruct (priceChart p) as [c|]; simpl; by destruct (ToString (feature_of j)).
Qed.

Lemma rendered_document j p : document (rendered j p).1 = document p.
Proof.
  unfold rendered. destruct (document p !! "priceChart") as [canvas|]; [| done].
  destruct (chart_series j) as [e|[labels data]]; [done |].
  unfold chart_drawn, destroy_old.
  destruct (ToString (feature_of j)); by destruct (priceChart p).
Qed.

(** ** The curve handler *)

(** The curve handler up to its request. *)
Lemma run_btnCurve_click_handler p :
  all_present curve_elements p →
  ∃ k, run btnCurve_click_handler p =
       (hide errorBox p,
        Suspended (OnFetch (post_json "/feature_curve" (curve_request p)) k)).
Proof.
  intros (He & Hf & Hmin & Hmax & Hn & Hb)%all_present_curve.
  unfold btnCurve_click_handler, classList_add.
  rewrite run_bind, run_on_element by done.
  rewrite run_bind, run_getBaseInput by (by apply all_present_with_element).
  do 3 (rewrite run_bind, run_fmap, run_value_of by (by apply present_with_element)).
  rewrite run_bind, run_value_of by (by apply present_with_element).
  rewrite base_input_with_element, !field_with_element by apply value_add_token.
  simpl. eauto.
Qed.

(** A whole run of the curve handler with nothing in between. *)
Lemma exec_btnCurve_click_handler net p :
  all_present curve_elements p →
  exec net btnCurve_click_handler p =
  (match parsed_body curve_generic
           (net (post_json "/feature_curve" (curve_request p))) with
   | inl e => error_shown e (hide errorBox p)
   | inr j =>
       match rendered j (hide errorBox p) with
       | (p', inl e) => error_shown e p'
       | (p', inr _) => p'
       end
   end, inr tt).
Proof.
  intros (He & Hf & Hmin & Hmax & Hn & Hb)%all_present_curve.
  unfold btnCurve_click_handler, classList_add.
  rewrite exec_bind, exec_on_element by done.
  rewrite exec_bind, exec_getBaseInput by (by apply all_present_with_element).
  do 3 (rewrite exec_bind, exec_fmap, exec_value_of by (by apply present_with_element)).
  rewrite exec_bind, exec_value_of by (by apply present_with_element).
  rewrite base_input_with_element, !field_with_element by apply value_add_token.
  fold (hide errorBox p). set (p0 := hide errorBox p).
  assert (present errorBox p0) as He0 by (by apply present_with_element).
  fold (curve_request p).
  rewrite exec_try_catch, exec_bind, exec_fetch.
  destruct (net _) as [e|r]; simpl parsed_body.
  { by rewrite exec_show_error. }
  rewrite (exec_status_check net curve_generic). simpl parsed_body.
  destruct (if ok r then _ else _) as [e|j]; [by rewrite exec_show_error |].
  rewrite exec_of_run, run_renderChart.
  pose proof (rendered_document j p0) as Hd.
  destruct (rendered j p0) as [p' [e|[]]]; cbn [fst snd] in *; [| done].
  rewrite exec_show_error; [done |]. unfold present. by rewrite Hd.
Qed.

Lemma run_try_catch {A} (m : prog A) h p :
  run (try_catch m h) p =
  match run m p with
  | (p', Finished a) => (p', Finished a)
  | (p', Rejected e) => run (h e) p'
  | (p', Suspended (OnFetch req k)) =>
      (p', Suspended (OnFetch req (λ o, try_catch (k o) h)))
  | (p', Suspended (OnYield k)) => (p', Suspended (OnYield (try_catch k h)))
  end.
Proof.
  revert p.
  induction m as [a|e|k IH|p' k IH|req k IH|k IH]; intros p; simpl; auto.
Qed.

(** The three turns of a submit that succeeds, each on the page it finds:
    the first hides both regions and sends the request; the second, when
    the response arrives, waits for the body; the third writes the price
    and reveals the result region, and touches nothing else. *)
Lemma submit_success_turns p r j v s :
  all_present submit_elements p →
  ok r = true → json r = inr j →
  get_prop j "predicted_price_formatted" = inr v →
  ToString v = inr s →
  ∃ k, run form_submit_handler p =
       (hide resultBox (hide errorBox p),
        Suspended (OnFetch (post_json "/predict_price" (base_input p)) k)) ∧
       ∀ p1, ∃ k', run (k (inr r)) p1 = (p1, Suspended (OnYield k')) ∧
         ∀ p2, present predictedPrice p2 → present resultBox p2 →
               run k' p2 =
               (reveal resultBox
                  (write predictedPrice ("Precio estimado: " +:+ s) p2),
                Finished tt).
Proof.
  intros (He & Hr & Hp & Hb)%all_present_submit Hok Hj Hv Hs.
  unfold form_submit_handler, classList_add.
  rewrite run_bind, run_on_element by done.
  rewrite run_bind, run_on_element by (by apply present_with_element).
  rewrite run_bind, run_getBaseInput by (by do 2 apply all_present_with_element).
  rewrite !base_input_with_element by apply value_add_token.
  rewrite run_try_catch, run_bind. simpl run at 1. cbv iota beta.
  eexists. split; [reflexivity |].
  intros p1. cbv beta. rewrite run_try_catch, run_bind, run_lift. cbv iota beta.
  rewrite run_bind, Hok. simpl negb. cbv iota. simpl run at 1. cbv iota beta.
  rewrite run_bind. simpl run at 1. cbv iota beta.
  eexists. split; [reflexivity |].
  intros p2 Hp2 Hr2. rewrite Hj.
  rewrite run_try_catch, run_bind, run_lift. cbv iota beta.
  rewrite run_bind, Hv, run_lift. cbv iota beta.
  rewrite run_bind, Hs, run_lift. cbv iota beta.
  rewrite run_bind, run_set_textContent by done. cbv iota beta.
  unfold classList_remove. rewrite run_on_element; [done |].
  by apply present_with_element.
Qed.

(** ** The two outcomes on the page *)

Lemma present_hidden id id' p : present id' (hide id p) ↔ present id' p.
Proof. apply present_with_element. Qed.

Lemma error_shown_visible e p :
  present errorBox p → is_visible errorBox (error_shown e p) = true.
Proof. intros H. apply is_visible_reveal. by apply present_with_element. Qed.

Lemma error_shown_text e p :
  present errorBox p → text_of errorBox (error_shown e p) = Some (err_message e).
Proof.
  intros H. unfold error_shown, reveal.
  rewrite text_of_tokens by done. by apply text_of_write.
Qed.


Lemma hidden_both_result p : is_visible resultBox (hide resultBox (hide errorBox p)) = false.
Proof. apply is_visible_hide. Qed.

Lemma hidden_both_error p : is_visible errorBox (hide resultBox (hide errorBox p)) = false.
Proof.
  unfold hide at 1. rewrite is_visible_other by done. apply is_visible_hide.
Qed.

(** After a failure of the submit handler: the error region shows the
    message, the result region is hidden. *)
Lemma submit_error_state e p :
  present errorBox p →
  let p' := error_shown e (hide resultBox (hide errorBox p)) in
  is_visible errorBox p' = true ∧ text_of errorBox p' = Some (err_message e) ∧
  is_visible resultBox p' = false ∧
  text_of predictedPrice p' = text_of predictedPrice p.
Proof.
  intros H p'. subst p'.
  assert (present errorBox (hide resultBox (hide errorBox p)))
    by (by do 2 apply present_hidden).
  split_and!.
  - by apply error_shown_visible.
  - by apply error_shown_text.
  - unfold error_shown, reveal. rewrite is_visible_other, is_visible_write by done.
    apply hidden_both_result.
  - unfold error_shown, reveal, write, hide. by rewrite !text_of_other.
Qed.

(** After a success of the submit handler: the result region shows the
    text, the error region is hidden. *)
Lemma submit_success_state s p :
  present resultBox p → present predictedPrice p →
  let p' := reveal resultBox (write predictedPrice s (hide resultBox (hide errorBox p))) in
  is_visible resultBox p' = true ∧ text_of predictedPrice p' = Some s ∧
  is_visible errorBox p' = false.
Proof.
  intros Hr Hp p'. subst p'. split_and!.
  - apply is_visible_reveal. apply present_with_element. by do 2 apply present_hidden.
  - unfold reveal. rewrite text_of_other by done.
    apply text_of_write. by do 2 apply present_hidden.
  - unfold reveal. rewrite is_visible_other, is_visible_write by done.
    apply hidden_both_error.
Qed.

Lemma failure_parsed_body generic o e :
  failure generic o e → parsed_body generic o = inl e.
Proof.
  intros [e'|r t Hok Ht|r e' Hok Ht|r e' Hok Hj]; simpl;
    rewrite ?Hok, ?Ht, ?Hj; done.
Qed.

Lemma chart_series_lacks j :
  lacks j "x_values" ∨ lacks j "prices" → ∃ e, chart_series j = inl e.
Proof.
  unfold chart_series, lacks. intros H.
  destruct (get_prop j "x_values") as [e|xv]; [by eexists |].
  destruct H as [H|H].
  { rewrite (H xv eq_refl). simpl. by eexists. }
  destruct (call_map _ _ xv) as [e|labels]; [by eexists |].
  destruct (get_prop j "prices") as [e|pv]; [by eexists |].
  rewrite (H pv eq_refl). simpl. by eexists.
Qed.

Lemma rendered_lacks j p :
  lacks j "x_values" ∨ lacks j "prices" → ∃ e, rendered j p = (p, inl e).
Proof.
  intros [e He]%chart_series_lacks. unfold rendered. rewrite He.
  destruct (document p !! "priceChart"); by eexists.
Qed.

(** ** C2: a non-success status shows the body text *)

(** C2. In both handlers, when the response has a non-success status and
    its body reads as the text [t], the error region ends visible and shows
    [t], or the handler's fixed message when [t] is empty. *)
Theorem C2_error_text_displayed net p r t :
  ok r = false → text r = inr t →
  (all_present submit_elements p →
   net (post_json "/predict_price" (base_input p)) = inr r →
   is_visible errorBox (exec net form_submit_handler p).1 = true ∧
   text_of errorBox (exec net form_submit_handler p).1
   = Some (if String.eqb t "" then predict_generic else t)) ∧
  (all_present curve_elements p →
   net (post_json "/feature_curve" (curve_request p)) = inr r →
   is_visible errorBox (exec net btnCurve_click_handler p).1 = true ∧
   text_of errorBox (exec net btnCurve_click_handler p).1
   = Some (if String.eqb t "" then curve_generic else t)).
Proof.
  intros Hok Ht. split; intros Hp Hnet.
  - rewrite exec_form_submit_handler by done.
    unfold predicted_text. rewrite Hnet. simpl. rewrite Hok, Ht.
    apply all_present_submit in Hp as (He & _).
    destruct (submit_error_state (Error (or_else t predict_generic)) p He)
      as (Hv & Htext & _).
    by split.
  - rewrite exec_btnCurve_click_handler by done.
    rewrite Hnet. simpl. rewrite Hok, Ht.
    apply all_present_curve in Hp as (He & _).
    split.
    + apply error_shown_visible. by apply present_hidden.
    + rewrite error_shown_text by (by apply present_hidden). done.
Qed.

(** The specification's example: a 400 with body [bad input]. *)
Lemma C2_bad_input_displayed :
  (is_visible errorBox (exec (λ _, inr bad_input) form_submit_handler example_page).1 = true ∧
   text_of errorBox (exec (λ _, inr bad_input) form_submit_handler example_page).1
   = Some "bad input") ∧
  (is_visible errorBox (exec (λ _, inr bad_input) btnCurve_click_handler example_page).1 = true ∧
   text_of errorBox (exec (λ _, inr bad_input) btnCurve_click_handler example_page).1
   = Some "bad input").
Proof.
  destruct (C2_error_text_displayed (λ _, inr bad_input) example_page bad_input
              "bad input" eq_refl eq_refl) as [Hs Hc].
  split.
  - apply Hs; [by apply (bool_decide_unpack _); vm_compute | reflexivity].
  - apply Hc; [by apply (bool_decide_unpack _); vm_compute | reflexivity].
Defined.

(** ** C5: a success shows the formatted price *)

(** C5. When the prediction request gets a success response whose body
    parses to a value with [predicted_price_formatted] equal to [v], and
    [v] has the string [s] (a string is its own string, and the
    specification types [predicted_price_formatted] as a string): after a
    run with nothing else in between, the result region is visible, the
    price element shows the fixed label followed by [s], and the error
    region is hidden.  Turn by turn, whatever page each turn finds: the
    turn that gets the response waits for the body, and the turn that gets
    the body writes the price and reveals the result region, and leaves the
    rest of the page, the error region with it, as it is. *)
Theorem C5_price_displayed p r j v s :
  all_present submit_elements p →
  ok r = true → json r = inr j →
  get_prop j "predicted_price_formatted" = inr v →
  ToString v = inr s →
  (∀ net, net (post_json "/predict_price" (base_input p)) = inr r →
          is_visible resultBox (exec net form_submit_handler p).1 = true ∧
          text_of predictedPrice (exec net form_submit_handler p).1
          = Some ("Precio estimado: " +:+ s) ∧
          is_visible errorBox (exec net form_submit_handler p).1 = false) ∧
  (∃ k, run form_submit_handler p =
        (hide resultBox (hide errorBox p),
         Suspended (OnFetch (post_json "/predict_price" (base_input p)) k)) ∧
        ∀ p1, ∃ k', run (k (inr r)) p1 = (p1, Suspended (OnYield k')) ∧
          ∀ p2, present predictedPrice p2 → present resultBox p2 →
                run k' p2 =
                (reveal resultBox
                   (write predictedPrice ("Precio estimado: " +:+ s) p2),
                 Finished tt)) ∧
  (∀ t, v = VStr t → s = t).
Proof.
  intros Hp Hok Hj Hv Hs. split_and!.
  - intros net Hnet. rewrite exec_form_submit_handler by done.
    unfold predicted_text. rewrite Hnet. simpl. rewrite Hok, Hj, Hv, Hs.
    apply all_present_submit in Hp as (_ & Hr & Hpp & _).
    by apply submit_success_state.
  - by apply (submit_success_turns p r j v s).
  - intros t ->. by injection Hs.
Qed.

(** The specification's example: [{predicted_price_formatted: "$250,000"}]. *)
Lemma C5_price_250k_displayed :
  is_visible resultBox (exec (λ _, inr price_250k) form_submit_handler example_page).1 = true ∧
  text_of predictedPrice (exec (λ _, inr price_250k) form_submit_handler example_page).1
  = Some "Precio estimado: $250,000" ∧
  is_visible errorBox (exec (λ _, inr price_250k) form_submit_handler example_page).1 = false.
Proof.
  destruct (C5_price_displayed example_page price_250k
              (VObj [("predicted_price_formatted", VStr "$250,000")])
              (VStr "$250,000") "$250,000") as (H & _).
  - by apply (bool_decide_unpack _); vm_compute.
  - reflexivity.
  - reflexivity.
  - reflexivity.
  - reflexivity.
  - by apply (H (λ _, inr price_250k)).
Defined.

(** ** C4: one region after a submit *)

(** C4, as stated, fails when two runs of the submit handler overlap: the
    form is submitted twice, the first request fails in transit and the
    second succeeds.  Both runs have ended, and the result region and the
    error region are both visible. *)
Lemma C4_overlapping_submits_show_both :
  match fire_all [SubmitForm; SubmitForm;
                  Settle 0 (inl failed_to_fetch);
                  Settle 0 (inr price_250k);
                  Resume 0] (loaded example_document) with
  | Some w =>
      tasks w = [] ∧
      is_visible resultBox (page w) = true ∧
      is_visible errorBox (page w) = true
  | None => False
  end.
Proof. vm_compute. done. Qed.

(** C4 (amended). After a run of the submit handler that no other handler
    run overlaps, exactly one of the result region and the error region is
    visible: the error region after a failure (in transit, a non-success
    status, a body that is not JSON), the result region after a success.
    A success is a body that parses to a value whose
    [predicted_price_formatted] can be written as a string; for one that
    cannot, the template literal throws and the error region is the one
    visible. *)
Theorem C4_exactly_one_region net p :
  all_present submit_elements p →
  (exec net form_submit_handler p).2 = inr tt ∧
  xorb (is_visible resultBox (exec net form_submit_handler p).1)
       (is_visible errorBox (exec net form_submit_handler p).1) = true ∧
  (∀ e, failure predict_generic (net (post_json "/predict_price" (base_input p))) e →
        is_visible errorBox (exec net form_submit_handler p).1 = true ∧
        is_visible resultBox (exec net form_submit_handler p).1 = false) ∧
  (∀ r j v, net (post_json "/predict_price" (base_input p)) = inr r →
            ok r = true → json r = inr j →
            get_prop j "predicted_price_formatted" = inr v →
            match ToString v with
            | inr _ =>
                is_visible resultBox (exec net form_submit_handler p).1 = true ∧
                is_visible errorBox (exec net form_submit_handler p).1 = false
            | inl _ =>
                is_visible errorBox (exec net form_submit_handler p).1 = true ∧
                is_visible resultBox (exec net form_submit_handler p).1 = false
            end).
Proof.
  intros Hp. rewrite exec_form_submit_handler by done.
  pose proof Hp as (He & Hr & Hpp & _)%all_present_submit.
  simpl fst. simpl snd. split_and!.
  - done.
  - destruct (predicted_text _) as [e|s].
    + destruct (submit_error_state e p He) as (-> & _ & -> & _). done.
    + destruct (submit_success_state s p Hr Hpp) as (-> & _ & ->). done.
  - intros e Hf. unfold predicted_text.
    rewrite (failure_parsed_body _ _ _ Hf).
    destruct (submit_error_state e p He) as (-> & _ & -> & _). done.
  - intros r j v Hnet Hok Hj Hv. unfold predicted_text.
    rewrite Hnet. simpl. rewrite Hok, Hj, Hv.
    destruct (ToString v) as [e|s].
    + destruct (submit_error_state e p He) as (-> & _ & -> & _). done.
    + destruct (submit_success_state ("Precio estimado: " +:+ s) p Hr Hpp)
        as (-> & _ & ->). done.
Qed.

Lemma C4_example_page_one_region :
  (is_visible errorBox (exec (λ _, inr bad_input) form_submit_handler example_page).1 = true ∧
   is_visible resultBox (exec (λ _, inr bad_input) form_submit_handler example_page).1 = false) ∧
  (is_visible resultBox (exec (λ _, inr price_250k) form_submit_handler example_page).1 = true ∧
   is_visible errorBox (exec (λ _, inr price_250k) form_submit_handler example_page).1 = false).
Proof.
  split.
  - destruct (C4_exactly_one_region (λ _, inr bad_input) example_page) as (_ & _ & H & _).
    + by apply (bool_decide_unpack _); vm_compute.
    + apply (H (Error "bad input")).
      by apply (bad_status predict_generic bad_input "bad input").
  - destruct (C4_exactly_one_region (λ _, inr price_250k) example_page) as (_ & _ & _ & H).
    + by apply (bool_decide_unpack _); vm_compute.
    + exact (H price_250k (VObj [("predicted_price_formatted", VStr "$250,000")])
               (VStr "$250,000") eq_refl eq_refl eq_refl eq_refl).
Defined.

(** ** C3: the failures that end in the error outcome *)




(** ** C9: the curve handler's error path leaves the rest of the page *)




(** ** C10: a curve without its series leaves the chart alone *)

(** C10. When the parsed curve has no [x_values] or no [prices], the
    renderer throws and leaves the page as it found it: the chart in the
    slot is neither destroyed nor replaced.  The curve handler catches the
    error and shows its message in the error region. *)
Theorem C10_missing_series_leaves_chart net p j :
  lacks j "x_values" ∨ lacks j "prices" →
  (∃ e, run (renderChart j) p = (p, Rejected e)) ∧
  (all_present curve_elements p →
   ∀ r, net (post_json "/feature_curve" (curve_request p)) = inr r →
        ok r = true → json r = inr j →
        ∃ e, run (renderChart j) (hide errorBox p) = (hide errorBox p, Rejected e) ∧
             is_visible errorBox (exec net btnCurve_click_handler p).1 = true ∧
             text_of errorBox (exec net btnCurve_click_handler p).1
             = Some (err_message e) ∧
             priceChart (exec net btnCurve_click_handler p).1 = priceChart p ∧
             charts (exec net btnCurve_click_handler p).1 = charts p).
Proof.
  intros Hl. split.
  - destruct (rendered_lacks j p Hl) as [e He].
    exists e. by rewrite run_renderChart, He.
  - intros Hp r Hnet Hok Hj.
    destruct (rendered_lacks j (hide errorBox p) Hl) as [e He].
    exists e. rewrite run_renderChart, He.
    rewrite exec_btnCurve_click_handler by done.
    rewrite Hnet. simpl parsed_body. rewrite Hok, Hj, He. simpl fst.
    apply all_present_curve in Hp as (Hpe & _).
    rewrite error_shown_visible, error_shown_text by (by apply present_hidden).
    done.
Qed.

(** A chart is on the page, then a curve without [prices] arrives: the
    chart stays, live and in the slot. *)
Lemma C10_chart_survives_bad_curve :
  priceChart
    (exec (λ _, inr (curve_200 (VObj [("x_values", VArr [VNum 1])])))
          btnCurve_click_handler
          (exec (λ _, inr (curve_200 example_curve)) btnCurve_click_handler example_page).1).1
  = Some 0%nat ∧
  live_charts
    (exec (λ _, inr (curve_200 (VObj [("x_values", VArr [VNum 1])])))
          btnCurve_click_handler
          (exec (λ _, inr (curve_200 example_curve)) btnCurve_click_handler example_page).1).1
  = [0%nat] ∧
  is_visible errorBox
    (exec (λ _, inr (curve_200 (VObj [("x_values", VArr [VNum 1])])))
          btnCurve_click_handler
          (exec (λ _, inr (curve_200 example_curve)) btnCurve_click_handler example_page).1).1
  = true.
Proof.
  destruct (C10_missing_series_leaves_chart
              (λ _, inr (curve_200 (VObj [("x_values", VArr [VNum 1])])))
              (exec (λ _, inr (curve_200 example_curve)) btnCurve_click_handler example_page).1
              (VObj [("x_values", VArr [VNum 1])])) as (_ & H).
  - right. intros v [= <-]. reflexivity.
  - destruct (H ltac:(by apply (bool_decide_unpack _); vm_compute)
                (curve_200 (VObj [("x_values", VArr [VNum 1])])) eq_refl eq_refl eq_refl)
      as (e & _ & Hv & _ & Hs & Hc).
    split_and!; [rewrite Hs; by vm_compute | | done].
    unfold live_charts. rewrite Hc. by vm_compute.
Defined.

(** ** The request bodies *)

Lemma stringify_base_input p : JSON_stringify (base_input p) = Some (base_json p).
Proof. reflexivity. Qed.

Lemma stringify_curve_request p : JSON_stringify (curve_request p) = Some (curve_json p).
Proof. reflexivity. Qed.

(** ** C8: the curve request *)

(** C8. A click on the curve button first hides the error region, then
    reads the eight base fields, the minimum and the maximum with
    [parseFloat], the number of points with [parseInt] in base 10 and the
    selected feature, and posts to [/feature_curve] the JSON text of
    [{feature_name, base, min_value, max_value, num_points}]; the run is
    then suspended on that request. *)
Theorem C8_curve_request_posted p :
  all_present curve_elements p →
  is_visible errorBox (hide errorBox p) = false ∧
  (∃ k, run btnCurve_click_handler p =
        (hide errorBox p,
         Suspended (OnFetch (post_json "/feature_curve" (curve_request p)) k))) ∧
  post_json "/feature_curve" (curve_request p)
  = mkRequest "/feature_curve" "POST" [("Content-Type", "application/json")]
              (Some (curve_json p)).
Proof.
  intros Hp. split_and!.
  - apply is_visible_hide.
  - by apply run_btnCurve_click_handler.
  - unfold post_json. by rewrite stringify_curve_request.
Qed.

Lemma C8_example_request :
  (∃ k, run btnCurve_click_handler example_page =
        (hide errorBox example_page,
         Suspended (OnFetch (post_json "/feature_curve" (curve_request example_page)) k))) ∧
  body (post_json "/feature_curve" (curve_request example_page))
  = Some (json_text "{'feature_name':'med_inc','base':{'med_inc':8.3252,'house_age':41,'ave_rooms':6.98,'ave_bedrooms':1.02,'population':322,'ave_occup':2.55,'latitude':37.88,'longitude':-122.23},'min_value':1,'max_value':10,'num_points':20}").
Proof.
  destruct (C8_curve_request_posted example_page) as (_ & Hrun & Hreq).
  - by apply (bool_decide_unpack _); vm_compute.
  - split; [exact Hrun |]. rewrite Hreq. by vm_compute.
Defined.

(** ** C6: a blank field *)

(** C6, as stated, fails in its last part: a field that does not parse is
    collected as NaN, and the request body does not carry NaN as it is; the
    body has [null] in that field's slot. *)
Lemma C6_blank_field_is_not_forwarded_as_is :
  match run form_submit_handler blank_med_inc with
  | (_, Suspended (OnFetch req _)) =>
      base_input blank_med_inc
      = VObj [("med_inc", VNum nan); ("house_age", VNum 41); ("ave_rooms", VNum 6.98);
              ("ave_bedrooms", VNum 1.02); ("population", VNum 322);
              ("ave_occup", VNum 2.55); ("latitude", VNum 37.88);
              ("longitude", VNum (-122.23))] ∧
      body req = Some (json_text "{'med_inc':null,'house_age':41,'ave_rooms':6.98,'ave_bedrooms':1.02,'population':322,'ave_occup':2.55,'latitude':37.88,'longitude':-122.23}") ∧
      forwarded_as_is [("med_inc", nan); ("house_age", 41); ("ave_rooms", 6.98);
                       ("ave_bedrooms", 1.02); ("population", 322);
                       ("ave_occup", 2.55); ("latitude", 37.88);
                       ("longitude", -122.23)]%float
      = json_text "{'med_inc':NaN,'house_age':41,'ave_rooms':6.98,'ave_bedrooms':1.02,'population':322,'ave_occup':2.55,'latitude':37.88,'longitude':-122.23}" ∧
      bool_decide (body req =
        Some (forwarded_as_is [("med_inc", nan); ("house_age", 41); ("ave_rooms", 6.98);
                               ("ave_bedrooms", 1.02); ("population", 322);
                               ("ave_occup", 2.55); ("latitude", 37.88);
                               ("longitude", -122.23)]%float)) = false
  | _ => False
  end.
Proof. vm_compute. done. Qed.

(** The sign apart, as [starts_with_number] takes it apart. *)
Lemma sign_prefix_rest t :
  (Number.sign_prefix t).2 = match t with
                             | String "+" r | String "-" r => r
                             | _ => t
                             end.
Proof. destruct t as [|[[] [] [] [] [] [] [] []] r]; done. Qed.

Lemma unsigned_decimal_no_number u :
  match u with
  | String c r =>
      Number.is_digit c
      || (Ascii.eqb c "." && match r with
                             | String d _ => Number.is_digit d
                             | EmptyString => false
                             end)
  | EmptyString => false
  end = false →
  Number.unsigned_decimal u = None.
Proof.
  destruct u as [|c r]; [done |].
  intros [Hc Hp]%orb_false_elim.
  unfold Number.unsigned_decimal. cbn [Number.digits]. rewrite Hc.
  destruct (Ascii.eqb_spec c ".") as [->|Hne].
  - simpl in Hp. destruct r as [|d r]; [done |]. cbn [Number.digits]. by rewrite Hp.
  - destruct c as [[] [] [] [] [] [] [] []]; done.
Qed.

(** A text that does not start with a number parses to NaN. *)
Lemma parseFloat_not_a_number s :
  starts_with_number s = false → Number.parseFloat s = nan.
Proof.
  unfold starts_with_number, Number.parseFloat.
  rewrite <- sign_prefix_rest.
  destruct (Number.sign_prefix (Number.trim_start s)) as [neg u]. simpl snd.
  intros H.
  assert (starts_with "Infinity" u = false ∧ Number.unsigned_decimal u = None) as [-> ->];
    [| done].
  destruct u as [|c r]; [done |].
  apply orb_false_elim in H as [H ->]. split; [done |].
  by apply unsigned_decimal_no_number.
Qed.

(** C6 (amended). Whatever the fields hold, the collector throws nothing
    and the submit handler posts to [/predict_price] the JSON text of the
    eight collected numbers; the run is then suspended on that request.  A
    field that is blank (empty, or white space only) or that does not start
    with a number is collected as NaN, and its slot of the body holds
    [null]. *)
Theorem C6_blank_field_posted_as_null p :
  all_present submit_elements p →
  run getBaseInput p = (p, Finished (base_input p)) ∧
  (∃ k, run form_submit_handler p =
        (hide resultBox (hide errorBox p),
         Suspended (OnFetch (mkRequest "/predict_price" "POST"
                                       [("Content-Type", "application/json")]
                                       (Some (base_json p))) k))) ∧
  (starts_with_number "" = false ∧ Number.parseFloat "" = nan) ∧
  (∀ id, id ∈ base_fields → starts_with_number (field id p) = false →
         Number.parseFloat (field id p) = nan ∧
         get_prop (base_input p) id = inr (VNum nan) ∧
         base_member p id = QuoteJSONString id +:+ ":null").
Proof.
  intros Hp. split_and!.
  - apply run_getBaseInput. by apply all_present_submit in Hp as (_ & _ & _ & Hb).
  - destruct (run_form_submit_handler p Hp) as [k Hk].
    exists k. rewrite Hk. unfold post_json. by rewrite stringify_base_input.
  - reflexivity.
  - reflexivity.
  - intros id Hin Hnan%parseFloat_not_a_number. unfold base_member. rewrite Hnan.
    split_and!; [done | | done].
    unfold base_fields in Hin.
    repeat (apply elem_of_cons in Hin as [-> | Hin];
            [simpl; by rewrite Hnan |]).
    by apply elem_of_nil in Hin.
Qed.

(** The example page with [med_inc] blank: the request is posted, and the
    slot of [med_inc] holds [null]. *)
Lemma C6_blank_med_inc_posted :
  (∃ k, run form_submit_handler blank_med_inc =
        (hide resultBox (hide errorBox blank_med_inc),
         Suspended (OnFetch (mkRequest "/predict_price" "POST"
                                       [("Content-Type", "application/json")]
                                       (Some (base_json blank_med_inc))) k))) ∧
  get_prop (base_input blank_med_inc) "med_inc" = inr (VNum nan) ∧
  base_member blank_med_inc "med_inc" = json_text "'med_inc':null".
Proof.
  destruct (C6_blank_field_posted_as_null blank_med_inc) as (_ & Hrun & _ & H).
  - by apply (bool_decide_unpack _); vm_compute.
  - split; [exact Hrun |].
    destruct (H "med_inc") as (_ & H1 & H2).
    + by apply (bool_decide_unpack _); vm_compute.
    + by vm_compute.
    + split; [exact H1 |]. rewrite H2. by vm_compute.
Defined.

(** ** Numerals *)

Lemma digits_only_app a b :
  digits_only (a +:+ b) = digits_only a && digits_only b.
Proof. induction a as [|c a IH]; simpl; [done |]. by rewrite IH, andb_assoc. Qed.

Lemma digits_only_zeros n : digits_only (Number.zeros n) = true.
Proof. induction n; simpl; auto. Qed.

Lemma length_zeros n : String.length (Number.zeros n) = n.
Proof. induction n; simpl; auto. Qed.

Lemma length_app a b : String.length (a +:+ b) = (String.length a + String.length b)%nat.
Proof. induction a as [|c a IH]; simpl; auto. Qed.

Lemma digits_only_take n s : digits_only s = true → digits_only (str_take n s) = true.
Proof.
  revert s. induction n as [|n IH]; intros [|c s]; simpl; try done.
  intros [Hc Hs]%andb_prop. by rewrite Hc, IH.
Qed.

Lemma digits_only_drop n s : digits_only s = true → digits_only (str_drop n s) = true.
Proof.
  revert s. induction n as [|n IH]; intros [|c s]; simpl; try done.
  intros [Hc Hs]%andb_prop. by apply IH.
Qed.

Lemma length_take n s : (n ≤ String.length s)%nat → String.length (str_take n s) = n.
Proof.
  revert s. induction n as [|n IH]; intros [|c s]; simpl; try done; try lia.
  intros H. rewrite IH; lia.
Qed.

Lemma length_drop n s : String.length (str_drop n s) = (String.length s - n)%nat.
Proof. revert s. induction n as [|n IH]; intros [|c s]; simpl; auto. Qed.

Lemma digits_only_uint d : digits_only (NilEmpty.string_of_uint d) = true.
Proof. induction d; simpl; auto. Qed.

Lemma digits_only_decimal n : digits_only (Number.decimal n) = true.
Proof.
  unfold Number.decimal, NilZero.string_of_uint.
  destruct (N.to_uint (Z.to_N n)); try done; simpl; apply digits_only_uint.
Qed.

Lemma length_decimal n : (1 ≤ String.length (Number.decimal n))%nat.
Proof.
  unfold Number.decimal, NilZero.string_of_uint.
  destruct (N.to_uint (Z.to_N n)); simpl; lia.
Qed.

(** Reading the digits of [a +:+ "." +:+ b] stops at the point. *)
Lemma digits_stop_at_point a b count acc :
  digits_only a = true →
  ∃ v, Number.digits (a +:+ String "." b) count acc
       = ((count + String.length a)%nat, v, String "." b).
Proof.
  revert count acc. induction a as [|c a IH]; intros count acc; simpl.
  - intros _. exists acc. f_equal. f_equal. lia.
  - intros [Hc Ha]%andb_prop. rewrite Hc.
    destruct (IH (S count) (10 * acc + Number.digit_value c) Ha) as [v ->].
    exists v. f_equal. f_equal. lia.
Qed.

(** [toFixed]'s digits for two decimal places have the shape of a numeral
    with two decimal places, with or without a sign. *)
Lemma two_decimal_places_fixed_digits n (neg : bool) :
  two_decimal_places ((if neg then "-" else "") +:+ Number.fixed_digits n 2) = true.
Proof.
  unfold Number.fixed_digits.
  set (m0 := Number.decimal n).
  set (m := if (String.length m0 <=? 2)%nat
            then Number.zeros (2 + 1 - String.length m0) +:+ m0 else m0).
  assert (digits_only m0 = true) as Hd0 by apply digits_only_decimal.
  assert (1 ≤ String.length m0)%nat as Hl0 by apply length_decimal.
  assert (digits_only m = true) as Hd.
  { subst m. destruct (String.length m0 <=? 2)%nat; [| done].
    by rewrite digits_only_app, digits_only_zeros, Hd0. }
  assert (3 ≤ String.length m)%nat as Hl.
  { subst m. destruct (String.length m0 <=? 2)%nat eqn:Hle.
    - apply Nat.leb_le in Hle. rewrite length_app, length_zeros. lia.
    - apply Nat.leb_gt in Hle. lia. }
  set (k := String.length m) in *.
  set (a := str_take (k - 2) m). set (b := str_drop (k - 2) m).
  assert (digits_only a = true) as Ha by (by apply digits_only_take).
  assert (String.length a = (k - 2)%nat) as Hla by (apply length_take; lia).
  assert (digits_only b = true) as Hb by (by apply digits_only_drop).
  assert (String.length b = 2%nat) as Hlb by (subst b; rewrite length_drop; lia).
  destruct b as [|b1 [|b2 [|b3 b]]]; simpl in Hlb; try lia.
  simpl in Hb. apply andb_prop in Hb as [Hb1 [Hb2 _]%andb_prop].
  assert (∃ v, Number.digits (a +:+ String "." (String b1 (String b2 ""))) 0 0
               = (S (k - 3), v, String "." (String b1 (String b2 "")))) as [v Hv].
  { destruct (digits_stop_at_point a (String b1 (String b2 "")) 0 0 Ha) as [v Hv].
    exists v. rewrite Hv, Hla. do 2 f_equal. lia. }
  change (a +:+ "." +:+ String b1 (String b2 ""))
    with (a +:+ String "." (String b1 (String b2 ""))).
  unfold two_decimal_places. destruct neg.
  - change ("-" +:+ a +:+ String "." (String b1 (String b2 "")))
      with (String "-" (a +:+ String "." (String b1 (String b2 "")))).
    cbv iota beta. rewrite Hv. by rewrite Hb1, Hb2.
  - change ("" +:+ a +:+ String "." (String b1 (String b2 "")))
      with (a +:+ String "." (String b1 (String b2 ""))).
    assert (match a +:+ String "." (String b1 (String b2 "")) with
            | String "-"%char r => r
            | _ => a +:+ String "." (String b1 (String b2 ""))
            end = a +:+ String "." (String b1 (String b2 ""))) as ->.
    { destruct a as [|a1 a]; [simpl in Hla; lia |].
      simpl in Ha. apply andb_prop in Ha as [Ha1 _].
      simpl. destruct a1 as [[] [] [] [] [] [] [] []]; done. }
    rewrite Hv. by rewrite Hb1, Hb2.
Qed.

Lemma digits_all s count acc :
  digits_only s = true →
  Number.digits s count acc = ((count + String.length s)%nat, read_value s acc, "").
Proof.
  revert count acc. induction s as [|c s IH]; intros count acc; simpl.
  - intros _. do 2 f_equal. lia.
  - intros [Hc Hs]%andb_prop. rewrite Hc, IH by done. do 2 f_equal. lia.
Qed.

Lemma digits_to_point a b count acc :
  digits_only a = true →
  Number.digits (a +:+ String "." b) count acc
  = ((count + String.length a)%nat, read_value a acc, String "." b).
Proof.
  revert count acc. induction a as [|c a IH]; intros count acc; simpl.
  - intros _. do 2 f_equal. lia.
  - intros [Hc Ha]%andb_prop. rewrite Hc, IH by done. do 2 f_equal. lia.
Qed.

Lemma read_value_app a b acc :
  read_value (a +:+ b) acc = read_value b (read_value a acc).
Proof. revert acc. induction a as [|c a IH]; intros acc; simpl; auto. Qed.

Lemma read_value_zeros n : read_value (Number.zeros n) 0 = 0.
Proof. induction n; simpl; auto. Qed.

Lemma take_drop n s : str_take n s +:+ str_drop n s = s.
Proof.
  revert s. induction n as [|n IH]; intros [|c s]; simpl; try done.
  change (String c (str_take n s +:+ str_drop n s) = String c s).
  by rewrite IH.
Qed.

Lemma read_value_uint_acc d acc :
  read_value (NilEmpty.string_of_uint d) (Zpos acc) = Zpos (Pos.of_uint_acc d acc).
Proof.
  revert acc. induction d as [|d IH|d IH|d IH|d IH|d IH|d IH|d IH|d IH|d IH|d IH];
    intros acc; [done | ..]; simpl NilEmpty.string_of_uint; simpl read_value;
    simpl Pos.of_uint_acc; rewrite <- IH; f_equal;
    unfold Number.digit_value;
    match goal with
    | |- context [Z.of_nat (nat_of_ascii ?c)] =>
        let v := eval vm_compute in (Z.of_nat (nat_of_ascii c)) in
        change (Z.of_nat (nat_of_ascii c)) with v
    end; lia.
Qed.

Lemma read_value_uint d :
  read_value (NilEmpty.string_of_uint d) 0 = Z.of_N (Pos.of_uint d).
Proof.
  induction d as [|d IH|d IH|d IH|d IH|d IH|d IH|d IH|d IH|d IH|d IH];
    [done | exact IH | ..];
    simpl NilEmpty.string_of_uint; simpl read_value; simpl Pos.of_uint;
    simpl Z.of_N; rewrite <- read_value_uint_acc; f_equal.
Qed.

Lemma read_value_decimal n : 0 ≤ n → read_value (Number.decimal n) 0 = n.
Proof.
  intros Hn. unfold Number.decimal, NilZero.string_of_uint.
  assert (read_value (NilEmpty.string_of_uint (N.to_uint (Z.to_N n))) 0 = n) as H.
  { rewrite read_value_uint.
    change (Pos.of_uint (N.to_uint (Z.to_N n))) with (N.of_uint (N.to_uint (Z.to_N n))).
    rewrite DecimalN.Unsigned.of_to. by apply Z2N.id. }
  destruct (N.to_uint (Z.to_N n)); exact H.
Qed.

(** The digits [toFixed] writes for [n] hundredths read back as [n]
    hundredths. *)
Lemma unsigned_decimal_fixed_digits n :
  0 ≤ n → Number.unsigned_decimal (Number.fixed_digits n 2) = Some (n, -2, "").
Proof.
  intros Hn. unfold Number.fixed_digits.
  set (m0 := Number.decimal n).
  assert (digits_only m0 = true) as Hd0 by apply digits_only_decimal.
  assert (1 ≤ String.length m0)%nat as Hl0 by apply length_decimal.
  assert (read_value m0 0 = n) as Hv0 by (by apply read_value_decimal).
  set (m := if (String.length m0 <=? 2)%nat
            then Number.zeros (2 + 1 - String.length m0) +:+ m0 else m0).
  assert (digits_only m = true) as Hd.
  { subst m. destruct (String.length m0 <=? 2)%nat; [| done].
    by rewrite digits_only_app, digits_only_zeros, Hd0. }
  assert (3 ≤ String.length m)%nat as Hl.
  { subst m. destruct (String.length m0 <=? 2)%nat eqn:Hle.
    - apply Nat.leb_le in Hle. rewrite length_app, length_zeros. lia.
    - apply Nat.leb_gt in Hle. lia. }
  assert (read_value m 0 = n) as Hv.
  { subst m. destruct (String.length m0 <=? 2)%nat; [| done].
    by rewrite read_value_app, read_value_zeros. }
  set (k := String.length m) in *.
  pose proof (take_drop (k - 2) m) as Htd.
  set (a := str_take (k - 2) m) in *. set (b := str_drop (k - 2) m) in *.
  assert (digits_only a = true) as Ha by (by apply digits_only_take).
  assert (digits_only b = true) as Hb by (by apply digits_only_drop).
  assert (String.length b = 2%nat) as Hlb by (subst b; rewrite length_drop; lia).
  assert (String.length a ≠ 0%nat) as Hla by (subst a; rewrite length_take; lia).
  change (a +:+ "." +:+ b) with (a +:+ String "." b).
  unfold Number.unsigned_decimal.
  rewrite digits_to_point by done.
  rewrite digits_all by done. rewrite Hlb.
  rewrite <- read_value_app, Htd, Hv. simpl.
  destruct (String.length a); [done | reflexivity].
Qed.

Lemma nearest_scaled_nearest m e : nearest_hundredths m e (Number.nearest_scaled m e 2).
Proof.
  unfold nearest_hundredths, Number.nearest_scaled.
  change (10 ^ Z.of_nat 2) with 100.
  destruct (0 <=? e) eqn:He; [lia |].
  apply Z.leb_gt in He.
  assert (0 < 2 ^ (- e)) as Hd by (apply Z.pow_pos_nonneg; lia).
  replace (1 - e) with (Z.succ (- e)) by lia.
  rewrite Z.pow_succ_r by lia.
  set (d := 2 ^ (- e)) in *.
  pose proof (Z.div_mod (2 * (Z.pos m * 100) + d) (2 * d) ltac:(lia)) as Hdm.
  pose proof (Z.mod_pos_bound (2 * (Z.pos m * 100) + d) (2 * d) ltac:(lia)) as Hb.
  set (n := (2 * (Z.pos m * 100) + d) / (2 * d)) in *.
  nia.
Qed.

Lemma nearest_scaled_nonneg m e : 0 ≤ Number.nearest_scaled m e 2.
Proof.
  unfold Number.nearest_scaled. destruct (0 <=? e) eqn:He.
  - apply Z.leb_le in He. apply Z.mul_nonneg_nonneg; [lia |].
    apply Z.pow_nonneg. lia.
  - apply Z.leb_gt in He. apply Z.div_pos.
    + assert (0 < 2 ^ (- e)) by (apply Z.pow_pos_nonneg; lia). lia.
    + apply Z.pow_pos_nonneg; lia.
Qed.

Lemma has_minus_unsigned_decimal s :
  has_minus s = true → Number.unsigned_decimal s = None.
Proof.
  destruct s as [|c r]; [done |].
  destruct c as [[] [] [] [] [] [] [] []]; try done.
Qed.

Lemma has_minus_fixed_digits n : 0 ≤ n → has_minus (Number.fixed_digits n 2) = false.
Proof.
  intros Hn. destruct (has_minus (Number.fixed_digits n 2)) eqn:H; [| done].
  apply has_minus_unsigned_decimal in H.
  by rewrite unsigned_decimal_fixed_digits in H.
Qed.

Lemma unsigned_part_no_minus s : has_minus s = false → unsigned_part s = s.
Proof.
  destruct s as [|c r]; [done |].
  destruct c as [[] [] [] [] [] [] [] []]; done.
Qed.

(** ** C1: labels and data of the chart *)

(** Below [10^21], [toFixed(2)] formats to exactly two decimal places. *)
Lemma toFixed_formatted x :
  below_1e21 x = true → formatted_to_two_decimals x (Number.toFixed x 2).
Proof.
  unfold below_1e21, formatted_to_two_decimals, Number.toFixed.
  destruct (Prim2SF x) as [s|s| |s m e]; try done.
  intros Hlt%negb_true_iff. rewrite Hlt.
  pose proof (nearest_scaled_nonneg m e) as Hn.
  split; [apply two_decimal_places_fixed_digits |].
  split.
  - destruct s; [done |]. by apply has_minus_fixed_digits.
  - exists (Number.nearest_scaled m e 2). split; [apply nearest_scaled_nearest |].
    destruct s.
    + by apply unsigned_decimal_fixed_digits.
    + change ("" +:+ Number.fixed_digits (Number.nearest_scaled m e 2) 2)
        with (Number.fixed_digits (Number.nearest_scaled m e 2) 2).
      rewrite unsigned_part_no_minus by (by apply has_minus_fixed_digits).
      by apply unsigned_decimal_fixed_digits.
Qed.

Lemma map_items_numbers {B} (f : float → B) (g : JSVal → JSError + B) xs :
  (∀ x, g (VNum x) = inr (f x)) →
  map_items g (VNum <$> xs) = inr (f <$> xs).
Proof.
  intros Hg. induction xs as [|x xs IH]; [done |].
  rewrite !fmap_cons. cbn [map_items]. by rewrite Hg, IH.
Qed.

Lemma chart_series_CurveResponse j f xs ps :
  is_CurveResponse j f xs ps →
  chart_series j = inr ((λ x, Number.toFixed x 2) <$> xs, (λ p, p / 1000)%float <$> ps).
Proof.
  intros (_ & Hx & Hp). unfold chart_series. rewrite Hx, Hp. simpl.
  rewrite (map_items_numbers (λ x, Number.toFixed x 2)) by done.
  by rewrite (map_items_numbers (λ p, p / 1000)%float).
Qed.

(** C1, as stated, fails for an x-value of [10^21] or more, which
    [toFixed] writes in exponent notation: the label of [1e21] is [1e+21],
    with no decimal place. *)
Lemma C1_label_of_1e21 :
  match run (renderChart (VObj [("feature_name", VStr "med_inc");
                                ("x_values", VArr [VNum 1e21]);
                                ("prices", VArr [VNum 100000])])) example_page with
  | (p', Finished _) =>
      match charts p' with
      | [Constructed _ config] =>
          labels config = ["1e+21"] ∧
          forallb two_decimal_places (labels config) = false
      | _ => False
      end
  | _ => False
  end.
Proof. vm_compute. done. Qed.

(** C1 (amended). For a CurveResponse, the configuration the renderer
    hands to Chart.js has as labels the x-values, each through
    [toFixed(2)], and as data the prices, each divided by 1000.  Where every
    x-value is finite and below [10^21] in magnitude, each label is its
    x-value formatted to exactly two decimal places. *)
Theorem C1_labels_and_data j f xs ps p :
  is_CurveResponse j f xs ps →
  present "priceChart" p →
  ∃ config,
    run (renderChart j) p = (chart_drawn config p, Finished tt) ∧
    labels config = (λ x, Number.toFixed x 2) <$> xs ∧
    data config = (λ p, p / 1000)%float <$> ps ∧
    (Forall (λ x, below_1e21 x = true) xs →
     Forall2 formatted_to_two_decimals xs (labels config)).
Proof.
  intros Hj [canvas Hc].
  exists (chart_config ((λ x, Number.toFixed x 2) <$> xs)
                       ((λ p, p / 1000)%float <$> ps) f (VStr f)).
  split_and!; try done.
  - rewrite run_renderChart. unfold rendered.
    rewrite Hc, (chart_series_CurveResponse j f xs ps Hj).
    destruct Hj as (Hf & _). unfold feature_of. by rewrite Hf.
  - intros Hxs. simpl. apply Forall2_fmap_r, Forall_Forall2_diag.
    eapply Forall_impl; [exact Hxs |]. intros x Hx. by apply toFixed_formatted.
Qed.

(** The specification's example: labels [1.00] and [2.00], data 100 and
    200. *)
Lemma C1_example_curve :
  ∃ config,
    run (renderChart example_curve) example_page
    = (chart_drawn config example_page, Finished tt) ∧
    labels config = ["1.00"; "2.00"] ∧
    data config = [100; 200]%float ∧
    Forall2 formatted_to_two_decimals [1; 2]%float (labels config).
Proof.
  destruct (C1_labels_and_data example_curve "med_inc" [1; 2]%float
              [100000; 200000]%float example_page) as (config & Hrun & Hl & Hd & Hf).
  - by vm_compute.
  - by apply (bool_decide_unpack _); vm_compute.
  - exists config. split_and!; [done | by rewrite Hl | by rewrite Hd |].
    apply Hf. repeat constructor.
Defined.

(** ** The rely-guarantee reading *)

Section wp.
Context (O : JSError + Response → Prop) (I : Page → Prop).

Lemma wp_mono {A} (m : prog A) p (Q Q' : A → Page → Prop) (E E' : JSError → Page → Prop) :
  (∀ a p', Q a p' → Q' a p') → (∀ e p', E e p' → E' e p') →
  wp O I m p Q E → wp O I m p Q' E'.
Proof.
  intros HQ HE. revert p.
  induction m as [a|e|k IH|p' k IH|req k IH|k IH]; intros p; simpl; auto.
  - intros [HI H]. split; [done |]. intros o p' Ho Hp'. by apply IH, H.
  - intros [HI H]. split; [done |]. intros p' Hp'. by apply IH, H.
Qed.

Lemma wp_bind {A B} (m : prog A) (f : A → prog B) p Q E :
  wp O I m p (λ a p', wp O I (f a) p' Q E) E → wp O I (m ≫= f) p Q E.
Proof.
  unfold mbind, prog_bind. revert p.
  induction m as [a|e|k IH|p' k IH|req k IH|k IH]; intros p; simpl; auto.
  - intros [HI H]. split; [done |]. intros o p' Ho Hp'. by apply IH, H.
  - intros [HI H]. split; [done |]. intros p' Hp'. by apply IH, H.
Qed.

Lemma wp_fmap {A B} (g : A → B) (m : prog A) p Q E :
  wp O I m p (λ a p', Q (g a) p') E → wp O I (g <$> m) p Q E.
Proof.
  unfold fmap, prog_fmap. revert p.
  induction m as [a|e|k IH|p' k IH|req k IH|k IH]; intros p; simpl; auto.
  - intros [HI H]. split; [done |]. intros o p' Ho Hp'. by apply IH, H.
  - intros [HI H]. split; [done |]. intros p' Hp'. by apply IH, H.
Qed.

Lemma wp_try_catch {A} (m : prog A) h p Q E :
  wp O I m p Q (λ e p', wp O I (h e) p' Q E) → wp O I (try_catch m h) p Q E.
Proof.
  revert p.
  induction m as [a|e|k IH|p' k IH|req k IH|k IH]; intros p; simpl; auto.
  - intros [HI H]. split; [done |]. intros o p' Ho Hp'. by apply IH, H.
  - intros [HI H]. split; [done |]. intros p' Hp'. by apply IH, H.
Qed.

(** A program that ends within its turn. *)
Lemma wp_sync {A} (m : prog A) p Q E :
  match run m p with
  | (p', Finished a) => Q a p'
  | (p', Rejected e) => E e p'
  | (_, Suspended _) => False
  end →
  wp O I m p Q E.
Proof.
  revert p.
  induction m as [a|e|k IH|p' k IH|req k IH|k IH]; intros p; simpl; auto; done.
Qed.

(** What [wp] says of one turn. *)
Lemma wp_run {A} (m : prog A) p Q E :
  wp O I m p Q E →
  match run m p with
  | (p', Finished a) => Q a p'
  | (p', Rejected e) => E e p'
  | (p', Suspended (OnFetch _ k)) => I p' ∧ ∀ o p'', O o → I p'' → wp O I (k o) p'' Q E
  | (p', Suspended (OnYield k)) => I p' ∧ ∀ p'', I p'' → wp O I k p'' Q E
  end.
Proof.
  revert p.
  induction m as [a|e|k IH|p' k IH|req k IH|k IH]; intros p; simpl;
    intros H; first [exact H | by apply IH].
Qed.

Lemma turn_keeps m p others :
  wp O I m p (λ _, I) (λ _, I) → Forall (task_keeps O I) others →
  world_keeps O I (turn m p others).
Proof.
  intros Hwp Ho. apply wp_run in Hwp. unfold turn, world_keeps.
  destruct (run m p) as [p' [[]|e|[req k|k]]]; simpl.
  - split; [done |]. by rewrite app_nil_r.
  - split; [done |]. by rewrite app_nil_r.
  - destruct Hwp as [HI Hk]. split; [done |].
    apply Forall_app. split; [done |]. by repeat constructor.
  - destruct Hwp as [HI Hk]. split; [done |].
    apply Forall_app. split; [done |]. by repeat constructor.
Qed.

(** If both handlers keep [I], and editing a field does, every turn of
    the event loop keeps it, when the request that settles is answered as
    [O] allows. *)
Lemma fire_keeps ev w w' :
  (∀ p, I p → wp O I form_submit_handler p (λ _, I) (λ _, I)) →
  (∀ p, I p → wp O I btnCurve_click_handler p (λ _, I) (λ _, I)) →
  (∀ id f p, I p → I (with_element id f p)) →
  answers O ev →
  world_keeps O I w → fire ev w = Some w' → world_keeps O I w'.
Proof.
  intros Hsubmit Hclick Hedit Hev [HI Ht].
  destruct ev as [id v| | |i o|i]; simpl.
  - intros [= <-]. split; [by apply Hedit | done].
  - intros [= <-]. apply turn_keeps; auto.
  - intros [= <-]. apply turn_keeps; auto.
  - destruct (tasks w !! i) as [[req k|k]|] eqn:Hi; try done.
    intros [= <-]. apply turn_keeps; [| by apply Forall_delete].
    apply (Forall_lookup_1 _ _ _ _ Ht Hi); [exact Hev | exact HI].
  - destruct (tasks w !! i) as [[req k|k]|] eqn:Hi; try done.
    intros [= <-]. apply turn_keeps; [| by apply Forall_delete].
    apply (Forall_lookup_1 _ _ _ _ Ht Hi). done.
Qed.

Lemma fire_all_keeps evs w w' :
  (∀ p, I p → wp O I form_submit_handler p (λ _, I) (λ _, I)) →
  (∀ p, I p → wp O I btnCurve_click_handler p (λ _, I) (λ _, I)) →
  (∀ id f p, I p → I (with_element id f p)) →
  Forall (answers O) evs →
  world_keeps O I w → fire_all evs w = Some w' → world_keeps O I w'.
Proof.
  intros Hsubmit Hclick Hedit. revert w.
  induction evs as [|ev evs IH]; intros w Hevs Hw; simpl.
  - by intros [= <-].
  - destruct (fire ev w) as [w1|] eqn:Hf; [| done].
    apply Forall_cons in Hevs as [Hev Hevs].
    apply IH; [done |]. by apply (fire_keeps ev w).
Qed.
End wp.

(** ** Invariants of the page that the handlers keep

    A property [I] of the page that ignores the elements, that drawing a
    chart keeps, and that destroying the chart of the slot keeps when the
    label of an answer that [O] allows cannot be written, is kept by both
    handlers, whatever runs between their turns. *)

Section handlers_keep.
Context (O : JSError + Response → Prop) (I : Page → Prop).
Hypothesis I_element : ∀ id f p, I p → I (with_element id f p).
Hypothesis I_drawn : ∀ config p, I p → I (chart_drawn config p).
Hypothesis I_label : ∀ r j e p,
  O (inr r) → json r = inr j → ToString (feature_of j) = inl e →
  I p → I (destroy_old p).

Lemma wp_on_element id prop f p (Q : unit → Page → Prop) E :
  I p → (∀ p', I p' → Q tt p') → (∀ e p', I p' → E e p') →
  wp O I (on_element id prop f) p Q E.
Proof. intros HI HQ HE. simpl. destruct (document p !! id); simpl; auto. Qed.

Lemma wp_set_textContent id text p (Q : unit → Page → Prop) E :
  I p → (∀ p', I p' → Q tt p') → (∀ e p', I p' → E e p') →
  wp O I (set_textContent id text) p Q E.
Proof.
  intros HI HQ HE. simpl. destruct (document p !! id); simpl; auto.
Qed.

Lemma wp_value_of id p (Q : string → Page → Prop) E :
  I p → (∀ v p', I p' → Q v p') → (∀ e p', I p' → E e p') →
  wp O I (value_of id) p Q E.
Proof. intros HI HQ HE. simpl. destruct (document p !! id); simpl; auto. Qed.

Lemma wp_parsed_value {B} (g : string → B) id p (Q : B → Page → Prop) E :
  I p → (∀ v p', I p' → Q v p') → (∀ e p', I p' → E e p') →
  wp O I (g <$> value_of id) p Q E.
Proof. intros HI HQ HE. apply wp_fmap, wp_value_of; auto. Qed.

Lemma wp_getBaseInput p (Q : JSVal → Page → Prop) E :
  I p → (∀ v p', I p' → Q v p') → (∀ e p', I p' → E e p') →
  wp O I getBaseInput p Q E.
Proof.
  intros HI HQ HE. unfold getBaseInput.
  repeat (apply wp_bind, wp_parsed_value; [done | clear p HI; intros ? p HI | done]).
  simpl. by apply HQ.
Qed.

Lemma wp_show_error e p :
  I p → wp O I (show_error e) p (λ _, I) (λ _, I).
Proof.
  intros HI. unfold show_error, classList_remove.
  apply wp_bind, wp_set_textContent; [done | | done].
  intros p' HI'. apply wp_on_element; auto.
Qed.

Lemma wp_fetch req p (Q : Response → Page → Prop) E :
  I p → (∀ r p', O (inr r) → I p' → Q r p') → (∀ e p', I p' → E e p') →
  wp O I (fetch req) p Q E.
Proof.
  intros HI HQ HE. simpl. split; [done |].
  intros [e|r] p' Ho HI'; simpl; auto.
Qed.

Lemma wp_await {A} (r : JSError + A) p (Q : A → Page → Prop) E :
  I p → (∀ a p', r = inr a → I p' → Q a p') → (∀ e p', I p' → E e p') →
  wp O I (await r) p Q E.
Proof.
  intros HI HQ HE. simpl. split; [done |].
  intros p' HI'. destruct r; simpl; auto.
Qed.

Lemma wp_lift {A} (r : JSError + A) p (Q : A → Page → Prop) E :
  I p → (∀ a p', I p' → Q a p') → (∀ e p', I p' → E e p') →
  wp O I (lift r) p Q E.
Proof. intros HI HQ HE. destruct r; simpl; auto. Qed.

(** The status check and the parse of both [try] blocks. *)
Lemma wp_status_check {A} generic (r : Response) (f : JSVal → prog A) p Q E :
  I p → (∀ j p', json r = inr j → I p' → wp O I (f j) p' Q E) →
  (∀ e p', I p' → E e p') →
  wp O I ((if negb (ok r) then
             text ← await (text r);
             Throw (Error (or_else text generic))
           else mret tt);;
          json ← await (json r);
          f json) p Q E.
Proof.
  intros HI HQ HE. apply wp_bind.
  assert (∀ p', I p' → wp O I (await (json r) ≫= f) p' Q E) as Hrest.
  { intros p' HI'. apply wp_bind, wp_await; auto. }
  destruct (ok r); simpl negb; cbv iota.
  - simpl. by apply Hrest.
  - apply wp_bind, wp_await; [done | | done].
    intros t p' _ HI'. simpl. by apply HE.
Qed.

Lemma wp_renderChart j p (Q : unit → Page → Prop) E :
  I p → (∀ e q, ToString (feature_of j) = inl e → I q → I (destroy_old q)) →
  (∀ p', I p' → Q tt p') → (∀ e p', I p' → E e p') →
  wp O I (renderChart j) p Q E.
Proof.
  intros HI Hl HQ HE. apply wp_sync. rewrite run_renderChart.
  unfold rendered. destruct (document p !! "priceChart") as [canvas|]; [| by apply HE].
  destruct (chart_series j) as [e|[labels data]]; [by apply HE |].
  destruct (ToString (feature_of j)) as [e|label] eqn:Hlabel; simpl.
  - apply HE. by apply (Hl e).
  - apply HQ. by apply I_drawn.
Qed.

Lemma form_submit_handler_keeps p :
  I p → wp O I form_submit_handler p (λ _, I) (λ _, I).
Proof.
  intros HI. unfold form_submit_handler, classList_add.
  apply wp_bind, wp_on_element; [done | clear p HI; intros p HI | done].
  apply wp_bind, wp_on_element; [done | clear p HI; intros p HI | done].
  apply wp_bind, wp_getBaseInput; [done | clear p HI; intros baseInput p HI | done].
  apply wp_try_catch.
  apply wp_bind, wp_fetch;
    [done | clear p HI; intros r p Hr HI | by intros; apply wp_show_error].
  apply (wp_status_check predict_generic);
    [done | clear p HI; intros j p Hj HI | by intros; apply wp_show_error].
  apply wp_bind, wp_lift;
    [done | clear p HI; intros v p HI | by intros; apply wp_show_error].
  apply wp_bind, wp_lift;
    [done | clear p HI; intros s p HI | by intros; apply wp_show_error].
  apply wp_bind, wp_set_textContent;
    [done | clear p HI; intros p HI | by intros; apply wp_show_error].
  unfold classList_remove.
  apply wp_on_element; [done | done | by intros; apply wp_show_error].
Qed.

Lemma btnCurve_click_handler_keeps p :
  I p → wp O I btnCurve_click_handler p (λ _, I) (λ _, I).
Proof.
  intros HI. unfold btnCurve_click_handler, classList_add.
  apply wp_bind, wp_on_element; [done | clear p HI; intros p HI | done].
  apply wp_bind, wp_getBaseInput; [done | clear p HI; intros baseInput p HI | done].
  do 3 (apply wp_bind, wp_parsed_value; [done | clear p HI; intros ? p HI | done]).
  apply wp_bind, wp_value_of; [done | clear p HI; intros feature p HI | done].
  apply wp_try_catch.
  apply wp_bind, wp_fetch;
    [done | clear p HI; intros r p Hr HI | by intros; apply wp_show_error].
  apply (wp_status_check curve_generic);
    [done | clear p HI; intros j p Hj HI | by intros; apply wp_show_error].
  apply wp_renderChart; [done | | done | by intros; apply wp_show_error].
  intros e q Hlabel Hq. by apply (I_label r j e q).
Qed.

(** Every world the event loop reaches from a page with [I], through
    requests answered as [O] allows, has [I]. *)
Lemma loaded_keeps elements evs w :
  I (mkPage elements None []) → Forall (answers O) evs →
  fire_all evs (loaded elements) = Some w → I (page w).
Proof.
  intros Hinit Hevs Hw.
  eapply (fire_all_keeps O I evs (loaded elements) w); eauto.
  - apply form_submit_handler_keeps.
  - apply btnCurve_click_handler_keeps.
  - by split.
Qed.
End handlers_keep.

Lemma answers_any evs : Forall (answers (λ _, True)) evs.
Proof. apply Forall_forall. by intros []. Qed.

(** ** C7: one live chart *)

Lemma live_app h1 h2 acc : live (h1 ++ h2) acc = live h2 (live h1 acc).
Proof.
  revert acc. induction h1 as [|[c config|c] h1 IH]; intros acc; simpl; auto.
Qed.

Lemma at_most_one_live_app h evs :
  at_most_one_live h →
  (∀ k, (length (live (take k evs) (live h [])) ≤ 1)%nat) →
  at_most_one_live (h ++ evs).
Proof.
  intros Hh Hevs n. rewrite take_app, live_app.
  destruct (decide (n ≤ length h)%nat) as [Hle|Hgt].
  - replace (n - length h)%nat with 0%nat by lia. rewrite take_0. simpl. apply Hh.
  - rewrite (take_ge h n) by lia. apply Hevs.
Qed.

Lemma filter_other_singleton (c : nat) : filter (λ d, d ≠ c) [c] = [].
Proof. rewrite filter_cons. by case_decide. Qed.

(** Destroying the chart of the slot leaves no chart live. *)
Lemma live_charts_destroyed p :
  live_charts p = [] ∨ live_charts p = option_list (priceChart p) →
  live_charts (destroy_old p) = [].
Proof.
  unfold live_charts, destroy_old. intros Hlive.
  destruct (priceChart p) as [c|]; simpl in *.
  - rewrite live_app. simpl.
    destruct Hlive as [-> | ->]; [done | apply filter_other_singleton].
  - by destruct Hlive.
Qed.

Lemma chart_discipline_destroyed p :
  chart_discipline p → chart_discipline (destroy_old p).
Proof.
  intros [Hlive Hone]. split.
  - left. by apply live_charts_destroyed.
  - assert (length (live_charts p) ≤ 1)%nat as Hlen.
    { destruct Hlive as [-> | ->]; [simpl; lia |]. destruct (priceChart p); simpl; lia. }
    unfold destroy_old. destruct (priceChart p) as [c|]; [| done].
    apply at_most_one_live_app; [done |].
    fold (live_charts p).
    intros [|k]; simpl; [done |].
    rewrite take_nil. simpl.
    etrans; [apply length_filter | done].
Qed.

(** Drawing a chart leaves one chart live, the new one, in the slot. *)
Lemma live_charts_drawn config p :
  live_charts p = [] ∨ live_charts p = option_list (priceChart p) →
  ∃ c, priceChart (chart_drawn config p) = Some c ∧
       live_charts (chart_drawn config p) = [c].
Proof.
  intros Hlive. exists (length (charts (destroy_old p))).
  split; [done |].
  unfold chart_drawn, live_charts. simpl. rewrite live_app. simpl.
  fold (live_charts (destroy_old p)).
  by rewrite (live_charts_destroyed p Hlive).
Qed.

(** Drawing a chart keeps the discipline: the old instance is destroyed
    before the new one is constructed. *)
Lemma chart_discipline_drawn config p :
  chart_discipline p → chart_discipline (chart_drawn config p).
Proof.
  intros Hp. pose proof (chart_discipline_destroyed p Hp) as [Hd Hone].
  destruct Hp as [Hlive _].
  destruct (live_charts_drawn config p Hlive) as (c & Hc & Hl).
  split; [right; by rewrite Hl, Hc |].
  unfold chart_drawn. simpl.
  apply at_most_one_live_app; [done |].
  fold (live_charts (destroy_old p)).
  rewrite (live_charts_destroyed p Hlive).
  intros [|k]; simpl; rewrite ?take_nil; simpl; lia.
Qed.

Lemma chart_discipline_loaded elements : chart_discipline (mkPage elements None []).
Proof.
  split; [by left |]. intros n. simpl. rewrite take_nil. simpl. lia.
Qed.

(** C7. In every world the event loop reaches from the loaded page,
    whatever the order in which requests settle and handlers resume: at no
    moment of the history of Chart.js calls were two chart instances live,
    and an instance that is live is the one in the slot.  When the slot
    holds an instance, a render that succeeds destroys it and only then
    constructs the instance it stores, which is then the only live one. *)
Theorem C7_one_live_chart elements w :
  reachable elements w →
  at_most_one_live (charts (page w)) ∧
  (∀ c, c ∈ live_charts (page w) → priceChart (page w) = Some c) ∧
  (∀ old j p',
     priceChart (page w) = Some old →
     run (renderChart j) (page w) = (p', Finished tt) →
     ∃ new config,
       charts p' = (charts (page w) ++ [Destroyed old; Constructed new config])%list ∧
       priceChart p' = Some new ∧
       live_charts p' = [new]).
Proof.
  intros [evs Hw].
  assert (chart_discipline (page w)) as [Hlive Hone].
  { apply (loaded_keeps (λ _, True) chart_discipline) with elements evs; try done.
    - apply chart_discipline_drawn.
    - intros r j e p _ _ _. apply chart_discipline_destroyed.
    - apply chart_discipline_loaded.
    - apply answers_any. }
  split_and!; [done | |].
  - intros c Hc. destruct Hlive as [Hl | Hl]; rewrite Hl in Hc.
    + by apply elem_of_nil in Hc.
    + destruct (priceChart (page w)) as [d|]; simpl in Hc.
      * by apply list_elem_of_singleton in Hc as ->.
      * by apply elem_of_nil in Hc.
  - intros old j p' Hold. rewrite run_renderChart. unfold rendered.
    destruct (document (page w) !! "priceChart") as [canvas|]; [| done].
    destruct (chart_series j) as [e|[labels data]]; [done |].
    destruct (ToString (feature_of j)) as [e|label]; [done |].
    intros [= <-].
    destruct (live_charts_drawn (chart_config labels data label (feature_of j))
                (page w) Hlive) as (c & Hc & Hl).
    exists (length (charts (page w) ++ [Destroyed old])),
           (chart_config labels data label (feature_of j)).
    rewrite Hl. revert Hc. unfold chart_drawn, destroy_old. rewrite Hold. simpl.
    rewrite <- !app_assoc. simpl. intros [= <-]. done.
Qed.

(** The curve button is clicked twice and both curves arrive: the first
    chart is destroyed, then the second is constructed. *)
Lemma C7_two_curves :
  ∃ w config1 config2,
    fire_all [ClickCurve; Settle 0 (inr (curve_200 example_curve)); Resume 0;
              ClickCurve; Settle 0 (inr (curve_200 example_curve)); Resume 0]
             (loaded example_document) = Some w ∧
    charts (page w) = [Constructed 0 config1; Destroyed 0; Constructed 2 config2] ∧
    at_most_one_live (charts (page w)) ∧
    live_charts (page w) = [2%nat] ∧
    priceChart (page w) = Some 2%nat.
Proof.
  destruct (fire_all [ClickCurve; Settle 0 (inr (curve_200 example_curve)); Resume 0;
                      ClickCurve; Settle 0 (inr (curve_200 example_curve)); Resume 0]
                     (loaded example_document)) as [w|] eqn:Hw;
    [| by vm_compute in Hw].
  destruct (C7_one_live_chart example_document w (ex_intro _ _ Hw)) as (Hone & Hlive & _).
  assert (Some w = Some w) as Hsame by done.
  rewrite <- Hw in Hsame at 1. vm_compute in Hsame. injection Hsame as <-.
  eexists _, _, _. split_and!; [reflexivity | reflexivity | exact Hone | | ].
  - by vm_compute.
  - by vm_compute.
Defined.

(** ** Missing elements, and the first turn of each handler *)

Lemma run_value_of_missing id p :
  ¬ present id p → run (value_of id) p = (p, Rejected (cannot_read "null" "value")).
Proof.
  intros H. simpl. destruct (document p !! id) as [el|] eqn:Hel; [| done].
  destruct H. by exists el.
Qed.

Lemma run_on_element_missing id prop f p :
  ¬ present id p → run (on_element id prop f) p = (p, Rejected (cannot_read "null" prop)).
Proof.
  intros H. simpl. destruct (document p !! id) as [el|] eqn:Hel; [| done].
  destruct H. by exists el.
Qed.


Lemma run_on_element_cases id prop f p :
  run (on_element id prop f) p =
  if decide (present id p) then (with_element id f p, Finished tt)
  else (p, Rejected (cannot_read "null" prop)).
Proof.
  case_decide; [by apply run_on_element | by apply run_on_element_missing].
Qed.

Lemma run_value_of_cases id p :
  run (value_of id) p =
  if decide (present id p) then (p, Finished (field id p))
  else (p, Rejected (cannot_read "null" "value")).
Proof.
  case_decide; [by apply run_value_of | by apply run_value_of_missing].
Qed.

(** A read of an input, parsed: the next step of the program, or the
    TypeError of a missing element. *)
Lemma run_parsed_value {A B} (g : string → A) (k : A → prog B) id p :
  run ((g <$> value_of id) ≫= k) p =
  if decide (present id p) then run (k (g (field id p))) p
  else (p, Rejected (cannot_read "null" "value")).
Proof.
  rewrite run_bind, run_fmap. case_decide as H.
  - by rewrite run_value_of.
  - by rewrite run_value_of_missing.
Qed.

Lemma getBaseInput_run p :
  run getBaseInput p =
  (p, if decide (all_present base_fields p) then Finished (base_input p)
      else Rejected (cannot_read "null" "value")).
Proof.
  case_decide as H; [by apply run_getBaseInput |].
  unfold getBaseInput.
  repeat (rewrite run_parsed_value; case_decide; [| done]).
  destruct H. unfold base_fields. by repeat constructor.
Qed.

(** X1. [getBaseInput] only reads the page and never waits: it leaves the
    page as it is, and returns the eight parsed fields when the eight
    inputs exist.  When one of them is missing it throws the TypeError of
    reading [value] from [null]. *)
Theorem getBaseInput_reads_all_or_throws p :
  run getBaseInput p =
  (p, if decide (all_present base_fields p) then Finished (base_input p)
      else Rejected (cannot_read "null" "value")).
Proof. apply getBaseInput_run. Qed.

Lemma all_present_submit_needs p :
  all_present submit_needs p ↔
  present errorBox p ∧ present resultBox p ∧ all_present base_fields p.
Proof.
  unfold submit_needs, all_present. simpl. rewrite !Forall_cons. tauto.
Qed.

Lemma all_present_curve_elements p :
  all_present curve_elements p ↔
  present errorBox p ∧ present featureSelect p ∧ present "min_value" p ∧
  present "max_value" p ∧ present "num_points" p ∧ all_present base_fields p.
Proof.
  unfold curve_elements, all_present. simpl. rewrite !Forall_cons. tauto.
Qed.

Lemma is_visible_missing id p : ¬ present id p → is_visible id p = false.
Proof.
  intros H. unfold is_visible. destruct (document p !! id) as [el|] eqn:Hel; [| done].
  destruct H. by exists el.
Qed.

Lemma text_of_hide id id' p : text_of id (hide id' p) = text_of id p.
Proof.
  unfold hide. destruct (decide (id = id')) as [->|Hne].
  - by apply text_of_tokens.
  - by apply text_of_other.
Qed.

Lemma is_visible_hide_other id id' p :
  is_visible id p = false → is_visible id (hide id' p) = false.
Proof.
  intros H. destruct (decide (id = id')) as [->|Hne].
  - apply is_visible_hide.
  - unfold hide. by rewrite is_visible_other.
Qed.

(** X2. The first turn of the submit handler.  With the error region, the
    result region and the eight inputs on the page, it hides both regions
    and is suspended on the POST of the collected fields to
    [/predict_price]; the price element is not needed for that.  With one
    of them missing it throws a TypeError before the [try] block: no
    request is sent, the run is rejected, and the error region is not
    visible and its text is untouched, so the failure is not shown. *)
Theorem form_submit_handler_first_turn p :
  match run form_submit_handler p with
  | (p', Suspended (OnFetch req _)) =>
      all_present submit_needs p ∧
      req = post_json "/predict_price" (base_input p) ∧
      p' = hide resultBox (hide errorBox p)
  | (p', Rejected e) =>
      ¬ all_present submit_needs p ∧
      err_name e = "TypeError" ∧
      is_visible errorBox p' = false ∧
      text_of errorBox p' = text_of errorBox p
  | _ => False
  end.
Proof.
  unfold form_submit_handler, classList_add.
  rewrite run_bind.
  destruct (decide (present errorBox p)) as [He|He]; cycle 1.
  { rewrite run_on_element_missing by done. rewrite all_present_submit_needs.
    split_and!; [tauto | done | by apply is_visible_missing | done]. }
  rewrite run_on_element by done. fold (hide errorBox p).
  rewrite run_bind.
  destruct (decide (present resultBox p)) as [Hr|Hr]; cycle 1.
  { rewrite run_on_element_missing by (by rewrite present_hidden).
    rewrite all_present_submit_needs.
    split_and!; [tauto | done | apply is_visible_hide | apply text_of_hide]. }
  rewrite run_on_element by (by rewrite present_hidden).
  fold (hide resultBox (hide errorBox p)).
  rewrite run_bind, getBaseInput_run.
  case_decide as Hb.
  - simpl. rewrite all_present_submit_needs. split; [| split; [| done]].
    + split_and!; [done | done |].
      by unfold hide in Hb; rewrite !all_present_with_element in Hb.
    + unfold hide. by rewrite !base_input_with_element by apply value_add_token.
  - rewrite all_present_submit_needs. split_and!; [| done | |].
    + intros (_ & _ & Hb'). apply Hb.
      by unfold hide; rewrite !all_present_with_element.
    + apply is_visible_hide_other, is_visible_hide.
    + by rewrite !text_of_hide.
Qed.

(** X3. The first turn of the curve handler.  With the error region, the
    feature selector, the three curve inputs and the eight base inputs on
    the page, it hides the error region and is suspended on the POST of the
    curve request to [/feature_curve].  With one of them missing it throws
    a TypeError before the [try] block: no request is sent, the run is
    rejected, and the error region is not visible and its text is
    untouched. *)
Theorem btnCurve_click_handler_first_turn p :
  match run btnCurve_click_handler p with
  | (p', Suspended (OnFetch req _)) =>
      all_present curve_elements p ∧
      req = post_json "/feature_curve" (curve_request p) ∧
      p' = hide errorBox p
  | (p', Rejected e) =>
      ¬ all_present curve_elements p ∧
      err_name e = "TypeError" ∧
      is_visible errorBox p' = false ∧
      text_of errorBox p' = text_of errorBox p
  | _ => False
  end.
Proof.
  destruct (decide (all_present curve_elements p)) as [Hp|Hp].
  { destruct (run_btnCurve_click_handler p Hp) as [k ->]. done. }
  unfold btnCurve_click_handler, classList_add.
  rewrite run_bind.
  destruct (decide (present errorBox p)) as [He|He]; cycle 1.
  { rewrite run_on_element_missing by done.
    split_and!; [done | done | by apply is_visible_missing | done]. }
  rewrite run_on_element by done. fold (hide errorBox p).
  assert (∀ e : JSError, err_name e = "TypeError" →
    ¬ all_present curve_elements p ∧ err_name e = "TypeError" ∧
    is_visible errorBox (hide errorBox p) = false ∧
    text_of errorBox (hide errorBox p) = text_of errorBox p) as Hrej.
  { intros e He'.
    split_and!; [done | done | apply is_visible_hide | apply text_of_hide]. }
  rewrite run_bind, getBaseInput_run.
  case_decide as Hb; [| by apply Hrej].
  do 3 (rewrite run_parsed_value; case_decide; [| by apply Hrej]).
  rewrite run_bind.
  destruct (decide (present featureSelect (hide errorBox p))) as [Hf|Hf]; cycle 1.
  { rewrite run_value_of_missing by done. by apply Hrej. }
  exfalso. apply Hp. rewrite all_present_curve_elements.
  rewrite present_hidden in *.
  split_and!; try done.
  by unfold hide in Hb; rewrite all_present_with_element in Hb.
Qed.

(** ** One request for each run *)

Lemma sends_nothing_bind {A B} (m : prog A) (f : A → prog B) :
  sends_nothing m → (∀ a, sends_nothing (f a)) → sends_nothing (m ≫= f).
Proof.
  unfold mbind, prog_bind. intros Hm Hf.
  induction m as [a|e|k IH|p' k IH|req k IH|k IH]; simpl in *; auto.
Qed.

Lemma sends_nothing_try_catch {A} (m : prog A) h :
  sends_nothing m → (∀ e, sends_nothing (h e)) → sends_nothing (try_catch m h).
Proof.
  intros Hm Hh.
  induction m as [a|e|k IH|p' k IH|req k IH|k IH]; simpl in *; auto.
Qed.

Lemma sends_nothing_lift {A} (r : JSError + A) : sends_nothing (lift r).
Proof. by destruct r. Qed.

Lemma sends_nothing_on_element id prop f : sends_nothing (on_element id prop f).
Proof. intros p. by destruct (document p !! id). Qed.

Lemma sends_nothing_set_textContent id text : sends_nothing (set_textContent id text).
Proof. intros p. by destruct (document p !! id). Qed.

Lemma sends_nothing_show_error e : sends_nothing (show_error e).
Proof.
  apply sends_nothing_bind; [apply sends_nothing_set_textContent |].
  intros _. apply sends_nothing_on_element.
Qed.

Lemma sends_nothing_renderChart j : sends_nothing (renderChart j).
Proof.
  unfold renderChart.
  apply sends_nothing_bind; [intros p; by destruct (document p !! "priceChart") |].
  intros _. do 4 (apply sends_nothing_bind; [apply sends_nothing_lift | intros ?]).
  apply sends_nothing_bind; [done |]. intros old.
  apply sends_nothing_bind; [by destruct old |]. intros _.
  do 2 (apply sends_nothing_bind; [apply sends_nothing_lift | intros ?]).
  by apply sends_nothing_bind.
Qed.

(** What both [try] blocks do with their response sends nothing. *)
Lemma sends_nothing_status_check {A} generic (r : Response) (f : JSVal → prog A) :
  (∀ j, sends_nothing (f j)) →
  sends_nothing ((if negb (ok r) then
                    text ← await (text r);
                    Throw (Error (or_else text generic))
                  else mret tt);;
                 json ← await (json r);
                 f json).
Proof.
  intros Hf. apply sends_nothing_bind.
  - destruct (ok r); simpl; [done |]. by destruct (text r).
  - intros _. apply sends_nothing_bind; [| done]. simpl. apply sends_nothing_lift.
Qed.

(** X4. Each run of a handler sends at most one request.  The first turn
    ends rejected or suspended on its request, never on another wait; and
    whatever the answer, and whatever pages the later turns find, what is
    left of the run has no [fetch]: no retry, no second request. *)
Theorem one_request_each_run p :
  match run form_submit_handler p with
  | (_, Suspended (OnFetch _ k)) => ∀ o, sends_nothing (k o)
  | (_, Suspended (OnYield _)) => False
  | _ => True
  end ∧
  match run btnCurve_click_handler p with
  | (_, Suspended (OnFetch _ k)) => ∀ o, sends_nothing (k o)
  | (_, Suspended (OnYield _)) => False
  | _ => True
  end.
Proof.
  split.
  - unfold form_submit_handler, classList_add.
    do 2 (rewrite run_bind, run_on_element_cases; case_decide; [| done]).
    rewrite run_bind, getBaseInput_run. case_decide; [| done].
    rewrite run_try_catch, run_bind. simpl run at 1. cbv iota beta.
    intros o. apply sends_nothing_try_catch; [| apply sends_nothing_show_error].
    apply sends_nothing_bind; [apply sends_nothing_lift |]. intros r.
    apply (sends_nothing_status_check predict_generic). intros j.
    apply sends_nothing_bind; [apply sends_nothing_lift |]. intros v.
    apply sends_nothing_bind; [apply sends_nothing_lift |]. intros s.
    apply sends_nothing_bind; [apply sends_nothing_set_textContent |]. intros _.
    apply sends_nothing_on_element.
  - unfold btnCurve_click_handler, classList_add.
    rewrite run_bind, run_on_element_cases; case_decide; [| done].
    rewrite run_bind, getBaseInput_run. case_decide; [| done].
    do 3 (rewrite run_parsed_value; case_decide; [| done]).
    rewrite run_bind, run_value_of_cases. case_decide; [| done].
    rewrite run_try_catch, run_bind. simpl run at 1. cbv iota beta.
    intros o. apply sends_nothing_try_catch; [| apply sends_nothing_show_error].
    apply sends_nothing_bind; [apply sends_nothing_lift |]. intros r.
    apply (sends_nothing_status_check curve_generic). intros j.
    apply sends_nothing_renderChart.
Qed.

(** ** The renderer, case by case *)

Lemma call_toFixed_TypeError v e : call_toFixed 2 v = inl e → err_name e = "TypeError".
Proof. destruct v; simpl; by intros [= <-]. Qed.

Lemma map_items_toFixed items :
  match map_items (call_toFixed 2) items with
  | inr labels => ∃ xs, items = VNum <$> xs ∧ labels = (λ x, Number.toFixed x 2) <$> xs
  | inl e => err_name e = "TypeError" ∧ ¬ ∃ xs : list float, items = VNum <$> xs
  end.
Proof.
  induction items as [|v items IH]; simpl.
  { by exists []. }
  destruct (call_toFixed 2 v) as [e|l] eqn:Hv.
  - split; [by apply (call_toFixed_TypeError v) |].
    intros [[|x xs] Hxs]; [done |]. injection Hxs as -> _. done.
  - destruct v; try done. injection Hv as <-.
    destruct (map_items (call_toFixed 2) items) as [e|labels].
    + destruct IH as [He Hno]. split; [done |].
      intros [[|x' xs] Hxs]; [done |]. injection Hxs as _ ->. apply Hno. by exists xs.
    + destruct IH as (xs & -> & ->). by exists (x :: xs).
Qed.

Lemma map_items_divide items :
  match map_items divide_by_1000 items with
  | inr data => ∃ nums, numbers_of items nums ∧ data = (λ x, x / 1000)%float <$> nums
  | inl e => err_name e = "TypeError" ∧ ¬ ∃ nums, numbers_of items nums
  end.
Proof.
  unfold numbers_of. induction items as [|v items IH]; cbn [map_items].
  { exists []. by split; [constructor |]. }
  destruct (divide_by_1000 v) as [e|y] eqn:Hv.
  - split; [by apply (divide_by_1000_TypeError v) |].
    intros [nums Hn]. apply Forall2_cons_inv_l in Hn as (x & nums' & Hx & _ & _).
    unfold divide_by_1000 in Hv. by rewrite Hx in Hv.
  - unfold divide_by_1000 in Hv. destruct (ToNumber v) as [e|x] eqn:Hx; [done |].
    injection Hv as <-.
    destruct (map_items divide_by_1000 items) as [e|data].
    + destruct IH as [He Hno]. split; [done |].
      intros [nums Hn]. apply Forall2_cons_inv_l in Hn as (x' & nums' & _ & Hn & _).
      apply Hno. by exists nums'.
    + destruct IH as (nums & Hn & ->). exists (x :: nums).
      split; [by constructor | done].
Qed.

Lemma numbers_of_unique items nums nums' :
  numbers_of items nums → numbers_of items nums' → nums = nums'.
Proof.
  unfold numbers_of. intros H. revert nums'.
  induction H as [|v x items nums Hx _ IH]; intros nums' H'.
  - by apply Forall2_nil_inv_l in H'.
  - apply Forall2_cons_inv_l in H' as (x' & nums'' & Hx' & H' & ->).
    rewrite Hx in Hx'. injection Hx' as <-. f_equal. by apply IH.
Qed.

Lemma get_prop_TypeError j name e : get_prop j name = inl e → err_name e = "TypeError".
Proof. destruct j; simpl; by intros [= <-]. Qed.

Lemma call_map_TypeError {B} what (f : JSVal → JSError + B) v e :
  (∀ items e', map_items f items = inl e' → err_name e' = "TypeError") →
  call_map what f v = inl e → err_name e = "TypeError".
Proof. intros Hf. destruct v; simpl; try (by intros [= <-]). apply Hf. Qed.

(** The series of a parsed body: labels and data exactly when [x_values]
    is an array of numbers and [prices] is an array of values that convert
    to numbers; a TypeError otherwise. *)
Lemma chart_series_cases j :
  match chart_series j with
  | inr (labels, data) =>
      ∃ xs items nums,
        get_prop j "x_values" = inr (VArr (VNum <$> xs)) ∧
        get_prop j "prices" = inr (VArr items) ∧
        numbers_of items nums ∧
        labels = (λ x, Number.toFixed x 2) <$> xs ∧
        data = (λ x, x / 1000)%float <$> nums
  | inl e =>
      err_name e = "TypeError" ∧
      ¬ ∃ (xs : list float) items nums,
          get_prop j "x_values" = inr (VArr (VNum <$> xs)) ∧
          get_prop j "prices" = inr (VArr items) ∧
          numbers_of items nums
  end.
Proof.
  unfold chart_series.
  destruct (get_prop j "x_values") as [e|xv] eqn:Hx.
  { split; [by apply (get_prop_TypeError j "x_values") |].
    by intros (xs & items & nums & ? & _). }
  destruct (call_map _ (call_toFixed 2) xv) as [e|labels] eqn:Hl.
  { split.
    - revert Hl. apply call_map_TypeError. intros items e' He'.
      pose proof (map_items_toFixed items) as H. rewrite He' in H. tauto.
    - intros (xs & items & nums & [= ->] & _). simpl in Hl.
      pose proof (map_items_toFixed (VNum <$> xs)) as H. rewrite Hl in H.
      destruct H as [_ H]. apply H. by exists xs. }
  destruct xv; try done. simpl in Hl.
  pose proof (map_items_toFixed items) as H. rewrite Hl in H.
  destruct H as (xs & -> & ->).
  destruct (get_prop j "prices") as [e|pv] eqn:Hp.
  { split; [by apply (get_prop_TypeError j "prices") |].
    by intros (? & ? & ? & _ & ? & _). }
  destruct pv as [| | | | |prices|]; simpl;
    try (split; [done | by intros (? & ? & ? & _ & ? & _)]).
  pose proof (map_items_divide prices) as H.
  destruct (map_items divide_by_1000 prices) as [e|data].
  - destruct H as [He Hno]. split; [done |].
    intros (? & items & nums & _ & [= <-] & Hn). apply Hno. by exists nums.
  - destruct H as (nums & Hn & ->). by exists xs, prices, nums.
Qed.

(** The series of a parsed body whose [x_values] are numbers and whose
    [prices] convert to numbers. *)
Lemma chart_series_numbers j xs items nums :
  get_prop j "x_values" = inr (VArr (VNum <$> xs)) →
  get_prop j "prices" = inr (VArr items) →
  numbers_of items nums →
  chart_series j = inr ((λ x, Number.toFixed x 2) <$> xs, (λ x, x / 1000)%float <$> nums).
Proof.
  intros Hx Hp Hn. pose proof (chart_series_cases j) as H.
  destruct (chart_series j) as [e|[labels data]].
  - destruct H as [_ []]. by exists xs, items, nums.
  - destruct H as (xs' & items' & nums' & Hx' & Hp' & Hn' & -> & ->).
    rewrite Hx in Hx'. rewrite Hp in Hp'.
    injection Hx' as Hx'. injection Hp' as <-.
    assert (Inj (=) (=) VNum) by (by intros ?? [=]).
    apply (inj (fmap VNum)) in Hx' as <-.
    by rewrite (numbers_of_unique items nums nums').
Qed.

(** When the renderer succeeds, and the page it leaves. *)
Lemma rendered_drawn j p p' :
  rendered j p = (p', inr tt) ↔
  present "priceChart" p ∧
  ∃ xs items nums label,
    get_prop j "x_values" = inr (VArr (VNum <$> xs)) ∧
    get_prop j "prices" = inr (VArr items) ∧
    numbers_of items nums ∧
    ToString (feature_of j) = inr label ∧
    p' = chart_drawn (chart_config ((λ x, Number.toFixed x 2) <$> xs)
                                   ((λ x, x / 1000)%float <$> nums)
                                   label (feature_of j)) p.
Proof.
  unfold rendered, present. split.
  - pose proof (chart_series_cases j) as H.
    destruct (document p !! "priceChart") as [canvas|]; [| done].
    destruct (chart_series j) as [e|[labels data]]; [done |].
    destruct H as (xs & items & nums & Hx & Hp & Hn & -> & ->).
    destruct (ToString (feature_of j)) as [e|label]; [done |].
    intros [= <-]. split; [done |]. by exists xs, items, nums, label.
  - intros ([canvas ->] & xs & items & nums & label & Hx & Hp & Hn & Hl & ->).
    by rewrite (chart_series_numbers j xs items nums), Hl.
Qed.

(** X5. The renderer draws the chart or leaves the page as it found it, and
    never waits.  When it throws (no canvas, a body that is [null],
    [x_values] or [prices] missing or not an array, an x-value that is not
    a number, a price that has no number) the error is a TypeError and
    nothing on the page has changed:
    the chart in the slot has not been destroyed.  The feature name is read
    after the old chart is destroyed, hence the hypothesis that it
    converts. *)
Theorem renderChart_draws_or_leaves j p :
  converts (feature_of j) = true →
  (∃ config, run (renderChart j) p = (chart_drawn config p, Finished tt)) ∨
  (∃ e, run (renderChart j) p = (p, Rejected e) ∧ err_name e = "TypeError").
Proof.
  intros [label Hlabel]%ToString_converts. rewrite run_renderChart. unfold rendered.
  destruct (document p !! "priceChart") as [canvas|]; [| right; by eexists].
  pose proof (chart_series_cases j) as H.
  destruct (chart_series j) as [e|[labels data]].
  - right. exists e. tauto.
  - left. rewrite Hlabel. by eexists.
Qed.

(** The specification's example curve is drawn. *)
Lemma renderChart_draws_example_curve :
  (∃ config, run (renderChart example_curve) example_page
             = (chart_drawn config example_page, Finished tt)) ∨
  (∃ e, run (renderChart example_curve) example_page = (example_page, Rejected e) ∧
        err_name e = "TypeError").
Proof. apply renderChart_draws_or_leaves. reflexivity. Defined.

(** X6. The renderer succeeds exactly when the canvas exists, [x_values]
    is an array of numbers, [prices] is an array of values that convert to
    numbers, and the feature name has a string.  The page it leaves is the
    one it found with the chart drawn: the labels are the x-values through
    [toFixed(2)], the data the prices, each converted to a number and
    divided by 1000.  So a price that is a numeric string or [null] is
    accepted, an x-value that is not a number is not, and neither is a
    price or a feature name that is an object with a property named
    [toString]. *)
Theorem renderChart_draws_iff j p p' :
  run (renderChart j) p = (p', Finished tt) ↔
  present "priceChart" p ∧
  ∃ xs items nums label,
    get_prop j "x_values" = inr (VArr (VNum <$> xs)) ∧
    get_prop j "prices" = inr (VArr items) ∧
    numbers_of items nums ∧
    ToString (feature_of j) = inr label ∧
    p' = chart_drawn (chart_config ((λ x, Number.toFixed x 2) <$> xs)
                                   ((λ x, x / 1000)%float <$> nums)
                                   label (feature_of j)) p.
Proof.
  rewrite run_renderChart, <- rendered_drawn.
  destruct (rendered j p) as [q [e|[]]]; simpl; split; by intros [= <-].
Qed.

(** Prices given as a string, a number and [null]. *)
Lemma renderChart_coerces_prices :
  run (renderChart curve_of_strings) example_page
  = (chart_drawn (chart_config ["1.00"; "2.50"] [100; 200; 0]%float "med_inc"
                               (VStr "med_inc"))
                 example_page, Finished tt).
Proof.
  apply renderChart_draws_iff.
  split; [by apply (bool_decide_unpack _); vm_compute |].
  exists [1; 2.5]%float, [VStr "100000"; VNum 200000; VNull],
         [100000; 200000; 0]%float, "med_inc".
  split_and!; [reflexivity | reflexivity | | reflexivity | by vm_compute].
  repeat (constructor; [by vm_compute |]). constructor.
Defined.

(** X17. When the renderer has the canvas and the series but the feature
    name has no string (an object with a property named [toString], or an
    array that holds one), it throws the TypeError of the conversion after
    it has destroyed the chart of the slot, and before it stores a new one:
    the chart that was live is destroyed, no chart is live, and the slot
    still holds the destroyed instance. *)
Theorem renderChart_label_failure j p xs items nums :
  present "priceChart" p →
  get_prop j "x_values" = inr (VArr (VNum <$> xs)) →
  get_prop j "prices" = inr (VArr items) →
  numbers_of items nums →
  converts (feature_of j) = false →
  run (renderChart j) p = (destroy_old p, Rejected cannot_convert) ∧
  priceChart (destroy_old p) = priceChart p ∧
  (∀ c, priceChart p = Some c → live_charts p = [c] →
        charts (destroy_old p) = (charts p ++ [Destroyed c])%list ∧
        live_charts (destroy_old p) = []).
Proof.
  intros [canvas Hc] Hx Hp Hn Hf. split_and!.
  - rewrite run_renderChart. unfold rendered.
    rewrite Hc, (chart_series_numbers j xs items nums) by done.
    pose proof (ToString_cases (feature_of j)) as H.
    destruct (ToString (feature_of j)) as [e|label]; [| congruence].
    by destruct H as [_ ->].
  - unfold destroy_old. by destruct (priceChart p) eqn:Hs.
  - intros c Hs Hl. split.
    + unfold destroy_old. by rewrite Hs.
    + apply live_charts_destroyed. right. by rewrite Hl, Hs.
Qed.

(** The example curve is drawn, then a curve arrives whose feature name is
    an object with a property [toString]: the first chart is destroyed and
    none is drawn. *)
Lemma renderChart_label_failure_example :
  run (renderChart curve_of_shadowed) (run (renderChart example_curve) example_page).1
  = (destroy_old (run (renderChart example_curve) example_page).1,
     Rejected cannot_convert) ∧
  live_charts (run (renderChart example_curve) example_page).1 = [0%nat] ∧
  live_charts (destroy_old (run (renderChart example_curve) example_page).1) = [] ∧
  priceChart (destroy_old (run (renderChart example_curve) example_page).1) = Some 0%nat.
Proof.
  destruct (renderChart_label_failure curve_of_shadowed
              (run (renderChart example_curve) example_page).1
              [1; 2]%float [VNum 100000; VNum 200000] [100000; 200000]%float)
    as (Hrun & Hslot & Hlive).
  - by apply (bool_decide_unpack _); vm_compute.
  - reflexivity.
  - reflexivity.
  - by repeat constructor.
  - reflexivity.
  - destruct (Hlive 0%nat) as [_ Hl]; [by vm_compute | by vm_compute |].
    split_and!; [exact Hrun | by vm_compute | exact Hl |].
    rewrite Hslot. by vm_compute.
Defined.

(** X7. The chart the renderer constructs is the last thing Chart.js is
    asked, and the chart then in the slot: a line chart, not filled, of
    tension 0.2, responsive, with interaction by index without
    intersection; its data set is labelled [Precio (miles de $) vs]
    followed by the feature name as a string; the x axis is titled with the
    feature name and the y axis with [Precio estimado (miles de $)], both
    titles displayed. *)
Theorem renderChart_config j p p' :
  run (renderChart j) p = (p', Finished tt) →
  ∃ c config label,
    last (charts p') = Some (Constructed c config) ∧
    priceChart p' = Some c ∧
    chart_type config = "line" ∧
    ToString (feature_of j) = inr label ∧
    dataset_label config = "Precio (miles de $) vs " +:+ label ∧
    fill config = false ∧
    tension config = 0.2%float ∧
    responsive config = true ∧
    interaction_mode config = "index" ∧
    interaction_intersect config = false ∧
    x_title_display config = true ∧
    x_title_text config = feature_of j ∧
    y_title_display config = true ∧
    y_title_text config = "Precio estimado (miles de $)".
Proof.
  rewrite run_renderChart. unfold rendered.
  destruct (document p !! "priceChart") as [canvas|]; [| done].
  destruct (chart_series j) as [e|[labels data]]; [done |].
  destruct (ToString (feature_of j)) as [e|label]; [done |].
  intros [= <-]. unfold chart_drawn.
  eexists _, _, label. split; [apply last_snoc |]. by split_and!.
Qed.

(** The configuration for the specification's example curve. *)
Lemma renderChart_config_example :
  ∃ c config,
    last (charts (run (renderChart example_curve) example_page).1)
    = Some (Constructed c config) ∧
    chart_type config = "line" ∧
    dataset_label config = "Precio (miles de $) vs med_inc" ∧
    x_title_text config = VStr "med_inc" ∧
    y_title_text config = "Precio estimado (miles de $)".
Proof.
  destruct (renderChart_config example_curve example_page
              (run (renderChart example_curve) example_page).1)
    as (c & config & label & Hl & _ & Ht & Hs & Hd & _ & _ & _ & _ & _ & _ & Hx & _ & Hy).
  - by vm_compute.
  - exists c, config. injection Hs as <-.
    split_and!; [exact Hl | exact Ht | exact Hd | exact Hx | exact Hy].
Defined.

(** ** The two outcomes of each handler *)

(** X8. After a run of the submit handler that nothing overlaps, the
    result region is visible exactly when the request got a success
    response whose body parsed to a value other than [null] and whose
    [predicted_price_formatted] has a string; the price element then shows
    the label followed by that string ([undefined] when the body has no
    such property).  For an object with a property named [toString], which
    has no string, the error region is the one shown.  The result region is
    visible exactly when the error region is hidden. *)
Theorem result_shown_iff net p :
  all_present submit_elements p →
  (is_visible resultBox (exec net form_submit_handler p).1 = true ↔
   ∃ r j v s,
     net (post_json "/predict_price" (base_input p)) = inr r ∧
     ok r = true ∧ json r = inr j ∧
     get_prop j "predicted_price_formatted" = inr v ∧
     ToString v = inr s ∧
     text_of predictedPrice (exec net form_submit_handler p).1
     = Some ("Precio estimado: " +:+ s)) ∧
  (is_visible resultBox (exec net form_submit_handler p).1 = true ↔
   is_visible errorBox (exec net form_submit_handler p).1 = false).
Proof.
  intros Hp. rewrite exec_form_submit_handler by done. simpl fst.
  apply all_present_submit in Hp as (He & Hr & Hpp & _).
  unfold predicted_text.
  assert (∀ e,
    is_visible resultBox (error_shown e (hide resultBox (hide errorBox p))) = false ∧
    is_visible errorBox (error_shown e (hide resultBox (hide errorBox p))) = true) as Herr.
  { intros e. destruct (submit_error_state e p He) as (H1 & _ & H2 & _). by split. }
  assert (∀ P : Prop, (false = true ↔ P) ↔ ¬ P) as Hf.
  { intros P. split; [intros [_ H] HP; by specialize (H HP) | intros H; split; [done |]].
    intros HP. by destruct H. }
  destruct (net _) as [e|r] eqn:Hnet; simpl parsed_body.
  { destruct (Herr e) as [-> ->]. split; [| done].
    apply Hf. by intros (? & ? & ? & ? & ? & _). }
  destruct (ok r) eqn:Hok; cycle 1.
  { destruct (text r) as [e|t];
      [destruct (Herr e) as [-> ->]
      | destruct (Herr (Error (or_else t predict_generic))) as [-> ->]];
      (split; [| done]; apply Hf; intros (? & ? & ? & ? & [= <-] & ? & _); congruence). }
  destruct (json r) as [e|j] eqn:Hj.
  { destruct (Herr e) as [-> ->]. split; [| done].
    apply Hf. intros (? & ? & ? & ? & [= <-] & ? & ? & _); congruence. }
  destruct (get_prop j "predicted_price_formatted") as [e|v] eqn:Hv.
  { destruct (Herr e) as [-> ->]. split; [| done].
    apply Hf. intros (? & j' & ? & ? & [= <-] & ? & Hj' & Hv' & _).
    rewrite Hj in Hj'. injection Hj' as <-. congruence. }
  destruct (ToString v) as [e|s] eqn:Hs.
  { destruct (Herr e) as [-> ->]. split; [| done].
    apply Hf. intros (? & j' & v' & ? & [= <-] & ? & Hj' & Hv' & Hs' & _).
    rewrite Hj in Hj'. injection Hj' as <-.
    rewrite Hv in Hv'. injection Hv' as <-. congruence. }
  destruct (submit_success_state ("Precio estimado: " +:+ s) p Hr Hpp)
    as (-> & Ht & ->).
  split; [| done]. split; [| done]. intros _. by exists r, j, v, s.
Qed.

(** A success whose body is the empty object. *)
Lemma empty_object_is_shown_as_undefined :
  is_visible resultBox (exec (λ _, inr empty_object) form_submit_handler example_page).1 = true ∧
  text_of predictedPrice (exec (λ _, inr empty_object) form_submit_handler example_page).1
  = Some "Precio estimado: undefined".
Proof.
  destruct (result_shown_iff (λ _, inr empty_object) example_page) as [[_ H] _].
  - by apply (bool_decide_unpack _); vm_compute.
  - split; [| by vm_compute].
    apply H. exists empty_object, (VObj []), VUndefined, "undefined".
    split_and!; [reflexivity | reflexivity | reflexivity | reflexivity | reflexivity
                | by vm_compute].
Defined.



(** X10. With its elements on the page, a run of the curve handler that
    nothing overlaps is always fulfilled, and ends in one of two ways.  The
    error region is hidden at the end exactly when the request got a
    success response whose body parsed, the canvas exists, [x_values] is an
    array of numbers, [prices] is an array of values that convert to
    numbers and the feature name has a string; the page is then the one the
    click found with the error region hidden and the chart drawn.  In every
    other case the error region is visible. *)
Theorem curve_drawn_or_error net p :
  all_present curve_elements p →
  (exec net btnCurve_click_handler p).2 = inr tt ∧
  (is_visible errorBox (exec net btnCurve_click_handler p).1 = false ↔
   ∃ r j xs items nums label,
     net (post_json "/feature_curve" (curve_request p)) = inr r ∧
     ok r = true ∧ json r = inr j ∧
     present "priceChart" p ∧
     get_prop j "x_values" = inr (VArr (VNum <$> xs)) ∧
     get_prop j "prices" = inr (VArr items) ∧
     numbers_of items nums ∧
     ToString (feature_of j) = inr label ∧
     (exec net btnCurve_click_handler p).1
     = chart_drawn (chart_config ((λ x, Number.toFixed x 2) <$> xs)
                                 ((λ x, x / 1000)%float <$> nums)
                                 label (feature_of j)) (hide errorBox p)).
Proof.
  intros Hp. rewrite exec_btnCurve_click_handler by done. simpl fst. simpl snd.
  split; [done |].
  apply all_present_curve in Hp as (He & _).
  assert (∀ e q, document q = document (hide errorBox p) →
                 is_visible errorBox (error_shown e q) = false ↔ False) as Herr.
  { intros e q Hq. rewrite error_shown_visible; [done |].
    unfold present. rewrite Hq. by apply present_hidden. }
  destruct (net _) as [e|r] eqn:Hnet; simpl parsed_body.
  { rewrite Herr by done. split; [done |]. by intros (? & ? & ? & ? & ? & ? & ? & _). }
  destruct (ok r) eqn:Hok; cycle 1.
  { destruct (text r) as [e|t]; rewrite Herr by done;
      (split; [done |]; intros (? & ? & ? & ? & ? & ? & [= <-] & ? & _); congruence). }
  destruct (json r) as [e|j] eqn:Hj.
  { rewrite Herr by done. split; [done |].
    intros (? & ? & ? & ? & ? & ? & [= <-] & ? & ? & _); congruence. }
  pose proof (rendered_drawn j (hide errorBox p)) as Hiff.
  pose proof (rendered_document j (hide errorBox p)) as Hd.
  destruct (rendered j (hide errorBox p)) as [p' [e|[]]]; simpl in Hd.
  - rewrite Herr by done. split; [done |].
    intros (? & j' & xs & items & nums & label & [= <-] & _ & Hj' & Hc & Hx & Hpr & Hn & Hl & _).
    rewrite Hj in Hj'. injection Hj' as <-.
    destruct (Hiff (chart_drawn (chart_config ((λ x, Number.toFixed x 2) <$> xs)
                                   ((λ x, x / 1000)%float <$> nums)
                                   label (feature_of j)) (hide errorBox p))) as [_ H].
    enough ((p', inl (B:=unit) e) = (chart_drawn
              (chart_config ((λ x, Number.toFixed x 2) <$> xs)
                 ((λ x, x / 1000)%float <$> nums) label (feature_of j))
              (hide errorBox p), inr tt)) by done.
    apply H. split; [by apply present_hidden |]. by exists xs, items, nums, label.
  - destruct (Hiff p') as [H _].
    destruct (H eq_refl) as (Hc & xs & items & nums & label & Hx & Hpr & Hn & Hl & ->).
    split.
    + intros _. exists r, j, xs, items, nums, label.
      split_and!; try done. by apply present_hidden in Hc.
    + intros _. unfold chart_drawn, destroy_old.
      transitivity (is_visible errorBox (hide errorBox p)); [| apply is_visible_hide].
      unfold is_visible. by destruct (priceChart (hide errorBox p)).
Qed.

(** The specification's example curve, through the handler. *)
Lemma example_curve_is_drawn :
  (exec (λ _, inr (curve_200 example_curve)) btnCurve_click_handler example_page).2 = inr tt ∧
  is_visible errorBox
    (exec (λ _, inr (curve_200 example_curve)) btnCurve_click_handler example_page).1 = false ∧
  live_charts
    (exec (λ _, inr (curve_200 example_curve)) btnCurve_click_handler example_page).1 = [0%nat].
Proof.
  destruct (curve_drawn_or_error (λ _, inr (curve_200 example_curve)) example_page)
    as (Hok & Hiff).
  - by apply (bool_decide_unpack _); vm_compute.
  - split_and!; [exact Hok | | by vm_compute].
    apply Hiff. exists (curve_200 example_curve), example_curve, [1; 2]%float,
      [VNum 100000; VNum 200000], [100000; 200000]%float, "med_inc".
    split_and!; [reflexivity | reflexivity | reflexivity
                | by apply (bool_decide_unpack _); vm_compute
                | reflexivity | reflexivity | by repeat constructor | reflexivity
                | by vm_compute].
Defined.

(** ** The writes of the script, turn by turn *)

Section turns.
Context (R : Page → Page → Prop).
Hypothesis R_refl : ∀ p, R p p.
Hypothesis R_write : ∀ id f p0 p, script_write id f → R p0 p → R p0 (with_element id f p).
Hypothesis R_drawn : ∀ config p0 p, R p0 p → R p0 (chart_drawn config p).
Hypothesis R_destroyed : ∀ p0 p, R p0 p → R p0 (destroy_old p).

Lemma turns_bind {A B} (m : prog A) (f : A → prog B) p0 p Q E :
  turns R m p0 p (λ a q0 q, turns R (f a) q0 q Q E) E → turns R (m ≫= f) p0 p Q E.
Proof.
  unfold mbind, prog_bind. revert p0 p.
  induction m as [a|e|k IH|p' k IH|req k IH|k IH]; intros p0 p; simpl; auto.
  - intros [HR H]. split; [done |]. intros o p'. by apply IH, H.
  - intros [HR H]. split; [done |]. intros p'. by apply IH, H.
Qed.

Lemma turns_fmap {A B} (g : A → B) (m : prog A) p0 p Q E :
  turns R m p0 p (λ a q0 q, Q (g a) q0 q) E → turns R (g <$> m) p0 p Q E.
Proof.
  unfold fmap, prog_fmap. revert p0 p.
  induction m as [a|e|k IH|p' k IH|req k IH|k IH]; intros p0 p; simpl; auto.
  - intros [HR H]. split; [done |]. intros o p'. by apply IH, H.
  - intros [HR H]. split; [done |]. intros p'. by apply IH, H.
Qed.

Lemma turns_try_catch {A} (m : prog A) h p0 p Q E :
  turns R m p0 p Q (λ e q0 q, turns R (h e) q0 q Q E) → turns R (try_catch m h) p0 p Q E.
Proof.
  revert p0 p.
  induction m as [a|e|k IH|p' k IH|req k IH|k IH]; intros p0 p; simpl; auto.
  - intros [HR H]. split; [done |]. intros o p'. by apply IH, H.
  - intros [HR H]. split; [done |]. intros p'. by apply IH, H.
Qed.

(** What [turns] says of one turn. *)
Lemma turns_run {A} (m : prog A) p0 p Q E :
  turns R m p0 p Q E →
  match run m p with
  | (p', Finished a) => Q a p0 p'
  | (p', Rejected e) => E e p0 p'
  | (p', Suspended (OnFetch _ k)) => R p0 p' ∧ ∀ o q, turns R (k o) q q Q E
  | (p', Suspended (OnYield k)) => R p0 p' ∧ ∀ q, turns R k q q Q E
  end.
Proof.
  revert p0 p.
  induction m as [a|e|k IH|p' k IH|req k IH|k IH]; intros p0 p; simpl;
    intros H; first [exact H | by apply IH].
Qed.

(** A program that ends within its turn. *)
Lemma turns_sync {A} (m : prog A) p0 p Q E :
  match run m p with
  | (p', Finished a) => Q a p0 p'
  | (p', Rejected e) => E e p0 p'
  | (_, Suspended _) => False
  end →
  turns R m p0 p Q E.
Proof.
  revert p.
  induction m as [a|e|k IH|p' k IH|req k IH|k IH]; intros p; simpl; auto; done.
Qed.

Lemma turns_on_element id prop f p0 p (Q : unit → Page → Page → Prop) E :
  script_write id f → R p0 p →
  (∀ q0 q, R q0 q → Q tt q0 q) → (∀ e q0 q, R q0 q → E e q0 q) →
  turns R (on_element id prop f) p0 p Q E.
Proof. intros Hf HR HQ HE. simpl. destruct (document p !! id); simpl; auto. Qed.

Lemma turns_set_textContent id text p0 p (Q : unit → Page → Page → Prop) E :
  id ∈ [errorBox; predictedPrice] → R p0 p →
  (∀ q0 q, R q0 q → Q tt q0 q) → (∀ e q0 q, R q0 q → E e q0 q) →
  turns R (set_textContent id text) p0 p Q E.
Proof.
  intros Hid HR HQ HE. simpl. destruct (document p !! id); simpl; [| auto].
  apply HQ, R_write; [by constructor | done].
Qed.

Lemma turns_parsed_value {B} (g : string → B) id p0 p (Q : B → Page → Page → Prop) E :
  R p0 p → (∀ v q0 q, R q0 q → Q v q0 q) → (∀ e q0 q, R q0 q → E e q0 q) →
  turns R (g <$> value_of id) p0 p Q E.
Proof.
  intros HR HQ HE. apply turns_fmap. simpl. destruct (document p !! id); simpl; auto.
Qed.

Lemma turns_value_of id p0 p (Q : string → Page → Page → Prop) E :
  R p0 p → (∀ v q0 q, R q0 q → Q v q0 q) → (∀ e q0 q, R q0 q → E e q0 q) →
  turns R (value_of id) p0 p Q E.
Proof. intros HR HQ HE. simpl. destruct (document p !! id); simpl; auto. Qed.

Lemma turns_getBaseInput p0 p (Q : JSVal → Page → Page → Prop) E :
  R p0 p → (∀ v q0 q, R q0 q → Q v q0 q) → (∀ e q0 q, R q0 q → E e q0 q) →
  turns R getBaseInput p0 p Q E.
Proof.
  intros HR HQ HE. unfold getBaseInput.
  repeat (apply turns_bind, turns_parsed_value;
          [done | clear p0 p HR; intros ? p0 p HR | done]).
  simpl. by apply HQ.
Qed.

Lemma turns_show_error e p0 p :
  R p0 p → turns R (show_error e) p0 p (λ _, R) (λ _, R).
Proof.
  intros HR. unfold show_error, classList_remove.
  apply turns_bind, turns_set_textContent; [set_solver | done | | done].
  intros q0 q HR'. apply turns_on_element; auto. constructor. set_solver.
Qed.

Lemma turns_await {A} (r : JSError + A) p0 p (Q : A → Page → Page → Prop) E :
  R p0 p → (∀ a q0 q, R q0 q → Q a q0 q) → (∀ e q0 q, R q0 q → E e q0 q) →
  turns R (await r) p0 p Q E.
Proof.
  intros HR HQ HE. simpl. split; [done |].
  intros p'. destruct r; simpl; auto.
Qed.

Lemma turns_lift {A} (r : JSError + A) p0 p (Q : A → Page → Page → Prop) E :
  R p0 p → (∀ a q0 q, R q0 q → Q a q0 q) → (∀ e q0 q, R q0 q → E e q0 q) →
  turns R (lift r) p0 p Q E.
Proof. intros HR HQ HE. destruct r; simpl; auto. Qed.

Lemma turns_fetch req p0 p (Q : Response → Page → Page → Prop) E :
  R p0 p → (∀ r q0 q, R q0 q → Q r q0 q) → (∀ e q0 q, R q0 q → E e q0 q) →
  turns R (fetch req) p0 p Q E.
Proof.
  intros HR HQ HE. simpl. split; [done |].
  intros [e|r] p'; simpl; auto.
Qed.

Lemma turns_status_check {A} generic (r : Response) (f : JSVal → prog A) p0 p Q E :
  R p0 p → (∀ j q0 q, R q0 q → turns R (f j) q0 q Q E) → (∀ e q0 q, R q0 q → E e q0 q) →
  turns R ((if negb (ok r) then
              text ← await (text r);
              Throw (Error (or_else text generic))
            else mret tt);;
           json ← await (json r);
           f json) p0 p Q E.
Proof.
  intros HR HQ HE. apply turns_bind.
  assert (∀ q0 q, R q0 q → turns R (await (json r) ≫= f) q0 q Q E) as Hrest.
  { intros q0 q HR'. apply turns_bind, turns_await; auto. }
  destruct (ok r); simpl negb; cbv iota.
  - simpl. by apply Hrest.
  - apply turns_bind, turns_await; [done | | done].
    intros t q0 q HR'. simpl. by apply HE.
Qed.

Lemma turns_renderChart j p0 p (Q : unit → Page → Page → Prop) E :
  R p0 p → (∀ q0 q, R q0 q → Q tt q0 q) → (∀ e q0 q, R q0 q → E e q0 q) →
  turns R (renderChart j) p0 p Q E.
Proof.
  intros HR HQ HE. apply turns_sync. rewrite run_renderChart. unfold rendered.
  destruct (document p !! "priceChart") as [canvas|]; [| by apply HE].
  destruct (chart_series j) as [e|[labels data]]; [by apply HE |].
  destruct (ToString (feature_of j)) as [e|label]; simpl.
  - by apply HE, R_destroyed.
  - by apply HQ, R_drawn.
Qed.

Lemma form_submit_handler_turns p0 p :
  R p0 p → turns R form_submit_handler p0 p (λ _, R) (λ _, R).
Proof.
  intros HR. unfold form_submit_handler, classList_add.
  apply turns_bind, turns_on_element;
    [constructor; set_solver | done | clear p0 p HR; intros p0 p HR | done].
  apply turns_bind, turns_on_element;
    [constructor; set_solver | done | clear p0 p HR; intros p0 p HR | done].
  apply turns_bind, turns_getBaseInput; [done | clear p0 p HR; intros baseInput p0 p HR | done].
  apply turns_try_catch.
  apply turns_bind, turns_fetch;
    [done | clear p0 p HR; intros r p0 p HR | by intros; apply turns_show_error].
  apply (turns_status_check predict_generic);
    [done | clear p0 p HR; intros j p0 p HR | by intros; apply turns_show_error].
  apply turns_bind, turns_lift;
    [done | clear p0 p HR; intros v p0 p HR | by intros; apply turns_show_error].
  apply turns_bind, turns_lift;
    [done | clear p0 p HR; intros s p0 p HR | by intros; apply turns_show_error].
  apply turns_bind, turns_set_textContent;
    [set_solver | done | clear p0 p HR; intros p0 p HR | by intros; apply turns_show_error].
  unfold classList_remove.
  apply turns_on_element;
    [constructor; set_solver | done | done | by intros; apply turns_show_error].
Qed.

Lemma btnCurve_click_handler_turns p0 p :
  R p0 p → turns R btnCurve_click_handler p0 p (λ _, R) (λ _, R).
Proof.
  intros HR. unfold btnCurve_click_handler, classList_add.
  apply turns_bind, turns_on_element;
    [constructor; set_solver | done | clear p0 p HR; intros p0 p HR | done].
  apply turns_bind, turns_getBaseInput; [done | clear p0 p HR; intros baseInput p0 p HR | done].
  do 3 (apply turns_bind, turns_parsed_value; [done | clear p0 p HR; intros ? p0 p HR | done]).
  apply turns_bind, turns_value_of; [done | clear p0 p HR; intros feature p0 p HR | done].
  apply turns_try_catch.
  apply turns_bind, turns_fetch;
    [done | clear p0 p HR; intros r p0 p HR | by intros; apply turns_show_error].
  apply (turns_status_check curve_generic);
    [done | clear p0 p HR; intros j p0 p HR | by intros; apply turns_show_error].
  apply turns_renderChart; [done | done | by intros; apply turns_show_error].
Qed.

Lemma turn_turns m p others :
  turns R m p p (λ _, R) (λ _, R) → Forall (task_turns R) others →
  R p (page (turn m p others)) ∧ Forall (task_turns R) (tasks (turn m p others)).
Proof.
  intros Hm Ho. apply turns_run in Hm. unfold turn.
  destruct (run m p) as [p' [[]|e|[req k|k]]]; simpl.
  - split; [done |]. by rewrite app_nil_r.
  - split; [done |]. by rewrite app_nil_r.
  - destruct Hm as [HR Hk]. split; [done |].
    apply Forall_app. split; [done |]. by repeat constructor.
  - destruct Hm as [HR Hk]. split; [done |].
    apply Forall_app. split; [done |]. by repeat constructor.
Qed.

(** Every turn of a handler relates by [R] the page it finds to the page
    it leaves, and the runs left suspended will do so in their turns. *)
Lemma fire_turns ev w w' :
  Forall (task_turns R) (tasks w) → fire ev w = Some w' →
  Forall (task_turns R) (tasks w') ∧
  match ev with
  | UserInput _ _ => True
  | _ => R (page w) (page w')
  end.
Proof.
  intros Ht. destruct ev as [id v| | |i o|i]; simpl.
  - by intros [= <-].
  - intros [= <-].
    destruct (turn_turns form_submit_handler (page w) (tasks w)); auto.
    by apply form_submit_handler_turns.
  - intros [= <-].
    destruct (turn_turns btnCurve_click_handler (page w) (tasks w)); auto.
    by apply btnCurve_click_handler_turns.
  - destruct (tasks w !! i) as [[req k|k]|] eqn:Hi; try done.
    intros [= <-].
    destruct (turn_turns (k o) (page w) (delete i (tasks w))); auto.
    + apply (Forall_lookup_1 _ _ _ _ Ht Hi).
    + by apply Forall_delete.
  - destruct (tasks w !! i) as [[req k|k]|] eqn:Hi; try done.
    intros [= <-].
    destruct (turn_turns k (page w) (delete i (tasks w))); auto.
    + apply (Forall_lookup_1 _ _ _ _ Ht Hi).
    + by apply Forall_delete.
Qed.

Lemma reachable_task_turns elements w :
  reachable elements w → Forall (task_turns R) (tasks w).
Proof.
  intros [evs Hevs].
  assert (Forall (task_turns R) (tasks (loaded elements))) as H0 by constructor.
  revert Hevs H0. generalize (loaded elements) as w0. 
  induction evs as [|ev evs IH]; intros w0; simpl.
  - by intros [= <-].
  - destruct (fire ev w0) as [w1|] eqn:Hf; [| done].
    intros Hevs H0. apply (IH w1 Hevs). by apply (fire_turns ev w0 w1).
Qed.
End turns.

(** The three facts about [only_outputs_written] that the handlers need. *)

Lemma written_by_script_refl id a : written_by_script id a a.
Proof. by split_and!. Qed.

Lemma only_outputs_written_refl p : only_outputs_written p p.
Proof.
  intros id. destruct (document p !! id); [apply written_by_script_refl | done].
Qed.

Lemma filter_hidden_add (l : list string) :
  filter (λ t, t ≠ "hidden")
         (if decide ("hidden" ∈ l) then l else (l ++ ["hidden"])%list)
  = filter (λ t, t ≠ "hidden") l.
Proof.
  case_decide; [done |]. rewrite filter_app, filter_cons.
  case_decide; [done |]. by rewrite filter_nil, app_nil_r.
Qed.

Lemma filter_hidden_remove (l : list string) :
  filter (λ t, t ≠ "hidden") (filter (λ t, t ≠ "hidden") l)
  = filter (λ t, t ≠ "hidden") l.
Proof.
  induction l as [|t l IH]; [done |].
  rewrite filter_cons. case_decide.
  - rewrite !filter_cons. case_decide; [| done]. by rewrite IH.
  - done.
Qed.

Lemma written_by_script_write id f a b :
  script_write id f → written_by_script id a b → written_by_script id a (f b).
Proof.
  intros Hf (Hv & Hc & Hcl & Ht).
  destruct Hf as [id Hid|id Hid|id text Hid]; unfold written_by_script; simpl.
  - split_and!; [done | by rewrite filter_hidden_add | done | done].
  - split_and!; [done | by rewrite filter_hidden_remove | done | done].
  - split_and!; [done | done | done | done].
Qed.

Lemma only_outputs_written_write id f p0 p :
  script_write id f → only_outputs_written p0 p →
  only_outputs_written p0 (with_element id f p).
Proof.
  intros Hf H id'. specialize (H id'). rewrite lookup_with_element.
  case_decide as Hid; [subst id' | done].
  destruct (document p0 !! id) as [a|], (document p !! id) as [b|]; simpl; try done.
  by apply written_by_script_write.
Qed.

Lemma only_outputs_written_drawn config p0 p :
  only_outputs_written p0 p → only_outputs_written p0 (chart_drawn config p).
Proof.
  intros H id. specialize (H id). unfold chart_drawn, destroy_old.
  by destruct (priceChart p).
Qed.

Lemma only_outputs_written_destroyed p0 p :
  only_outputs_written p0 p → only_outputs_written p0 (destroy_old p).
Proof.
  intros H id. specialize (H id). unfold destroy_old.
  by destruct (priceChart p).
Qed.

(** X11. Whatever the event loop has done so far, a turn of a handler (a
    submit, a click, a request that settles, a run that resumes) writes the
    page only through the three output elements, what Chart.js does to its
    canvas apart.  No element appears or disappears; no element's value
    changes, so what the user typed is never overwritten; the only class
    token added or removed is [hidden], and only on the error region and
    the result region; text changes only on the error region and on the
    price.  An edit by the user sets the value of the edited field. *)
Theorem handler_turns_write_outputs_only elements w ev w' :
  reachable elements w → fire ev w = Some w' →
  match ev with
  | UserInput id text => page w' = with_element id (set_value text) (page w)
  | _ => only_outputs_written (page w) (page w')
  end.
Proof.
  intros Hw Hf.
  pose proof (reachable_task_turns only_outputs_written only_outputs_written_refl
                only_outputs_written_write only_outputs_written_drawn
                only_outputs_written_destroyed elements w Hw) as Ht.
  destruct (fire_turns only_outputs_written only_outputs_written_refl
              only_outputs_written_write only_outputs_written_drawn
              only_outputs_written_destroyed ev w w' Ht Hf)
    as [_ H].
  destruct ev; try done. simpl in Hf. by injection Hf as <-.
Qed.

(** The turn that shows the price of the specification's example. *)
Lemma price_turn_writes_outputs_only :
  match fire_all [SubmitForm; Settle 0 (inr price_250k)] (loaded example_document) with
  | Some w =>
      match fire (Resume 0) w with
      | Some w' =>
          only_outputs_written (page w) (page w') ∧
          text_of predictedPrice (page w') = Some "Precio estimado: $250,000"
      | None => False
      end
  | None => False
  end.
Proof.
  assert (match fire_all [SubmitForm; Settle 0 (inr price_250k)]
                         (loaded example_document) with
          | Some w =>
              match fire (Resume 0) w with
              | Some w' => text_of predictedPrice (page w') = Some "Precio estimado: $250,000"
              | None => False
              end
          | None => False
          end) as H by (by vm_compute).
  destruct (fire_all [SubmitForm; Settle 0 (inr price_250k)] (loaded example_document))
    as [w|] eqn:Hw; [| exact H].
  destruct (fire (Resume 0) w) as [w'|] eqn:Hw'; [| exact H].
  split; [| exact H].
  apply (handler_turns_write_outputs_only example_document w (Resume 0) w');
    [eexists; exact Hw | exact Hw'].
Defined.

(** ** Submitting again *)

Lemma page_eq p q :
  (∀ id, document p !! id = document q !! id) →
  priceChart p = priceChart q → charts p = charts q → p = q.
Proof.
  destruct p as [d s c], q as [d' s' c']. simpl. intros Hd -> ->.
  f_equal. by apply map_eq.
Qed.

Lemma element_eq a b :
  value a = value b → textContent a = textContent b → classList a = classList b → a = b.
Proof. destruct a, b. simpl. by intros -> -> ->. Qed.

Lemma add_token_idem el : add_token "hidden" (add_token "hidden" el) = add_token "hidden" el.
Proof.
  apply element_eq; [done | done |]. simpl.
  destruct (decide ("hidden" ∈ classList el)) as [Hin|Hin].
  - by rewrite decide_True.
  - rewrite decide_True; [done |]. set_solver.
Qed.

Lemma classList_reveal_hide el :
  classList (remove_token "hidden" (add_token "hidden" el))
  = filter (λ t, t ≠ "hidden") (classList el).
Proof. simpl. apply filter_hidden_add. Qed.

(** Hiding and revealing again an element that was hidden and revealed
    changes nothing, whatever text was set in between. *)
Lemma reveal_hide_twice (f g : Element → Element) el :
  (∀ x, classList (f x) = classList x) → (∀ x, classList (g x) = classList x) →
  classList (remove_token "hidden" (f (add_token "hidden"
              (remove_token "hidden" (g (add_token "hidden" el))))))
  = classList (remove_token "hidden" (g (add_token "hidden" el))).
Proof.
  intros Hf Hg. simpl. rewrite Hf, !Hg. simpl.
  rewrite (filter_hidden_add (filter _ _)), filter_hidden_remove.
  by rewrite Hg.
Qed.

(** The page after a run of the submit handler that displays [s], and
    after one that throws [e]. *)
Lemma submit_success_twice s p :
  let shown q := reveal resultBox (write predictedPrice s (hide resultBox (hide errorBox q))) in
  shown (shown p) = shown p.
Proof.
  intros shown. subst shown. apply page_eq; [| done | done].
  intros id. unfold reveal, write, hide. rewrite !lookup_with_element.
  repeat case_decide; subst; try done;
    destruct (document p !! _) as [el|]; simpl; try done; f_equal.
  - apply element_eq; [done | done |].
    apply (reveal_hide_twice (λ x, x) (λ x, x)); done.
  - apply add_token_idem.
Qed.

Lemma submit_error_twice e p :
  let shown q := error_shown e (hide resultBox (hide errorBox q)) in
  shown (shown p) = shown p.
Proof.
  intros shown. subst shown. apply page_eq; [| done | done].
  intros id. unfold error_shown, reveal, write, hide. rewrite !lookup_with_element.
  repeat case_decide; subst; try done;
    destruct (document p !! _) as [el|]; simpl; try done; f_equal.
  - apply element_eq; [done | done |].
    apply (reveal_hide_twice (set_text (err_message e)) (set_text (err_message e))); done.
  - apply add_token_idem.
Qed.

(** X12. Submitting again changes nothing: after a run of the submit
    handler, a second run on the page it left, with the fields as they are
    and the same answer to the same request, leaves that page as it is. *)
Theorem resubmit_changes_nothing net p :
  all_present submit_elements p →
  exec net form_submit_handler (exec net form_submit_handler p).1
  = exec net form_submit_handler p.
Proof.
  intros Hp. rewrite (exec_form_submit_handler net p) by done. simpl fst.
  destruct (predicted_text (net (post_json "/predict_price" (base_input p))))
    as [e|s] eqn:Ho.
  - rewrite exec_form_submit_handler
      by (unfold error_shown, reveal, write, hide; by rewrite !all_present_with_element).
    unfold error_shown at 1, reveal at 1, write at 1, hide at 1 2.
    rewrite !base_input_with_element by done. rewrite Ho.
    f_equal. apply (submit_error_twice e p).
  - rewrite exec_form_submit_handler
      by (unfold reveal, write, hide; by rewrite !all_present_with_element).
    unfold reveal at 1, write at 1, hide at 1 2.
    rewrite !base_input_with_element by done. rewrite Ho.
    f_equal. apply (submit_success_twice s p).
Qed.

(** The specification's example, submitted twice. *)
Lemma resubmit_example :
  exec (λ _, inr price_250k) form_submit_handler
       (exec (λ _, inr price_250k) form_submit_handler example_page).1
  = exec (λ _, inr price_250k) form_submit_handler example_page.
Proof.
  apply resubmit_changes_nothing. by apply (bool_decide_unpack _); vm_compute.
Defined.

(** ** A chart, once drawn, stays *)

(** X14. Once a chart has been drawn, the page has exactly one live chart
    at every later moment, the one in the slot, whatever the later
    responses are and in whatever order they settle: a request that fails
    and a curve that cannot be drawn never remove the chart.  (For
    responses whose parsed curve converts.) *)
Theorem chart_stays_once_drawn evs elements w :
  Forall (λ ev, settles_converting ev = true) evs →
  fire_all evs (loaded elements) = Some w →
  charts (page w) ≠ [] →
  ∃ c, priceChart (page w) = Some c ∧ live_charts (page w) = [c].
Proof.
  intros Hconv Hevs Hne.
  assert (chart_discipline (page w) ∧
          (charts (page w) ≠ [] →
           ∃ c, priceChart (page w) = Some c ∧ live_charts (page w) = [c]))
    as [_ Hslot]; [| by apply Hslot].
  apply (loaded_keeps
           (λ o, settles_converting (Settle 0 o) = true)
           (λ p, chart_discipline p ∧
                 (charts p ≠ [] → ∃ c, priceChart p = Some c ∧ live_charts p = [c])))
    with elements evs.
  - by intros id f p.
  - intros config p [Hd _]. split; [by apply chart_discipline_drawn |].
    intros _. destruct Hd as [Hlive _]. by apply live_charts_drawn.
  - intros r j e p Hr Hj Hlabel _. exfalso.
    simpl in Hr. rewrite Hj in Hr. unfold curve_converts in Hr.
    apply andb_prop in Hr as [Hf _].
    pose proof (ToString_cases (feature_of j)) as H. rewrite Hlabel in H.
    destruct H. congruence.
  - split; [apply chart_discipline_loaded | done].
  - eapply Forall_impl; [exact Hconv |]. by intros [].
  - done.
Qed.

(** A chart is drawn, then a curve request fails in transit and another
    answers with a body without prices: the first chart is still the live
    one, beside the error message. *)
Lemma chart_stays_after_failures :
  match fire_all curve_then_failures (loaded example_document) with
  | Some w =>
      ∃ c, priceChart (page w) = Some c ∧ live_charts (page w) = [c] ∧
           is_visible errorBox (page w) = true
  | None => False
  end.
Proof.
  assert (match fire_all curve_then_failures (loaded example_document) with
          | Some w => charts (page w) ≠ [] ∧ is_visible errorBox (page w) = true
          | None => False
          end) as H by (by vm_compute).
  destruct (fire_all curve_then_failures (loaded example_document)) as [w|] eqn:Hw;
    [| exact H].
  destruct H as [Hne Hv].
  destruct (chart_stays_once_drawn curve_then_failures example_document w
              ltac:(by repeat constructor) Hw Hne) as (c & Hc & Hl).
  exact (ex_intro _ c (conj Hc (conj Hl Hv))).
Defined.

(** ** Numerals: the number of points, and integers in the request body *)

Lemma digits_prefix d r count acc :
  digits_only d = true → no_leading_digit r = true →
  Number.digits (d +:+ r) count acc
  = ((count + String.length d)%nat, read_value d acc, r).
Proof.
  revert count acc. induction d as [|c d IH]; intros count acc; simpl.
  - intros _ Hr. change ("" +:+ r) with r.
    destruct r as [|c r]; simpl.
    + do 2 f_equal. lia.
    + simpl in Hr. apply negb_true_iff in Hr. rewrite Hr. do 2 f_equal. lia.
  - intros [Hc Hd]%andb_prop Hr.
    rewrite Hc, IH by done. do 2 f_equal. lia.
Qed.

Lemma trim_start_digit c s :
  Number.is_digit c = true → Number.trim_start (String c s) = String c s.
Proof.
  destruct c as [[] [] [] [] [] [] [] []]; try discriminate; intros _; reflexivity.
Qed.

Lemma sign_prefix_digit c s :
  Number.is_digit c = true → Number.sign_prefix (String c s) = (false, String c s).
Proof.
  destruct c as [[] [] [] [] [] [] [] []]; try discriminate; intros _; reflexivity.
Qed.

Lemma starts_with_Infinity_digit c s :
  Number.is_digit c = true → starts_with "Infinity" (String c s) = false.
Proof.
  destruct c as [[] [] [] [] [] [] [] []]; try discriminate; intros _; reflexivity.
Qed.

Lemma parseInt_prefix d r :
  digits_only d = true → d ≠ "" → no_leading_digit r = true →
  Number.parseInt (d +:+ r) = Number.parseInt d.
Proof.
  intros Hd Hne Hr. destruct d as [|c d]; [done |].
  simpl in Hd. apply andb_prop in Hd as [Hc Hd].
  unfold Number.parseInt.
  change (String c d +:+ r) with (String c (d +:+ r)).
  rewrite !trim_start_digit, !sign_prefix_digit by done.
  assert (digits_only (String c d) = true) as Hcd
    by (cbn [digits_only]; by rewrite Hc, Hd).
  pose proof (digits_prefix (String c d) r 0 0 Hcd Hr) as H1.
  change (String c d +:+ r) with (String c (d +:+ r)) in H1.
  by rewrite H1, (digits_all (String c d)).
Qed.

Lemma no_number_part_no_digit r : no_number_part r = true → no_leading_digit r = true.
Proof.
  destruct r as [|c r]; [done |]. simpl.
  intros H%negb_true_iff. apply negb_true_iff.
  by destruct (Number.is_digit c).
Qed.

Lemma unsigned_decimal_prefix d r :
  digits_only d = true → d ≠ "" → no_number_part r = true →
  Number.unsigned_decimal (d +:+ r) = Some (read_value d 0, 0, r).
Proof.
  intros Hd Hne Hr. unfold Number.unsigned_decimal.
  rewrite digits_prefix by (by try apply no_number_part_no_digit).
  assert (∃ k, (0 + String.length d)%nat = S k) as [k ->].
  { destruct d; [done |]. by eexists. }
  destruct r as [|c r].
  - done.
  - simpl in Hr. apply negb_true_iff in Hr.
    apply orb_false_elim in Hr as [Hr HE].
    apply orb_false_elim in Hr as [Hr He].
    apply orb_false_elim in Hr as [Hdig Hpt].
    assert (match String c r with
            | String "." r' => Number.digits r' 0 (read_value d 0)
            | _ => (0%nat, read_value d 0, String c r)
            end = (0%nat, read_value d 0, String c r)) as ->.
    { destruct c as [[] [] [] [] [] [] [] []]; try done. }
    unfold Number.exponent_part. by rewrite He, HE.
Qed.

Lemma append_empty s : s +:+ "" = s.
Proof.
  induction s as [|c s IH]; [done |].
  change (String c s +:+ "") with (String c (s +:+ "")). by rewrite IH.
Qed.

Lemma parseFloat_prefix d r :
  digits_only d = true → d ≠ "" → no_number_part r = true →
  Number.parseFloat (d +:+ r) = Number.parseFloat d.
Proof.
  intros Hd Hne Hr.
  pose proof (unsigned_decimal_prefix d r Hd Hne Hr) as H1.
  pose proof (unsigned_decimal_prefix d "" Hd Hne eq_refl) as H2.
  rewrite append_empty in H2.
  destruct d as [|c d]; [done |].
  cbn [digits_only] in Hd. apply andb_prop in Hd as [Hc Hd].
  unfold Number.parseFloat.
  change (String c d +:+ r) with (String c (d +:+ r)) in *.
  rewrite !trim_start_digit, !sign_prefix_digit, !starts_with_Infinity_digit by done.
  by rewrite H1, H2.
Qed.

(** X15. The numeric fields are read up to the end of their leading
    digits, and what follows is ignored.  The number of points, read with
    [parseInt], stops at anything that is not a digit: [10.9] and [10px]
    are 10 points.  The other fields, read with [parseFloat], stop at
    anything that cannot continue a decimal literal: [10px] is 10. *)
Theorem numbers_read_up_to_their_digits d r :
  digits_only d = true → d ≠ "" →
  (no_leading_digit r = true → Number.parseInt (d +:+ r) = Number.parseInt d) ∧
  (no_number_part r = true → Number.parseFloat (d +:+ r) = Number.parseFloat d).
Proof.
  intros Hd Hne. split; intros Hr.
  - by apply parseInt_prefix.
  - by apply parseFloat_prefix.
Qed.

(** [10.9] points are 10 points, and a field of [10px] holds 10. *)
Lemma trailing_text_is_ignored :
  Number.parseInt "10.9" = 10%float ∧
  Number.parseInt "10px" = 10%float ∧
  Number.parseFloat "10px" = 10%float.
Proof.
  destruct (numbers_read_up_to_their_digits "10" ".9" eq_refl ltac:(done)) as [H1 _].
  destruct (numbers_read_up_to_their_digits "10" "px" eq_refl ltac:(done)) as [H2 H3].
  split_and!; [apply (H1 eq_refl) | apply (H2 eq_refl) | apply (H3 eq_refl)].
Defined.

(** *** The double of an integer *)

Lemma digits2_pos_bounds q :
  2 ^ (Zpos (digits2_pos q) - 1) ≤ Zpos q < 2 ^ Zpos (digits2_pos q).
Proof.
  assert (∀ d, 0 < d → 2 ^ Z.succ d = 2 * 2 ^ d ∧ 2 ^ (Z.succ d - 1) = 2 ^ d ∧
                        2 ^ d = 2 * 2 ^ (d - 1)) as Hpow.
  { intros d Hd. split_and!.
    - apply Z.pow_succ_r. lia.
    - f_equal. lia.
    - rewrite <- Z.pow_succ_r by lia. f_equal. lia. }
  induction q as [q IH|q IH|]; simpl digits2_pos; [| | simpl; lia];
    rewrite Pos2Z.inj_succ;
    destruct (Hpow (Zpos (digits2_pos q)) ltac:(lia)) as (-> & -> & H3); lia.
Qed.

Lemma digits2_pos_iter_xO q k :
  digits2_pos (Pos.iter xO q k) = (digits2_pos q + k)%positive.
Proof.
  induction k as [|k IH] using Pos.peano_ind.
  - simpl. lia.
  - rewrite Pos.iter_succ. simpl. rewrite IH. lia.
Qed.

Lemma Zpos_iter_xO q k : Zpos (Pos.iter xO q k) = Zpos q * 2 ^ Zpos k.
Proof.
  induction k as [|k IH] using Pos.peano_ind.
  - simpl. lia.
  - rewrite Pos.iter_succ, Pos2Z.inj_xO, IH, Pos2Z.inj_succ, Z.pow_succ_r by lia. lia.
Qed.

(** A double whose mantissa has 53 bits, exponent [e] between -52 and 0:
    it goes through [binary_round_aux] as it is. *)
Lemma binary_round_aux_exact m e :
  Zpos (digits2_pos m) = 53 → -52 ≤ e ≤ 0 →
  binary_round_aux prec emax false (Zpos m) e loc_Exact = S754_finite false m e.
Proof.
  intros Hd He. unfold binary_round_aux, shr_fexp, Zdigits2, shr_record_of_loc.
  rewrite Hd. unfold fexp, emin, prec, emax.
  replace (Z.max (53 + e - 53) (3 - 1024 - 53) - e) with 0 by lia.
  simpl. unfold shr_fexp, Zdigits2, shr_record_of_loc. rewrite Hd.
  unfold fexp, emin.
  replace (Z.max (53 + e - 53) (3 - 1024 - 53) - e) with 0 by lia.
  simpl. destruct (Z.leb_spec e (1024 - 53)); [done | lia].
Qed.

(** The double of a positive integer below [2^53] is that integer: a
    53-bit mantissa [m] and an exponent [e] with [m * 2^e] the integer. *)
Lemma binary_normalize_integer q :
  Zpos q < 2 ^ 53 →
  ∃ m e, binary_normalize prec emax (Zpos q) 0 false = S754_finite false m e ∧
         Zpos (digits2_pos m) = 53 ∧ -52 ≤ e ≤ 0 ∧ Zpos m = Zpos q * 2 ^ (- e).
Proof.
  intros Hq. pose proof (digits2_pos_bounds q) as [Hlo Hhi].
  assert (1 ≤ Zpos (digits2_pos q) ≤ 53) as Hd.
  { split; [lia |].
    destruct (Z.le_gt_cases (Zpos (digits2_pos q)) 53) as [|Hgt]; [done |].
    assert (2 ^ 53 ≤ 2 ^ (Zpos (digits2_pos q) - 1)) by (apply Z.pow_le_mono_r; lia).
    lia. }
  unfold binary_normalize, binary_round, shl_align.
  unfold fexp at 1, emin, prec, emax.
  replace (Z.max (Zpos (digits2_pos q) + 0 - 53) (3 - 1024 - 53) - 0)
    with (Zpos (digits2_pos q) - 53) by lia.
  destruct (Zpos (digits2_pos q) - 53) as [|k|k] eqn:Hk; [| lia |].
  - exists q, 0. rewrite binary_round_aux_exact by lia.
    split_and!; [done | lia | lia | lia | simpl; lia].
  - unfold fexp, emin.
    replace (Z.max (Zpos (digits2_pos q) + 0 - 53) (3 - 1024 - 53)) with (Zneg k) by lia.
    exists (Pos.iter xO q k), (Zneg k).
    assert (Zpos (digits2_pos (Pos.iter xO q k)) = 53) as Hd'.
    { rewrite digits2_pos_iter_xO. lia. }
    rewrite binary_round_aux_exact by lia.
    split_and!; [done | done | lia | lia |].
    rewrite Zpos_iter_xO. done.
Qed.

Lemma valid_binary_53 m e :
  Zpos (digits2_pos m) = 53 → -52 ≤ e ≤ 0 →
  valid_binary prec emax (S754_finite false m e) = true.
Proof.
  intros Hd He. unfold valid_binary, bounded, canonical_mantissa. rewrite Hd.
  unfold fexp, emin, prec, emax. apply andb_true_intro. split.
  - apply Z.eqb_eq. lia.
  - apply Z.leb_le. lia.
Qed.

Lemma is_finite_SF2Prim m e :
  valid_binary prec emax (S754_finite false m e) = true →
  is_finite (SF2Prim (S754_finite false m e)) = true.
Proof.
  intros Hv. unfold is_finite, is_nan, is_infinity.
  rewrite !FloatAxioms.eqb_spec, FloatAxioms.abs_spec, FloatAxioms.Prim2SF_SF2Prim by done.
  change (Prim2SF infinity) with (S754_infinity false).
  unfold SFeqb. simpl. by rewrite Z.compare_refl, Pos.compare_cont_refl.
Qed.

(** *** The shortest digits of an integer *)

(** For a double that is the integer [n]: the candidates at a decimal
    exponent [P >= 0] are the one integer [s] with [s * 10^P = n], when
    [10^P] divides [n], and none otherwise. *)
Lemma candidates_integer m e n P smin smax near :
  -52 ≤ e ≤ 0 → 0 < n → Zpos m = n * 2 ^ (- e) → 0 ≤ P →
  Number.candidates m e P = (smin, smax, near) →
  (smin ≤ smax → smin * 10 ^ P = n ∧ smax = smin) ∧ (P = 0 → smin ≤ smax).
Proof.
  intros He Hn Hm HP. unfold Number.candidates.
  replace (Z.max (e - 2) 0) with 0 by lia.
  replace (Z.max (- P) 0) with 0 by lia.
  replace (Z.max P 0) with P by lia.
  replace (Z.max (- (e - 2)) 0) with (2 - e) by lia.
  change (2 ^ 0 * 10 ^ 0) with 1. rewrite !Z.mul_1_r.
  assert (2 ^ (2 - e) = 4 * 2 ^ (- e)) as HU.
  { replace (2 - e) with (2 + - e) by lia. rewrite Z.pow_add_r by lia. done. }
  assert (0 < 2 ^ (- e)) as Hpos by (apply Z.pow_pos_nonneg; lia).
  assert (0 < 10 ^ P) as HT by (apply Z.pow_pos_nonneg; lia).
  set (U := 2 ^ (2 - e)) in *. set (T := 10 ^ P) in *.
  assert (4 * Zpos m = n * U) as H4m by lia.
  assert (4 ≤ U) as HU4 by lia.
  assert (0 < T * U) as HB by nia.
  assert (∃ δ, Number.boundary_low m e = n * U - δ ∧ 1 ≤ δ ≤ 2) as (δ & -> & Hδ).
  { unfold Number.boundary_low. destruct (_ && _); [exists 1 | exists 2]; lia. }
  replace (4 * Zpos m + 2) with (n * U + 2) by lia.
  assert (P = 0 → T = 1) as HT1 by (by intros ->).
  clear H4m Hm HU. clearbody U T.
  assert (∀ s, n * U - δ ≤ s * (T * U) ≤ n * U + 2 → s * T = n) as HK.
  { intros s Hs. nia. }
  assert (∀ x, (T * U) * (x / (T * U)) ≤ x < (T * U) * (x / (T * U)) + T * U) as Hdiv.
  { intros x. split; [apply Z.mul_div_le; lia |].
    pose proof (Z.mul_succ_div_gt x (T * U) HB). lia. }
  destruct (Z.even (Zpos m)); intros [= <- <- _].
  - pose proof (Hdiv (n * U - δ + T * U - 1)) as H1.
    pose proof (Hdiv (n * U + 2)) as H2.
    set (a := (n * U - δ + T * U - 1) / (T * U)) in *.
    set (b := (n * U + 2) / (T * U)) in *. clearbody a b.
    split.
    + intros Hle.
      assert (Z.max a 1 * T = n) as Ha by (apply HK; nia).
      assert (b * T = n) as Hb by (apply HK; nia).
      split; [done | nia].
    + intros HP0. specialize (HT1 HP0). subst T. clear Hdiv HK Hpos.
      rewrite !Z.mul_1_l in *.
      assert (a ≤ n) by (apply Z.lt_succ_r, (Z.mul_lt_mono_pos_l U); lia).
      assert (n ≤ b) by (apply Z.lt_succ_r, (Z.mul_lt_mono_pos_l U); lia).
      lia.
  - pose proof (Hdiv (n * U - δ)) as H1.
    pose proof (Hdiv (n * U + 2 - 1)) as H2.
    set (a := (n * U - δ) / (T * U)) in *.
    set (b := (n * U + 2 - 1) / (T * U)) in *. clearbody a b.
    split.
    + intros Hle.
      assert (Z.max (a + 1) 1 * T = n) as Ha by (apply HK; nia).
      assert (b * T = n) as Hb by (apply HK; nia).
      split; [done | nia].
    + intros HP0. specialize (HT1 HP0). subst T. clear Hdiv HK Hpos.
      rewrite !Z.mul_1_l in *.
      assert (a < n) by (apply (Z.mul_lt_mono_pos_l U); lia).
      assert (n ≤ b) by (apply Z.lt_succ_r, (Z.mul_lt_mono_pos_l U); lia).
      lia.
Qed.

Lemma shortest_integer m e n fuel P :
  -52 ≤ e ≤ 0 → 0 < n → Zpos m = n * 2 ^ (- e) → 0 ≤ P ≤ Z.of_nat fuel →
  ∃ s P', Number.shortest fuel m e P = (s, P') ∧ 0 ≤ P' ∧ s * 10 ^ P' = n.
Proof.
  intros He Hn Hm. revert P.
  induction fuel as [|fuel IH]; intros P HP.
  - assert (P = 0) as -> by lia. cbn [Number.shortest].
    destruct (Number.candidates m e 0) as [[smin smax] near] eqn:Hc.
    destruct (candidates_integer m e n 0 smin smax near He Hn Hm ltac:(lia) Hc)
      as [H1 H2].
    specialize (H2 eq_refl). destruct (H1 H2) as [Hs ->].
    destruct (Z.leb_spec smin smin); [| lia].
    exists (Z.max smin (Z.min smin near)), 0. split_and!; [done | lia |].
    by replace (Z.max smin (Z.min smin near)) with smin by lia.
  - cbn [Number.shortest].
    destruct (Number.candidates m e P) as [[smin smax] near] eqn:Hc.
    destruct (candidates_integer m e n P smin smax near He Hn Hm ltac:(lia) Hc)
      as [H1 H2].
    destruct (Z.leb_spec smin smax) as [Hle|Hgt].
    + destruct (H1 Hle) as [Hs ->].
      exists (Z.max smin (Z.min smin near)), P. split_and!; [done | lia |].
      by replace (Z.max smin (Z.min smin near)) with smin by lia.
    + apply IH. assert (P ≠ 0) by (intros HP0; specialize (H2 HP0); lia). lia.
Qed.

(** *** Numerals without leading zeros *)

Lemma digit_value_bounds c : Number.is_digit c = true → 0 ≤ Number.digit_value c ≤ 9.
Proof.
  unfold Number.is_digit, Number.digit_value.
  intros [H1%Nat.leb_le H2%Nat.leb_le]%andb_prop. lia.
Qed.

Lemma digit_value_inj c c' : Number.digit_value c = Number.digit_value c' → c = c'.
Proof.
  unfold Number.digit_value. intros H.
  rewrite <- (ascii_nat_embedding c), <- (ascii_nat_embedding c'). f_equal. lia.
Qed.

Lemma pow10_length_cons (c : ascii) s :
  10 ^ Z.of_nat (String.length (String c s)) = 10 * 10 ^ Z.of_nat (String.length s).
Proof.
  cbn [String.length]. rewrite Nat2Z.inj_succ, Z.pow_succ_r by lia. done.
Qed.

Lemma read_value_acc s acc :
  read_value s acc = acc * 10 ^ Z.of_nat (String.length s) + read_value s 0.
Proof.
  revert acc. induction s as [|c s IH]; intros acc.
  - simpl. lia.
  - rewrite pow10_length_cons. cbn [read_value].
    rewrite (IH (10 * acc + _)), (IH (10 * 0 + _)). lia.
Qed.

Lemma read_value_bounds s :
  digits_only s = true → 0 ≤ read_value s 0 < 10 ^ Z.of_nat (String.length s).
Proof.
  induction s as [|c s IH].
  - simpl. lia.
  - cbn [digits_only]. intros [Hc Hs]%andb_prop.
    rewrite pow10_length_cons. cbn [read_value]. rewrite read_value_acc.
    pose proof (digit_value_bounds c Hc). specialize (IH Hs). nia.
Qed.

Lemma read_value_leading s :
  digits_only s = true → leading_nonzero s →
  10 ^ (Z.of_nat (String.length s) - 1) ≤ read_value s 0.
Proof.
  destruct s as [|c s]; [done |].
  cbn [digits_only leading_nonzero String.length]. intros [Hc Hs]%andb_prop Hnz.
  replace (Z.of_nat (S (String.length s)) - 1) with (Z.of_nat (String.length s)) by lia.
  cbn [read_value]. rewrite read_value_acc.
  pose proof (digit_value_bounds c Hc). pose proof (read_value_bounds s Hs).
  assert (0 < 10 ^ Z.of_nat (String.length s)) by (apply Z.pow_pos_nonneg; lia).
  nia.
Qed.

Lemma same_length_same_value a b :
  digits_only a = true → digits_only b = true →
  String.length a = String.length b →
  read_value a 0 = read_value b 0 → a = b.
Proof.
  revert b. induction a as [|c a IH]; intros [|c' b]; try done.
  cbn [digits_only String.length]. intros [Hc Ha]%andb_prop [Hc' Hb]%andb_prop [= Hlen].
  cbn [read_value]. rewrite (read_value_acc a), (read_value_acc b), Hlen.
  pose proof (digit_value_bounds c Hc). pose proof (digit_value_bounds c' Hc').
  pose proof (read_value_bounds a Ha) as Hba. pose proof (read_value_bounds b Hb) as Hbb.
  rewrite Hlen in Hba.
  intros Hv.
  assert (Number.digit_value c = Number.digit_value c') as Hcc by nia.
  apply digit_value_inj in Hcc as ->. f_equal. apply IH; [done | done | done | nia].
Qed.

Lemma numeral_unique a b :
  digits_only a = true → digits_only b = true →
  leading_nonzero a → leading_nonzero b →
  read_value a 0 = read_value b 0 → a = b.
Proof.
  intros Ha Hb Hna Hnb Hv.
  apply same_length_same_value; [done | done | | done].
  pose proof (read_value_bounds a Ha). pose proof (read_value_bounds b Hb).
  pose proof (read_value_leading a Ha Hna). pose proof (read_value_leading b Hb Hnb).
  assert (Z.of_nat (String.length a) - 1 < Z.of_nat (String.length b)).
  { apply (Z.pow_lt_mono_r_iff 10); lia. }
  assert (Z.of_nat (String.length b) - 1 < Z.of_nat (String.length a)).
  { apply (Z.pow_lt_mono_r_iff 10); lia. }
  lia.
Qed.

Lemma to_uint_head p :
  match Pos.to_uint p with
  | Decimal.Nil | Decimal.D0 _ => False
  | _ => True
  end.
Proof.
  pose proof (DecimalPos.Unsigned.to_of (Pos.to_uint p)) as H.
  rewrite DecimalPos.Unsigned.of_to in H. simpl in H.
  pose proof (DecimalPos.Unsigned.to_uint_nonzero p) as Hnz.
  pose proof (DecimalFacts.nzhead_nonzero (Pos.to_uint p)) as Hh.
  unfold Decimal.unorm in H.
  destruct (Decimal.nzhead (Pos.to_uint p)) eqn:Hn;
    rewrite H in *; try done.
  by destruct (Hh u).
Qed.

Lemma decimal_leading n : 0 < n → leading_nonzero (Number.decimal n).
Proof.
  intros Hn. unfold Number.decimal. destruct n as [|p|p]; try lia.
  simpl Z.to_N. simpl N.to_uint. pose proof (to_uint_head p) as H.
  destruct (Pos.to_uint p); try done; simpl; unfold Number.digit_value; by vm_compute.
Qed.

Lemma read_value_zeros_acc k acc :
  read_value (Number.zeros k) acc = acc * 10 ^ Z.of_nat k.
Proof.
  rewrite read_value_acc, length_zeros, read_value_zeros. lia.
Qed.

Lemma leading_nonzero_app a b : leading_nonzero a → leading_nonzero (a +:+ b).
Proof. by destruct a. Qed.

(** The numeral of [s * 10^k] is the numeral of [s] followed by [k]
    zeros. *)
Lemma decimal_shift s k :
  0 < s → Number.decimal s +:+ Number.zeros k = Number.decimal (s * 10 ^ Z.of_nat k).
Proof.
  intros Hs.
  assert (0 < 10 ^ Z.of_nat k) by (apply Z.pow_pos_nonneg; lia).
  apply numeral_unique.
  - by rewrite digits_only_app, digits_only_decimal, digits_only_zeros.
  - apply digits_only_decimal.
  - by apply leading_nonzero_app, decimal_leading.
  - apply decimal_leading. nia.
  - rewrite read_value_app, read_value_zeros_acc, !read_value_decimal by nia. done.
Qed.

Lemma length_decimal_below n k :
  0 < n < 10 ^ k → Z.of_nat (String.length (Number.decimal n)) ≤ k.
Proof.
  intros [Hn Hk].
  pose proof (read_value_leading (Number.decimal n) (digits_only_decimal n)
                (decimal_leading n Hn)) as H.
  rewrite read_value_decimal in H by lia.
  assert (0 ≤ k).
  { destruct (Z.le_gt_cases 0 k); [done |]. rewrite Z.pow_neg_r in Hk by lia. lia. }
  assert (Z.of_nat (String.length (Number.decimal n)) - 1 < k).
  { apply (Z.pow_lt_mono_r_iff 10); lia. }
  lia.
Qed.

(** *** An integer through the parsers and the printer *)

Lemma render_integer m e n :
  -52 ≤ e ≤ 0 → 0 < n < 10 ^ 21 → Zpos (digits2_pos m) = 53 → Zpos m = n * 2 ^ (- e) →
  (let '(ds, point) := Number.digits_and_point m e in Number.render ds point)
  = Number.decimal n.
Proof.
  intros He Hn Hd Hm. unfold Number.digits_and_point. rewrite Hd.
  assert (0 ≤ (53 + e + 1) * 30103 / 100000 + 2 ≤ Z.of_nat 400) as Htop.
  { change (Z.of_nat 400) with 400. Z.div_mod_to_equations. lia. }
  destruct (shortest_integer m e n 400 ((53 + e + 1) * 30103 / 100000 + 2)
              He ltac:(lia) Hm Htop) as (s & P & -> & HP & Hs).
  assert (0 < 10 ^ P) by (apply Z.pow_pos_nonneg; lia).
  assert (0 < s) by nia.
  pose proof (decimal_shift s (Z.to_nat P) ltac:(done)) as Hshift.
  rewrite Z2Nat.id, Hs in Hshift by done.
  pose proof (length_decimal_below n 21 Hn) as Hlen.
  rewrite <- Hshift, length_app, length_zeros in Hlen.
  unfold Number.render.
  destruct (Z.leb_spec (Z.of_nat (String.length (Number.decimal s)))
                       (P + Z.of_nat (String.length (Number.decimal s)))); [| lia].
  destruct (Z.leb_spec (P + Z.of_nat (String.length (Number.decimal s))) 21); [| lia].
  simpl andb. cbv iota.
  replace (P + Z.of_nat (String.length (Number.decimal s))
           - Z.of_nat (String.length (Number.decimal s))) with P by lia.
  done.
Qed.

Lemma toString_integer m e n :
  -52 ≤ e ≤ 0 → 0 < n < 10 ^ 21 → Zpos (digits2_pos m) = 53 → Zpos m = n * 2 ^ (- e) →
  Number.toString (SF2Prim (S754_finite false m e)) = Number.decimal n.
Proof.
  intros He Hn Hd Hm. unfold Number.toString.
  rewrite FloatAxioms.Prim2SF_SF2Prim by (by apply valid_binary_53).
  pose proof (render_integer m e n He Hn Hd Hm) as H.
  destruct (Number.digits_and_point m e) as [ds point]. exact H.
Qed.

(** What [JSON.stringify] writes for the double of an integer below
    [2^53]: the integer's numeral. *)
Lemma json_number_integer n :
  0 ≤ n < 2 ^ 53 →
  json_number (SF2Prim (binary_normalize prec emax n 0 false)) = Number.decimal n.
Proof.
  intros [Hn0 Hn]. destruct n as [|q|q]; [reflexivity | | lia].
  destruct (binary_normalize_integer q Hn) as (m & e & -> & Hd & He & Hm).
  unfold json_number.
  rewrite is_finite_SF2Prim by (by apply valid_binary_53).
  apply toString_integer; try done. split; [lia |].
  transitivity (2 ^ 53); [done | by vm_compute].
Qed.

Lemma decimal_cons n :
  ∃ c s, Number.decimal n = String c s ∧ Number.is_digit c = true.
Proof.
  pose proof (digits_only_decimal n) as Hd. pose proof (length_decimal n) as Hl.
  destruct (Number.decimal n) as [|c s]; [simpl in Hl; lia |].
  cbn [digits_only] in Hd. apply andb_prop in Hd as [Hc _]. by exists c, s.
Qed.

Lemma parseInt_decimal n :
  0 ≤ n →
  Number.parseInt (Number.decimal n) = SF2Prim (binary_normalize prec emax n 0 false).
Proof.
  intros Hn. unfold Number.parseInt.
  pose proof (digits_all (Number.decimal n) 0 0 (digits_only_decimal n)) as Hdigits.
  rewrite read_value_decimal in Hdigits by done.
  destruct (decimal_cons n) as (c & s & Heq & Hc). rewrite Heq in *.
  rewrite trim_start_digit, sign_prefix_digit, Hdigits by done. done.
Qed.

Lemma parseFloat_decimal n :
  0 ≤ n < 10 ^ 21 →
  Number.parseFloat (Number.decimal n) = SF2Prim (binary_normalize prec emax n 0 false).
Proof.
  intros Hn. unfold Number.parseFloat, Number.unsigned_decimal.
  pose proof (digits_all (Number.decimal n) 0 0 (digits_only_decimal n)) as Hdigits.
  rewrite read_value_decimal in Hdigits by lia.
  assert (n = 0 ∨ Z.of_nat (String.length (Number.decimal n)) ≤ 21) as Hlen.
  { destruct (decide (n = 0)); [by left | right]. apply length_decimal_below. lia. }
  destruct (decimal_cons n) as (c & s & Heq & Hc). rewrite Heq in *.
  rewrite trim_start_digit, sign_prefix_digit, starts_with_Infinity_digit, Hdigits by done.
  cbn [Nat.add String.length]. cbn [Number.exponent_part]. cbv iota beta.
  unfold Number.of_decimal.
  destruct (Z.eqb_spec n 0) as [->|Hne]; [done |].
  rewrite <- Heq in Hlen. change (0 - Z.of_nat 0) with 0.
  destruct (Z.ltb_spec 310 (Z.of_nat (String.length (Number.decimal n)) + 0)); [lia |].
  destruct (Z.ltb_spec (Z.of_nat (String.length (Number.decimal n)) + 0) (-330)); [lia |].
  change (0 <=? 0) with true. cbv iota. change (10 ^ 0) with 1. by rewrite Z.mul_1_r.
Qed.

(** X16. A non-negative integer below [2^53], typed without leading zeros,
    goes through unchanged: read by [parseInt] or by [parseFloat] and
    written by [JSON.stringify], it is in the request body with the digits
    the user typed; so is the slot of a base field that holds it. *)
Theorem integer_posted_as_typed n :
  0 ≤ n < 2 ^ 53 →
  json_number (Number.parseInt (Number.decimal n)) = Number.decimal n ∧
  json_number (Number.parseFloat (Number.decimal n)) = Number.decimal n ∧
  (∀ p id, field id p = Number.decimal n →
           base_member p id = QuoteJSONString id +:+ ":" +:+ Number.decimal n).
Proof.
  intros Hn.
  assert (json_number (Number.parseFloat (Number.decimal n)) = Number.decimal n) as Hf.
  { by rewrite parseFloat_decimal, json_number_integer by lia. }
  split_and!; [| done |].
  - by rewrite parseInt_decimal, json_number_integer by lia.
  - intros p id Hid. unfold base_member. by rewrite Hid, Hf.
Qed.

(** Twenty points, and a population of 322. *)
Lemma twenty_posted_as_typed :
  json_number (Number.parseInt "20") = "20" ∧
  json_number (Number.parseFloat "20") = "20" ∧
  (∀ p id, field id p = "20" → base_member p id = QuoteJSONString id +:+ ":" +:+ "20").
Proof. apply (integer_posted_as_typed 20). split; [lia | by vm_compute]. Defined.
